(** * invoice_parser: the conservative table-row parser of [table_parser.py]

    A shallow embedding of [parse_invoice_table], [save_to_csv] and
    [analyze_table], together with the parts of Python they stand on:
    [str] methods, the backtracking matcher of [re], [int] and [float]
    conversion, binary64 arithmetic and formatting, and the [csv] writer;
    and of their callers, from the text of the PDF on: the two methods of
    [pdf_text_extractor.py] that use them, the branches of [main] that
    call these, and the scripts [test_parser.py] and [test_final.py].

    Conventions.
    - Text is [string] over 8-bit characters and is read as ASCII text;
      codes above 127 are carried along as characters that are neither
      whitespace nor digits and have no case.
    - Python integers are [Z].  The interpreter's limit on conversions
      between integers and text (4300 digits, the default of CPython 3.11)
      is part of the model where the extractor reads a quantity
      ([int_checked]) and where a caller prints a quantity or a sum of
      quantities ([str_checked]).  Counts of rows and line numbers always
      convert: a list has far fewer than 10^4300 elements.
    - Where the caller chooses the path of the CSV file, the file system
      is a parameter that says what [open] raises on each path
      ([file_system]).  Standard output takes whatever is printed.
    - Python floats are IEEE 754 binary64 values, as [spec_float] with
      [prec = 53] and [emax = 1024].
    - A raised exception is the [Raise] case of [result]; nothing in the
      modelled code catches an exception except where the source does.
    - The blank cell [''] of a row is [None]; a filled cell is [Some v]. *)

From Stdlib Require Import String Ascii List ZArith Bool Lia PeanoNat.
From Stdlib Require Import SpecFloat Sorted.
Import ListNotations.

Local Open Scope string_scope.
Local Open Scope list_scope.

(* ================================================================== *)
(** * Python [str] *)

Module PyStr.

Definition code (c : ascii) : nat := nat_of_ascii c.

Definition in_range (lo hi : nat) (c : ascii) : bool :=
  (lo <=? code c)%nat && (code c <=? hi)%nat.

(** [str.isspace] on one character, also the class [\s]:
    TAB LF VT FF CR, FS GS RS US, and the space. *)
Definition is_space (c : ascii) : bool :=
  in_range 9 13 c || in_range 28 32 c.

(** The class [\d]. *)
Definition is_digit (c : ascii) : bool := in_range 48 57 c.

Definition upper_char (c : ascii) : ascii :=
  if in_range 97 122 c then ascii_of_nat (code c - 32) else c.

(** [s.upper()] *)
Fixpoint upper (s : string) : string :=
  match s with
  | EmptyString => EmptyString
  | String c t => String (upper_char c) (upper t)
  end.

Fixpoint lstrip (s : string) : string :=
  match s with
  | String c t => if is_space c then lstrip t else s
  | EmptyString => EmptyString
  end.

Fixpoint rstrip (s : string) : string :=
  match s with
  | EmptyString => EmptyString
  | String c t =>
      match rstrip t with
      | EmptyString => if is_space c then EmptyString else String c EmptyString
      | t' => String c t'
      end
  end.

(** [s.strip()] *)
Definition strip (s : string) : string := rstrip (lstrip s).

(** [s.split(sep)] for a one-character separator: never the empty list. *)
Fixpoint split (sep : ascii) (s : string) : list string :=
  match s with
  | EmptyString => [EmptyString]
  | String c t =>
      if Ascii.eqb c sep then EmptyString :: split sep t
      else match split sep t with
           | h :: r => String c h :: r
           | [] => [String c EmptyString]
           end
  end.

(** [needle in hay] *)
Fixpoint contains (needle hay : string) : bool :=
  if prefix needle hay then true
  else match hay with
       | String _ t => contains needle t
       | EmptyString => false
       end.

(** [s.replace(old, new)] for a one-character [old]. *)
Fixpoint replace (old : ascii) (new : string) (s : string) : string :=
  match s with
  | EmptyString => EmptyString
  | String c t =>
      if Ascii.eqb c old then new ++ replace old new t
      else String c (replace old new t)
  end.

(** Every character of [s] is in the class [p]. *)
Fixpoint all_of (p : ascii -> bool) (s : string) : bool :=
  match s with
  | EmptyString => true
  | String c t => p c && all_of p t
  end.

(** Truth value of a string: [bool(s)]. *)
Definition truthy (s : string) : bool :=
  match s with EmptyString => false | _ => true end.

Definition LF : ascii := "010"%char.
Definition CR : ascii := "013"%char.
Definition DQUOTE : ascii := "034"%char.

End PyStr.

(* ================================================================== *)
(** * Python [re]: a backtracking matcher

    The matcher explores alternatives in the order of Python's engine:
    the left branch of [|] first, greedy repetition longest first, lazy
    repetition shortest first, and the first complete match wins.
    Capture groups are recorded on the way and undone by backtracking. *)

Module Re.
Import PyStr.

Inductive regex : Type :=
| Eps                                   (* the empty pattern *)
| Chr (p : ascii -> bool)               (* one character of a class *)
| Seq (r1 r2 : regex)                   (* r1 r2 *)
| Alt (r1 r2 : regex)                   (* r1 | r2 *)
| Star (greedy : bool) (r : regex)      (* r* and r*? *)
| Group (n : nat) (r : regex)           (* the n-th ( ... ) *)
| Look (r : regex)                      (* (?= ... ) *)
| Bol                                   (* ^ *)
| Eol.                                  (* $ *)

(** Position of the matcher in the subject string. *)
Record mstate : Type := MState {
  pos : nat;                    (* characters before the position *)
  rest : string;                (* the subject from the position on *)
  caps : list (nat * string)    (* captures, most recent first *)
}.

(** [$] without MULTILINE: at the end, or before a final newline. *)
Definition at_eol (s : string) : bool :=
  match s with
  | EmptyString => true
  | String c EmptyString => Ascii.eqb c LF
  | _ => false
  end.

(** The text between two positions of one subject. *)
Definition between (s s' : mstate) : string :=
  substring 0 (pos s' - pos s) (rest s).

Definition set_cap (n : nat) (s s' : mstate) : mstate :=
  MState (pos s') (rest s') ((n, between s s') :: caps s').

Definition orelse {A} (x : option A) (y : unit -> option A) : option A :=
  match x with Some _ => x | None => y tt end.

(** The loop of a repetition around a matcher [body] for one round: a
    round that consumes nothing ends the loop, so [fuel], the number of
    characters left at the start, is never used up before the subject is. *)
Fixpoint star_loop (body : (mstate -> option mstate) -> mstate -> option mstate)
  (greedy : bool) (k : mstate -> option mstate) (fuel : nat) (s : mstate)
  : option mstate :=
  match fuel with
  | O => k s
  | S fuel' =>
      let more (_ : unit) :=
        body (fun s' => if (pos s <? pos s')%nat
                        then star_loop body greedy k fuel' s'
                        else None) s in
      if greedy then orelse (more tt) (fun _ => k s)
      else orelse (k s) more
  end.

(** [run r k s]: match [r] at [s] and hand the state after it to [k];
    when [k] fails, fall back to the next way of matching [r]. *)
Fixpoint run (r : regex) (k : mstate -> option mstate) (s : mstate)
  : option mstate :=
  match r with
  | Eps => k s
  | Chr p =>
      match rest s with
      | String c t => if p c then k (MState (S (pos s)) t (caps s)) else None
      | EmptyString => None
      end
  | Seq r1 r2 => run r1 (run r2 k) s
  | Alt r1 r2 => orelse (run r1 k s) (fun _ => run r2 k s)
  | Star greedy r1 => star_loop (run r1) greedy k (String.length (rest s)) s
  | Group n r1 => run r1 (fun s' => k (set_cap n s s')) s
  | Look r1 =>
      match run r1 Some s with
      | Some s' => k (MState (pos s) (rest s) (caps s'))
      | None => None
      end
  | Bol => if (pos s =? 0)%nat then k s else None
  | Eol => if at_eol (rest s) then k s else None
  end.

(** ** Derived forms *)

Definition plus (greedy : bool) (r : regex) : regex := Seq r (Star greedy r).
Definition opt (r : regex) : regex := Alt r Eps.

(** [r{n,}] *)
Fixpoint at_least (n : nat) (r : regex) : regex :=
  match n with
  | O => Star true r
  | S n' => Seq r (at_least n' r)
  end.

Definition chr (c : ascii) : regex := Chr (Ascii.eqb c).

(** One literal character under IGNORECASE. *)
Definition chr_i (c : ascii) : regex :=
  Chr (fun x => Ascii.eqb (upper_char x) (upper_char c)).

(** A literal string; what [re.escape] of it compiles to. *)
Fixpoint lit (s : string) : regex :=
  match s with
  | EmptyString => Eps
  | String c t => Seq (chr c) (lit t)
  end.

Fixpoint lit_i (s : string) : regex :=
  match s with
  | EmptyString => Eps
  | String c t => Seq (chr_i c) (lit_i t)
  end.

Definition digit : regex := Chr is_digit.                        (* \d *)
Definition space : regex := Chr is_space.                        (* \s *)
Definition dot : regex := Chr (fun c => negb (Ascii.eqb c LF)).  (* . *)

(** ** Match objects *)

Record match_obj : Type := Match {
  m_start : nat;
  m_end : nat;
  m_caps : list (nat * string)
}.

Fixpoint lookup (n : nat) (l : list (nat * string)) : option string :=
  match l with
  | [] => None
  | (i, v) :: l' => if (i =? n)%nat then Some v else lookup n l'
  end.

(** [m.group(n)]; a group that took no part in the match reads as the
    empty string here (the patterns below have no such group). *)
Definition group (m : match_obj) (n : nat) : string :=
  match lookup n (m_caps m) with Some v => v | None => EmptyString end.

Definition match_at (r : regex) (i : nat) (s : string) : option match_obj :=
  match run r Some (MState i s []) with
  | Some e => Some (Match i (pos e) (caps e))
  | None => None
  end.

(** [re.search]: the match at the leftmost position that has one. *)
Fixpoint search_from (r : regex) (i : nat) (s : string) : option match_obj :=
  match match_at r i s with
  | Some m => Some m
  | None =>
      match s with
      | String _ t => search_from r (S i) t
      | EmptyString => None
      end
  end.

Definition search (r : regex) (s : string) : option match_obj :=
  search_from r 0 s.

(** [re.sub(r, repl, s)] for a literal replacement: matches are taken left
    to right without overlap; [skip] counts the characters of the current
    match still to be dropped. *)
Fixpoint sub_from (r : regex) (repl : string) (skip i : nat) (s : string)
  : string :=
  match skip with
  | S skip' =>
      match s with
      | String _ t => sub_from r repl skip' (S i) t
      | EmptyString => EmptyString
      end
  | O =>
      match match_at r i s, s with
      | Some m, String c t =>
          match m_end m - i with
          | O => repl ++ String c (sub_from r repl 0 (S i) t)
          | S n => repl ++ sub_from r repl n (S i) t
          end
      | Some m, EmptyString => repl
      | None, String c t => String c (sub_from r repl 0 (S i) t)
      | None, EmptyString => EmptyString
      end
  end.

Definition sub (r : regex) (repl s : string) : string := sub_from r repl 0 0 s.

Declare Scope re_scope.
Delimit Scope re_scope with re.
Bind Scope re_scope with regex.
Infix ";;" := Seq (at level 61, right associativity) : re_scope.

End Re.

(* ================================================================== *)
(** * Exceptions *)

Inductive exn : Type := ValueError | ZeroDivisionError | OverflowError.

Inductive result (A : Type) : Type :=
| Ok (a : A)
| Raise (e : exn).

Arguments Ok {A} a.
Arguments Raise {A} e.

Definition bind {A B} (x : result A) (f : A -> result B) : result B :=
  match x with
  | Ok a => f a
  | Raise e => Raise e
  end.

Notation "'let*' x ':=' c 'in' k" := (bind c (fun x => k))
  (at level 10, x pattern, c at level 100, k at level 200).

(* ================================================================== *)
(** * Python [int] and [float] *)

Module PyNum.
Import PyStr.
Local Open Scope Z_scope.

(** ** Decimal numerals *)

Definition digit_val (c : ascii) : Z := Z.of_nat (code c) - 48.

Definition digit_chr (d : Z) : ascii := ascii_of_nat (Z.to_nat (d + 48)).

Definition all_digits (s : string) : bool := all_of is_digit s.

Fixpoint digits_val (acc : Z) (s : string) : Z :=
  match s with
  | EmptyString => acc
  | String c t => digits_val (10 * acc + digit_val c) t
  end.

Fixpoint digits_of (fuel : nat) (n : Z) (acc : string) : string :=
  match fuel with
  | O => acc
  | S fuel' =>
      let acc' := String (digit_chr (n mod 10)) acc in
      if n <? 10 then acc' else digits_of fuel' (n / 10) acc'
  end.

(** The decimal numeral of a natural number, without leading zeros. *)
Definition numeral (n : Z) : string :=
  digits_of (S (Z.to_nat (Z.log2 n))) n EmptyString.

(** The text [str(n)] gives for an [int]; that [str] refuses a number
    beyond the limit on conversions is added by [str_checked] below. *)
Definition str_int (n : Z) : string :=
  if n <? 0 then String "-" (numeral (- n)) else numeral n.

(** [int(s)] on the strings a group [(\d+)] can capture: a non-empty run
    of digits.  Any other text over digits and punctuation is refused.
    That [int] also refuses a run beyond the limit on conversions is added
    by [int_checked] below, which the extractor calls. *)
Definition int (s : string) : result Z :=
  match s with
  | EmptyString => Raise ValueError
  | _ => if all_digits s then Ok (digits_val 0 s) else Raise ValueError
  end.

(** ** binary64 *)

Definition prec : Z := 53.
Definition emax : Z := 1024.

Definition float : Type := spec_float.

Definition fzero : float := S754_zero false.

(** The binary64 value nearest to n/d, ties to even. *)
Definition of_ratio (n d : positive) : float :=
  SFdiv prec emax (S754_finite false n 0) (S754_finite false d 0).

(** The binary64 value nearest to c * 10^q, for c >= 0. *)
Definition of_decimal (c q : Z) : float :=
  match c with
  | Zpos p =>
      if 0 <=? q then of_ratio (p * Z.to_pos (10 ^ q)) 1
      else of_ratio p (Z.to_pos (10 ^ (- q)))
  | _ => fzero
  end.

(** [float(n)] for an [int] within range. *)
Definition of_Z (n : Z) : float := binary_normalize prec emax n 0 false.

Definition fadd : float -> float -> float := SFadd prec emax.
Definition fmul : float -> float -> float := SFmul prec emax.

(** [a / b] on two [int]s: the quotient correctly rounded. *)
Definition truediv (a b : Z) : result float :=
  match a, b with
  | _, Z0 => Raise ZeroDivisionError
  | Z0, Zpos _ => Ok (S754_zero false)
  | Z0, Zneg _ => Ok (S754_zero true)
  | Zpos n, Zpos d | Zneg n, Zneg d =>
      match of_ratio n d with
      | S754_infinity _ => Raise OverflowError
      | q => Ok q
      end
  | Zpos n, Zneg d | Zneg n, Zpos d =>
      match of_ratio n d with
      | S754_infinity _ => Raise OverflowError
      | q => Ok (SFopp q)
      end
  end.

(** [bool(x)]: every float but the zeros is true. *)
Definition truthy (x : float) : bool :=
  match x with S754_zero _ => false | _ => true end.


Definition float_eqb (x y : float) : bool :=
  match x, y with
  | S754_zero a, S754_zero b => Bool.eqb a b
  | S754_infinity a, S754_infinity b => Bool.eqb a b
  | S754_finite a m e, S754_finite b m' e' =>
      Bool.eqb a b && Pos.eqb m m' && (e =? e')
  | _, _ => false
  end.

(** Split a numeral at its first point. *)
Fixpoint split_point (s : string) : string * option string :=
  match s with
  | EmptyString => (EmptyString, None)
  | String c t =>
      if Ascii.eqb c "." then (EmptyString, Some t)
      else let '(i, f) := split_point t in (String c i, f)
  end.

(** [float(s)] on the strings the price groups can hand over: digits with
    at most one point, [5], [5.], [.5] and [5.25] alike; a text without any
    digit ([''] or ['.']) raises ValueError, as does a second point.
    The value is the decimal correctly rounded to binary64, and a numeral
    beyond the range reads as [inf]. *)
Definition float_of_string (s : string) : result float :=
  let '(i, f) := split_point s in
  let f := match f with Some f => f | None => EmptyString end in
  if all_digits i && all_digits f
     && negb (String.eqb (i ++ f) EmptyString)
  then Ok (of_decimal (digits_val 0 (i ++ f))
                      (- Z.of_nat (String.length f)))
  else Raise ValueError.

(** ** Formatting *)

(** A positive finite value m * 2^e as a fraction. *)
Definition fraction (m : positive) (e : Z) : Z * Z :=
  if 0 <=? e then (Zpos m * 2 ^ e, 1) else (Zpos m, 2 ^ (- e)).

(** n / d divided by 10^q, as a fraction. *)
Definition scale10 (q : Z) (nd : Z * Z) : Z * Z :=
  let '(n, d) := nd in
  if 0 <=? q then (n, d * 10 ^ q) else (n * 10 ^ (- q), d).

(** Round a non-negative fraction to the nearest integer, ties to even. *)
Definition round_even (nd : Z * Z) : Z :=
  let '(n, d) := nd in
  let q := n / d in
  let r := n mod d in
  match 2 * r ?= d with
  | Lt => q
  | Gt => q + 1
  | Eq => if Z.even q then q else q + 1
  end.

Fixpoint zeros (n : nat) : string :=
  match n with
  | O => EmptyString
  | S n' => String "0" (zeros n')
  end.

(** Left-pad a numeral with zeros to a width. *)
Definition zfill (w : nat) (s : string) : string :=
  zeros (w - String.length s) ++ s.

Definition signed (s : bool) (body : string) : string :=
  if s then String "-" body else body.

(** The digits of a non-negative integer of tenths, hundredths, ...
    with the point put before the last [d] digits. *)
Definition fixed_point (d : nat) (t : Z) : string :=
  let s := zfill (S d) (numeral t) in
  let w := (String.length s - d)%nat in
  substring 0 w s ++ String "." (substring w d s).

(** [format(x, '.df')] for d >= 1: the exact value rounded to d decimals,
    ties to even. *)
Definition format_f (d : nat) (x : float) : string :=
  match x with
  | S754_nan => "nan"
  | S754_infinity s => signed s "inf"
  | S754_zero s => signed s (fixed_point d 0)
  | S754_finite s m e =>
      signed s (fixed_point d
        (round_even (scale10 (- Z.of_nat d) (fraction m e))))
  end.

(** ** [repr]: the shortest numeral that reads back as the same float *)

(** 10^p <= n/d *)
Definition le_pow10 (p : Z) (nd : Z * Z) : bool :=
  let '(n, d) := scale10 p nd in d <=? n.

(** The largest p with 10^p <= n/d, searched upward from [p]. *)
Fixpoint magnitude10 (fuel : nat) (p : Z) (nd : Z * Z) : Z :=
  match fuel with
  | O => p
  | S fuel' =>
      if le_pow10 (p + 1) nd then magnitude10 fuel' (p + 1) nd else p
  end.

(** With [k] significant digits: the neighbours c and c+1 of x / 10^q,
    nearest first; the first that reads back as [x] is taken, and failing
    both one more digit is tried. [k] counts up to 17, which always
    reads back. *)
Fixpoint shortest (fuel : nat) (k : Z) (p10 : Z) (x : float) (nd : Z * Z)
  : Z * Z :=
  let q := p10 - k + 1 in
  let '(n, d) := scale10 q nd in
  let lo := n / d in
  let r := n mod d in
  let reads c := float_eqb (of_decimal c q) x in
  let '(c1, c2) :=
    match 2 * r ?= d with
    | Lt => (lo, lo + 1)
    | Gt => (lo + 1, lo)
    | Eq => if Z.even lo then (lo, lo + 1) else (lo + 1, lo)
    end in
  match fuel with
  | O => (c1, q)
  | S fuel' =>
      if reads c1 then (c1, q)
      else if (negb (r =? 0)) && reads c2 then (c2, q)
      else shortest fuel' (k + 1) p10 x nd
  end.

(** Drop the zeros at the end of a numeral. *)
Fixpoint rstrip_zeros (s : string) : string :=
  match s with
  | EmptyString => EmptyString
  | String c t =>
      match rstrip_zeros t with
      | EmptyString =>
          if Ascii.eqb c "0" then EmptyString else String c EmptyString
      | t' => String c t'
      end
  end.

(** Lay out the digits [ds] of a value 0.ds * 10^decpt the way [repr]
    does: plain for -4 < decpt <= 16, with an exponent otherwise. *)
Definition layout (ds : string) (decpt : Z) : string :=
  let n := Z.of_nat (String.length ds) in
  if (decpt <=? -4) || (16 <? decpt) then
    let e := decpt - 1 in
    let mant :=
      match ds with
      | String c EmptyString => ds
      | String c t => String c (String "." t)
      | EmptyString => ds
      end in
    mant ++ String "e" (String (if e <? 0 then "-" else "+")
                               (zfill 2 (numeral (Z.abs e))))
  else if decpt <=? 0 then
    "0." ++ zeros (Z.to_nat (- decpt)) ++ ds
  else if n <=? decpt then
    ds ++ zeros (Z.to_nat (decpt - n)) ++ ".0"
  else
    substring 0 (Z.to_nat decpt) ds ++
    String "." (substring (Z.to_nat decpt) (Z.to_nat (n - decpt)) ds).

(** [str(x)] and [repr(x)] for a float. *)
Definition repr (x : float) : string :=
  match x with
  | S754_nan => "nan"
  | S754_infinity s => signed s "inf"
  | S754_zero s => signed s "0.0"
  | S754_finite s m e =>
      let nd := fraction m e in
      let p10 := magnitude10 700 (-324) nd in
      let '(c, q) := shortest 17 1 p10 (S754_finite false m e) nd in
      let ds := numeral c in
      signed s (layout (rstrip_zeros ds) (Z.of_nat (String.length ds) + q))
  end.

(** ** Numbers as [sum] sees them *)

Inductive number : Type :=
| Int (n : Z)
| Float (x : float).

(** [a + b]; the only [int] ever added to a float below is the start
    value 0 of [sum]. *)
Definition add (a b : number) : number :=
  match a, b with
  | Int x, Int y => Int (x + y)
  | Int x, Float y => Float (fadd (of_Z x) y)
  | Float x, Int y => Float (fadd x (of_Z y))
  | Float x, Float y => Float (fadd x y)
  end.

(** The builtin [sum]: left to right, from the integer 0, each partial sum
    rounded (CPython up to 3.11; later versions also carry a correction
    term for the rounding errors of a float sum). *)
Definition sum (l : list number) : number := fold_left add l (Int 0).

End PyNum.

(** ** The limit on conversions between integers and text *)

(** [sys.get_int_max_str_digits()], the default of CPython 3.11. *)
Definition max_str_digits : Z := 4300.

(** [int(s)] as the interpreter runs it: a text of more digits than the
    limit is refused with ValueError, whatever the digits are. *)
Definition int_checked (s : string) : result Z :=
  if (max_str_digits <? Z.of_nat (String.length s))%Z then Raise ValueError
  else PyNum.int s.

(** [str(n)], [repr(n)] and [format(n, ...)] on an [int]: a value of more
    digits than the limit is refused with ValueError. *)
Definition str_checked (n : Z) : result string :=
  if (10 ^ max_str_digits <=? Z.abs n)%Z then Raise ValueError
  else Ok (PyNum.str_int n).

(* ================================================================== *)
(** * [table_parser.py] *)

Import PyStr Re.

(** A row of [table_data]: the dict with its six keys. *)
Record Row : Type := mkRow {
  Product : string;
  Quantity : option Z;
  Unit_Price_USD : option PyNum.float;
  Total_Price_USD : option PyNum.float;
  Source_Line : nat;
  Raw_Text : string
}.

Definition set_Product (row : Row) (v : string) : Row :=
  mkRow v (Quantity row) (Unit_Price_USD row) (Total_Price_USD row)
        (Source_Line row) (Raw_Text row).

Definition set_Quantity (row : Row) (v : Z) : Row :=
  mkRow (Product row) (Some v) (Unit_Price_USD row) (Total_Price_USD row)
        (Source_Line row) (Raw_Text row).

Definition set_Unit_Price_USD (row : Row) (v : PyNum.float) : Row :=
  mkRow (Product row) (Quantity row) (Some v) (Total_Price_USD row)
        (Source_Line row) (Raw_Text row).

Definition set_Total_Price_USD (row : Row) (v : PyNum.float) : Row :=
  mkRow (Product row) (Quantity row) (Unit_Price_USD row) (Some v)
        (Source_Line row) (Raw_Text row).

(** Truth value of a cell that is [''] or an [int], and of one that is
    [''] or a [float]: blank and zero are both false. *)
Definition truthy_int (c : option Z) : bool :=
  match c with
  | Some n => negb (Z.eqb n 0)
  | None => false
  end.

Definition truthy_float (c : option PyNum.float) : bool :=
  match c with
  | Some x => PyNum.truthy x
  | None => false
  end.

(** ** The patterns *)

Section Patterns.
Local Open Scope re_scope.

(** [^(.+?)(?=HSO\s+CHINA)] with IGNORECASE *)
Definition product_pattern : regex :=
  Bol ;; Group 1 (plus false dot) ;;
  Look (lit_i "HSO" ;; plus true space ;; lit_i "CHINA").

(** [\d{8,}] *)
Definition code_pattern : regex := at_least 8 digit.

(** [\s+] *)
Definition spaces_pattern : regex := plus true space.

(** [\d+(?:\.\d+)?], the unit price of every tier *)
Definition decimal : regex :=
  plus true digit ;; opt (chr "." ;; plus true digit).

(** [[\d,]+\.?\d*], the total price of every tier *)
Definition grouped_decimal : regex :=
  plus true (Chr (fun c => is_digit c || Ascii.eqb c ",")) ;;
  opt (chr ".") ;; Star true digit.

(** [(\d+) \s+ (\d+(?:\.\d+)?) \s+ ([\d,]+\.?\d* ) $]
    (the source's pattern, spaced out as under re.VERBOSE) *)
Definition clean_pattern : regex :=
  Group 1 (plus true digit) ;; plus true space ;;
  Group 2 decimal ;; plus true space ;;
  Group 3 grouped_decimal ;; Eol.

(** [(\d+) \s+ (\d+(?:\.\d+)?) \s* : \s* ([\d,]+\.?\d* ) $] *)
Definition colon_pattern : regex :=
  Group 1 (plus true digit) ;; plus true space ;;
  Group 2 decimal ;; Star true space ;; chr ":" ;; Star true space ;;
  Group 3 grouped_decimal ;; Eol.

(** [(\d+(?:\.\d+)?) \s+ ([\d,]+\.?\d* ) $] *)
Definition price_pattern : regex :=
  Group 1 decimal ;; plus true space ;; Group 2 grouped_decimal ;; Eol.

(** [(\d+) (?: \s+ | \s* \. \s* )] followed by
    [re.escape(str(unit_price))] *)
Definition qty_pattern (unit_price : PyNum.float) : regex :=
  Group 1 (plus true digit) ;;
  Alt (plus true space) (Star true space ;; chr "." ;; Star true space) ;;
  lit (PyNum.repr unit_price).
End Patterns.

(** ** [parse_invoice_table] *)

(** Lines 44-51: the product name, everything before the origin marker. *)
Definition extract_product (row : Row) (line : string) : Row :=
  match search product_pattern line with
  | Some product_match =>
      let product_name := strip (group product_match 1) in
      let product_clean := strip (sub code_pattern "" product_name) in
      let product_clean := strip (sub spaces_pattern " " product_clean) in
      set_Product row product_clean
  | None => row
  end.

(** Lines 61-63 and 69-71: the three groups of a full match. *)
Definition fill_triple (row : Row) (m : match_obj) : result Row :=
  let* q := int_checked (group m 1) in
  let row := set_Quantity row q in
  let* u := PyNum.float_of_string (group m 2) in
  let row := set_Unit_Price_USD row u in
  let* t := PyNum.float_of_string (replace "," "" (group m 3)) in
  Ok (set_Total_Price_USD row t).

(** Lines 77-78: the two groups of a price-only match. *)
Definition fill_prices (row : Row) (m : match_obj) : result Row :=
  let* u := PyNum.float_of_string (group m 1) in
  let row := set_Unit_Price_USD row u in
  let* t := PyNum.float_of_string (replace "," "" (group m 2)) in
  Ok (set_Total_Price_USD row t).

(** Lines 57-79: the cascade of patterns at the end of the line. *)
Definition extract_numbers (row : Row) (line : string) : result Row :=
  match search clean_pattern line with
  | Some m => fill_triple row m
  | None =>
      match search colon_pattern line with
      | Some m => fill_triple row m
      | None =>
          match search price_pattern line with
          | Some m => fill_prices row m
          | None => Ok row
          end
      end
  end.

(** Lines 81-91: the second look for a quantity. *)
Definition recover_quantity (row : Row) (line : string) : result Row :=
  if truthy_float (Unit_Price_USD row) && truthy_float (Total_Price_USD row)
     && negb (truthy_int (Quantity row))
  then
    match Unit_Price_USD row with
    | Some unit_price =>
        match search (qty_pattern unit_price) line with
        | Some qty_match =>
            match int_checked (group qty_match 1) with
            | Ok q => Ok (set_Quantity row q)
            | Raise ValueError => Ok row
            | Raise e => Raise e
            end
        | None => Ok row
        end
    | None => Ok row
    end
  else Ok row.

(** The body of the loop for one line; [None] when nothing is appended. *)
Definition parse_line (line_num : nat) (line : string) : result (option Row) :=
  let line := strip line in
  if negb (truthy line) then Ok None
  else if negb (contains "HSO CHINA" (upper line))
          && negb (contains "CHINA" (upper line))
  then Ok None
  else
    let row := mkRow "" None None None line_num line in
    let row := extract_product row line in
    let* row := extract_numbers row line in
    let* row := recover_quantity row line in
    if truthy (Product row) && (2 <? String.length (Product row))%nat
    then Ok (Some row)
    else Ok None.

(** [for line_num, line in enumerate(lines, 1)] *)
Fixpoint scan (line_num : nat) (lines : list string) (table_data : list Row)
  : result (list Row) :=
  match lines with
  | [] => Ok table_data
  | line :: lines' =>
      let* r := parse_line line_num line in
      match r with
      | Some row => scan (S line_num) lines' (table_data ++ [row])
      | None => scan (S line_num) lines' table_data
      end
  end.

Definition parse_invoice_table (text : string) : result (list Row) :=
  let lines := split LF (strip text) in
  scan 1 lines [].

Definition parse_apple_invoice_table (text : string) : result (list Row) :=
  parse_invoice_table text.

(** ** [save_to_csv] *)

Module Csv.

(** The dialect of [csv.DictWriter(..., quoting=csv.QUOTE_MINIMAL)]:
    comma, double quote, doubled quotes inside a quoted field, CR LF. *)
Definition special (c : ascii) : bool :=
  Ascii.eqb c "," || Ascii.eqb c DQUOTE || Ascii.eqb c CR || Ascii.eqb c LF.

Fixpoint needs_quotes (s : string) : bool :=
  match s with
  | EmptyString => false
  | String c t => special c || needs_quotes t
  end.

Fixpoint double_quotes (s : string) : string :=
  match s with
  | EmptyString => EmptyString
  | String c t =>
      if Ascii.eqb c DQUOTE then String c (String c (double_quotes t))
      else String c (double_quotes t)
  end.

Definition field (s : string) : string :=
  if needs_quotes s
  then String DQUOTE (double_quotes s ++ String DQUOTE EmptyString)
  else s.

(** [writer.writerow] on a record of several cells. *)
Definition writerow (cells : list string) : string :=
  String.concat "," (map field cells) ++ String CR (String LF EmptyString).

End Csv.

Definition fieldnames : list string :=
  ["Product"; "Quantity"; "Unit_Price_USD"; "Total_Price_USD";
   "Source_Line"; "Raw_Text"].

(** Lines 125-133: the quantity as an integer, or blank. *)
Definition csv_quantity (qty : option Z) : string :=
  match qty with
  | Some n => PyNum.str_int n
  | None => ""
  end.

(** Lines 135-153: a price with two decimals, or blank. *)
Definition csv_price (price : option PyNum.float) : string :=
  match price with
  | Some x => PyNum.format_f 2 x
  | None => ""
  end.

(** Lines 119-159: the cells of one row, in the order of [fieldnames]. *)
Definition csv_row (row : Row) : list string :=
  [ strip (Product row);
    csv_quantity (Quantity row);
    csv_price (Unit_Price_USD row);
    csv_price (Total_Price_USD row);
    PyNum.str_int (Z.of_nat (Source_Line row));
    strip (Raw_Text row) ].

(** The file [csv_path] after the call: [None] when the call returns
    without opening it, [Some text] when it has written [text].  That
    [open] may refuse the path is added by [save_to_csv_in] below. *)
Definition save_to_csv (table_data : list Row) : option string :=
  match table_data with
  | [] => None
  | _ =>
      Some (Csv.writerow fieldnames ++
            String.concat "" (map (fun row => Csv.writerow (csv_row row))
                                  table_data))%string
  end.

(** ** [analyze_table] *)

Definition is_filled {A} (c : option A) : bool :=
  match c with Some _ => true | None => false end.

(** [sum(1 for row in table_data if cond(row))] *)
Definition count (cond : Row -> bool) (table_data : list Row) : Z :=
  Z.of_nat (List.length (filter cond table_data)).

(** The values of a numeric column in the rows where it holds a number. *)
Fixpoint numbers {A} (col : Row -> option A) (inj : A -> PyNum.number)
  (table_data : list Row) : list PyNum.number :=
  match table_data with
  | [] => []
  | row :: rows =>
      match col row with
      | Some v => inj v :: numbers col inj rows
      | None => numbers col inj rows
      end
  end.

Record Analysis : Type := mkAnalysis {
  total_rows : Z;
  products : string;
  quantities : string;
  unit_prices : string;
  total_prices : string;
  total_quantity : PyNum.number;
  total_value : PyNum.number;
  completion_rate : string
}.

Inductive report : Type :=
| NoTable                       (* {'status': 'No table data found'} *)
| Table (a : Analysis).         (* 'status': 'Table data found', ... *)

Definition status (r : report) : string :=
  match r with
  | NoTable => "No table data found"
  | Table _ => "Table data found"
  end.

Definition ratio (filled total : Z) : string :=
  PyNum.str_int filled ++ "/" ++ PyNum.str_int total.

Definition analyze_table (table_data : list Row) : result report :=
  match table_data with
  | [] => Ok NoTable
  | _ =>
      let total_rows := Z.of_nat (List.length table_data) in
      let products_filled := count (fun row => truthy (Product row)) table_data in
      let quantities_filled := count (fun row => is_filled (Quantity row)) table_data in
      let unit_prices_filled :=
        count (fun row => is_filled (Unit_Price_USD row)) table_data in
      let total_prices_filled :=
        count (fun row => is_filled (Total_Price_USD row)) table_data in
      let total_quantity := PyNum.sum (numbers Quantity PyNum.Int table_data) in
      let total_value :=
        PyNum.sum (numbers Total_Price_USD PyNum.Float table_data) in
      let* share :=
        PyNum.truediv
          (quantities_filled + unit_prices_filled + total_prices_filled)
          (total_rows * 3) in
      Ok (Table
            (mkAnalysis total_rows
               (ratio products_filled total_rows)
               (ratio quantities_filled total_rows)
               (ratio unit_prices_filled total_rows)
               (ratio total_prices_filled total_rows)
               total_quantity total_value
               (PyNum.format_f 1 (PyNum.fmul share (PyNum.of_Z 100)) ++ "%")))
  end.


(* ================================================================== *)
(** * [pdf_text_extractor.py]: the callers of the table parser *)

(** A record handed to the logger. *)
Inductive log_record : Type :=
| LogInfo (msg : string)
| LogWarning (msg : string).

(** What comes out of a call that writes a file: an exception of the
    modelled code, or the OSError with which [open] refuses a path (no
    such directory, no permission, a directory of that name, ...). *)
Inductive failure : Type :=
| Exn (e : exn)
| OSError.

Inductive outcome (A : Type) : Type :=
| Done (a : A)
| Failed (f : failure).

Arguments Done {A} a.
Arguments Failed {A} f.

(** The file system, as far as the callers meet it: what
    [open(path, 'w', ...)] raises on each path, [None] where it opens the
    file.  Besides OSError this can be ValueError, on a path with a NUL
    character. *)
Definition file_system : Type := string -> option failure.

(** [save_to_csv(table_data, csv_path)] in a file system: the file after
    the call, [None] when it was never opened.  The guard of lines 108-109
    comes before [open] at line 114, which stands outside any [try]: an
    empty table never touches the file, and with rows what [open] raises
    comes out of the call.  The rows are those of the extractor, whose
    quantities the writer always converts ([parsed_quantities_in_range]). *)
Definition save_to_csv_in (fs : file_system) (table_data : list Row)
    (csv_path : string) : outcome (option string) :=
  match table_data with
  | [] => Done None
  | _ :: _ =>
      match fs csv_path with
      | Some f => Failed f
      | None => Done (save_to_csv table_data)
      end
  end.

(** [PDFTextExtractor.extract_tables_to_csv], from the text that
    [extract_text_from_pdf] has returned: the file [csv_path] after the
    call ([None] when it was never opened) and the record logged. *)
Definition extract_tables_to_csv (fs : file_system) (text csv_path : string)
  : outcome (option string * log_record) :=
  match parse_apple_invoice_table text with
  | Raise e => Failed (Exn e)
  | Ok table_data =>
      match table_data with
      | _ :: _ =>
          match save_to_csv_in fs table_data csv_path with
          | Failed f => Failed f
          | Done file =>
              Done (file, LogInfo ("Table data saved to CSV: " ++ csv_path))
          end
      | [] => Done (None, LogWarning "No table data found in PDF")
      end
  end.

(** [PDFTextExtractor.analyze_table_structure], from the same text. *)
Definition analyze_table_structure (text : string) : result report :=
  let* table_data := parse_apple_invoice_table text in
  match table_data with
  | [] => Ok NoTable
  | _ :: _ => analyze_table table_data
  end.


(* ================================================================== *)
(** * Python [format] and [repr], as the callers use them *)

(** The length of the longest prefix of [s] in the class [p]. *)
Fixpoint span (p : ascii -> bool) (s : string) : nat :=
  match s with
  | String c t => if p c then S (span p t) else 0
  | EmptyString => 0
  end.

(** What is left of [s] after that prefix. *)
Fixpoint after (p : ascii -> bool) (s : string) : string :=
  match s with
  | String c t => if p c then after p t else s
  | EmptyString => EmptyString
  end.

Module PyFormat.

Fixpoint spaces (n : nat) : string :=
  match n with
  | O => EmptyString
  | S n' => String " " (spaces n')
  end.

(** A width in a format specification: strings are padded on the right,
    numbers on the left; nothing is cut. *)
Definition ljust (w : nat) (s : string) : string :=
  (s ++ spaces (w - String.length s))%string.

Definition rjust (w : nat) (s : string) : string :=
  (spaces (w - String.length s) ++ s)%string.

(** Commas between groups of three digits, counted from the right. *)
Fixpoint group_digits (first : bool) (s : string) : string :=
  match s with
  | EmptyString => EmptyString
  | String c t =>
      let sep :=
        if negb first && (Nat.modulo (S (String.length t)) 3 =? 0)%nat
        then "," else "" in
      (sep ++ String c (group_digits false t))%string
  end.

(** The [,] option of a format specification: the digits before the
    point are grouped, a sign and what follows the digits are kept. *)
Definition grouped (s : string) : string :=
  let body (t : string) :=
    (group_digits true (substring 0 (span is_digit t) t)
     ++ after is_digit t)%string in
  match s with
  | String "-" t => String "-" (body t)
  | _ => body s
  end.

(** [format(n, 'wd')] for a count of rows or lines, which always
    converts. *)
Definition fmt_d (w : nat) (n : Z) : string := rjust w (PyNum.str_int n).

(** [format(n, 'wd')] for any [int]: beyond the limit on conversions it
    raises ValueError. *)
Definition fmt_int (w : nat) (n : Z) : result string :=
  let* s := str_checked n in Ok (rjust w s).

(** [format(x, 'w.df')] and [format(x, 'w,.df')] for a float. *)
Definition fmt_f (w d : nat) (x : PyNum.float) : string :=
  rjust w (PyNum.format_f d x).

Definition fmt_cf (w d : nat) (x : PyNum.float) : string :=
  rjust w (grouped (PyNum.format_f d x)).

(** [float(n)] for an [int]: beyond the range it raises OverflowError. *)
Definition float_of_int (n : Z) : result PyNum.float :=
  match PyNum.of_Z n with
  | S754_infinity _ => Raise OverflowError
  | x => Ok x
  end.

(** [format(v, ',')] and [format(v, ',.2f')] for an [int] or a float.
    With [,] alone an [int] is converted to its digits, which raises
    ValueError beyond the limit on conversions; formatted with [f] it is
    converted to a float first. *)
Definition fmt_c (v : PyNum.number) : result string :=
  match v with
  | PyNum.Int n => let* s := str_checked n in Ok (grouped s)
  | PyNum.Float x => Ok (grouped (PyNum.repr x))
  end.

Definition fmt_c2f (v : PyNum.number) : result string :=
  match v with
  | PyNum.Int n => let* x := float_of_int n in Ok (fmt_cf 0 2 x)
  | PyNum.Float x => Ok (fmt_cf 0 2 x)
  end.

(** [str(v)] and [repr(v)] for an [int] or a float: an [int] beyond the
    limit on conversions raises ValueError. *)
Definition str_number (v : PyNum.number) : result string :=
  match v with
  | PyNum.Int n => str_checked n
  | PyNum.Float x => Ok (PyNum.repr x)
  end.

Definition hex_digit (n : nat) : ascii :=
  if (n <? 10)%nat then ascii_of_nat (48 + n) else ascii_of_nat (87 + n).

Definition APOSTROPHE : ascii := "039"%char.
Definition BACKSLASH : ascii := "092"%char.
Definition TAB : ascii := "009"%char.

(** One character inside the quotes of [repr(s)]. *)
Definition repr_char (quote c : ascii) : string :=
  if Ascii.eqb c BACKSLASH then String BACKSLASH (String BACKSLASH "")
  else if Ascii.eqb c quote then String BACKSLASH (String c "")
  else if Ascii.eqb c LF then String BACKSLASH "n"
  else if Ascii.eqb c CR then String BACKSLASH "r"
  else if Ascii.eqb c TAB then String BACKSLASH "t"
  else if (code c <? 32)%nat || (code c =? 127)%nat
  then String BACKSLASH
         (String "x" (String (hex_digit (code c / 16))
                             (String (hex_digit (Nat.modulo (code c) 16)) "")))
  else String c "".

Fixpoint repr_chars (quote : ascii) (s : string) : string :=
  match s with
  | EmptyString => EmptyString
  | String c t => (repr_char quote c ++ repr_chars quote t)%string
  end.

(** [repr(s)] for a string: single quotes, unless the string has one and
    has no double quote. *)
Definition repr_str (s : string) : string :=
  let quote :=
    if contains (String APOSTROPHE "") s && negb (contains (String DQUOTE "") s)
    then DQUOTE else APOSTROPHE in
  String quote (repr_chars quote s ++ String quote "").

End PyFormat.

(* ================================================================== *)
(** * The scripts and the command line *)

(** The two scripts read [extracted_text.txt] and write a CSV file of a
    fixed name, both in their working directory; a run is modelled from
    the text read, in a directory where the script creates its file.  The
    command [main] writes to a path of the caller's, which [open] may
    refuse. *)

(** How a run ends: at the end of the script, or on an exception that
    nothing catches. *)
Inductive ending : Type :=
| Finished
| Uncaught (e : exn)
| UncaughtKeyError (key : string).

(** What a run of a script leaves: the text printed, the CSV file it
    names ([None] when it was never opened), and how it ended. *)
Record script_run : Type := mkRun {
  stdout : string;
  csv_file : option string;
  run_end : ending
}.

(** [print(s)] *)
Definition print (out s : string) : string := (out ++ s ++ String LF "")%string.

(** ** [test_parser.py], from the text read from [extracted_text.txt] *)

(** Lines 12-14: the items of the analysis, each as [key: value], up to
    the first that fails.  The two inner dicts are printed by [str], which
    takes the [repr] of their values: the totals are converted when their
    line is built, after the three lines before it are out. *)
Definition print_items (out : string) (analysis : report)
  : string * option exn :=
  match analysis with
  | NoTable => (print out "status: No table data found", None)
  | Table a =>
      let out := print out "status: Table data found" in
      let out := print out ("total_rows: " ++ PyNum.str_int (total_rows a)) in
      let out :=
        print out
          ("fields_filled: {'products': " ++ PyFormat.repr_str (products a)
           ++ ", 'quantities': " ++ PyFormat.repr_str (quantities a)
           ++ ", 'unit_prices': " ++ PyFormat.repr_str (unit_prices a)
           ++ ", 'total_prices': " ++ PyFormat.repr_str (total_prices a)
           ++ "}") in
      let totals :=
        let* quantity := PyFormat.str_number (total_quantity a) in
        let* value := PyFormat.str_number (total_value a) in
        Ok ("calculated_totals: {'total_quantity': " ++ quantity
            ++ ", 'total_value': " ++ value ++ "}")%string in
      match totals with
      | Raise e => (out, Some e)
      | Ok line =>
          let out := print out line in
          (print out ("completion_rate: " ++ completion_rate a), None)
      end
  end.

(** Line 22: the line of one row; a blank cell is a string, which the
    codes [d] and [f] refuse. *)
Definition parser_line (i : nat) (row : Row) : result string :=
  let* qty :=
    match Quantity row with
    | Some n => PyFormat.fmt_int 4 n
    | None => Raise ValueError
    end in
  let* unit_price :=
    match Unit_Price_USD row with
    | Some x => Ok (PyFormat.fmt_f 6 2 x)
    | None => Raise ValueError
    end in
  let* total_price :=
    match Total_Price_USD row with
    | Some x => Ok (PyFormat.fmt_cf 9 2 x)
    | None => Raise ValueError
    end in
  Ok (PyFormat.fmt_d 2 (Z.of_nat i) ++ ". "
      ++ PyFormat.ljust 30 (Product row) ++ " | Qty: " ++ qty
      ++ " | Price: $" ++ unit_price ++ " | Total: $" ++ total_price)%string.

(** Lines 17-22: the loop over the rows, up to the first line that fails. *)
Fixpoint parser_lines (i : nat) (rows : list Row) (out : string)
  : string * option exn :=
  match rows with
  | [] => (out, None)
  | row :: rows' =>
      match parser_line i row with
      | Ok line => parser_lines (S i) rows' (print out line)
      | Raise e => (out, Some e)
      end
  end.

Definition test_parser (text : string) : script_run :=
  match parse_invoice_table text with
  | Raise e => mkRun "" None (Uncaught e)
  | Ok table_data =>
      let out := print "" "Analysis:" in
      match analyze_table table_data with
      | Raise e => mkRun out None (Uncaught e)
      | Ok analysis =>
          match print_items out analysis with
          | (out, Some e) => mkRun out None (Uncaught e)
          | (out, None) =>
              let n := PyNum.str_int (Z.of_nat (List.length table_data)) in
              let out :=
                print out (String LF "All " ++ n ++ " products found:") in
              match parser_lines 1 table_data out with
              | (out, Some e) => mkRun out None (Uncaught e)
              | (out, None) =>
                  mkRun (print out (String LF "Saved " ++ n
                                    ++ " rows to complete_invoice_table.csv"))
                        (save_to_csv table_data) Finished
              end
          end
      end
  end.

(** ** [test_final.py], from the same text *)

(** Lines 21-25: the line of one row, with BLANK for a blank cell. *)
Definition final_line (i : nat) (row : Row) : string :=
  let qty :=
    match Quantity row with
    | Some n => PyNum.str_int n
    | None => "BLANK"
    end in
  let unit_price :=
    match Unit_Price_USD row with
    | Some x => ("$" ++ PyNum.format_f 2 x)%string
    | None => "BLANK"
    end in
  let total_price :=
    match Total_Price_USD row with
    | Some x => ("$" ++ PyFormat.grouped (PyNum.format_f 2 x))%string
    | None => "BLANK"
    end in
  (PyFormat.fmt_d 2 (Z.of_nat i) ++ ". "
   ++ PyFormat.ljust 35 (Product row) ++ " | Qty: " ++ PyFormat.ljust 10 qty
   ++ " | Unit: " ++ PyFormat.ljust 8 unit_price
   ++ " | Total: " ++ PyFormat.ljust 12 total_price)%string.

Fixpoint final_lines (i : nat) (rows : list Row) (out : string) : string :=
  match rows with
  | [] => out
  | row :: rows' => final_lines (S i) rows' (print out (final_line i row))
  end.

Definition test_final (text : string) : script_run :=
  match parse_invoice_table text with
  | Raise e => mkRun "" None (Uncaught e)
  | Ok table_data =>
      let out := print "" "Final Analysis:" in
      match analyze_table table_data with
      | Raise e => mkRun out None (Uncaught e)
      | Ok NoTable =>
          mkRun (print out "Status: No table data found") None
                (UncaughtKeyError "total_rows")
      | Ok (Table a) =>
          let out := print out "Status: Table data found" in
          let out := print out ("Total rows: " ++ PyNum.str_int (total_rows a)) in
          let out := print out "Data completion:" in
          let out := print out ("  products: " ++ products a) in
          let out := print out ("  quantities: " ++ quantities a) in
          let out := print out ("  unit_prices: " ++ unit_prices a) in
          let out := print out ("  total_prices: " ++ total_prices a) in
          let out :=
            print out ("Overall completion rate: " ++ completion_rate a) in
          let n := PyNum.str_int (Z.of_nat (List.length table_data)) in
          let out :=
            print out (String LF "All " ++ n ++ " products found:") in
          let out := final_lines 1 table_data out in
          let file := save_to_csv table_data in
          let out :=
            print out (String LF "Saved " ++ n
                       ++ " rows to final_invoice_table.csv") in
          mkRun (print out
                   "Empty cells can be filled manually in Excel/Google Sheets")
                file Finished
      end
  end.

(** ** [main]: the branches [--analyze] and [--csv] *)

(** A line of the command's output; the line of the handler at the end of
    [main], [Error: ] followed by the message of the exception, is kept as
    the exception.  The handler catches [Exception], of which ValueError,
    OverflowError and OSError are subclasses. *)
Inductive output : Type :=
| Line (s : string)
| ErrorLine (f : failure).

(** What a run of the command leaves: the records logged, the lines
    printed, the CSV file and the exit status. *)
Record command_run : Type := mkCommand {
  logged : list log_record;
  printed : list output;
  written : option string;
  exit_status : Z
}.

(** Lines 323-338: the branch [--analyze]; the old-format fallback of
    lines 339-346 is never reached on a report of [analyze_table].  A line
    is printed once its text is built, so the lines before a conversion
    that fails are out when the handler prints its own. *)
Definition main_analyze (text : string) : command_run :=
  match analyze_table_structure text with
  | Raise e => mkCommand [] [ ErrorLine (Exn e) ] None 1
  | Ok NoTable =>
      mkCommand []
        [ Line "Table Analysis:"; Line "Status: No table data found" ] None 0
  | Ok (Table a) =>
      let lines :=
        [ Line "Table Analysis:";
          Line "Status: Table data found";
          Line ("Total rows: " ++ PyNum.str_int (total_rows a));
          Line "Data completion:";
          Line ("  products: " ++ products a);
          Line ("  quantities: " ++ quantities a);
          Line ("  unit_prices: " ++ unit_prices a);
          Line ("  total_prices: " ++ total_prices a);
          Line ("Overall completion rate: " ++ completion_rate a);
          Line "Calculated totals (from filled fields only):" ] in
      match PyFormat.fmt_c (total_quantity a) with
      | Raise e => mkCommand [] (lines ++ [ ErrorLine (Exn e) ]) None 1
      | Ok quantity =>
          let lines := lines ++ [ Line ("  Total quantity: " ++ quantity) ] in
          match PyFormat.fmt_c2f (total_value a) with
          | Ok value =>
              mkCommand [] (lines ++ [ Line ("  Total value: $" ++ value) ])
                        None 0
          | Raise e => mkCommand [] (lines ++ [ ErrorLine (Exn e) ]) None 1
          end
      end
  end.

(** Lines 348-359: the branch [--csv], with the path chosen at lines
    350-355. *)
Definition main_csv (fs : file_system) (text csv_path : string)
  : command_run :=
  match extract_tables_to_csv fs text csv_path with
  | Failed f => mkCommand [] [ ErrorLine f ] None 1
  | Done (file, log) =>
      mkCommand [ log ]
        [ Line ("Table data extracted to CSV: " ++ csv_path) ] file 0
  end.

(* ================================================================== *)
(** * The vocabulary of the statements *)

(** ** Rows the extractor emits *)

(** The row a candidate line starts from (lines 35-42). *)
Definition blank_row (line_num : nat) (line : string) : Row :=
  mkRow "" None None None line_num line.

(** The product name the extractor computes for a stripped line. *)
Definition product_of (line : string) : string :=
  Product (extract_product (blank_row 0 line) line).

(** [row] is appended for the line numbered [k]. *)
Definition emits (k : nat) (line : string) (row : Row) : Prop :=
  parse_line k line = Ok (Some row).

(** [row] is one of the rows the extractor returns on some text. *)
Definition emitted (row : Row) : Prop :=
  exists text rows, parse_invoice_table text = Ok rows /\ In row rows.

(** What the cascade and the recovery pass leave untouched. *)
Definition same_text (row row' : Row) : Prop :=
  Product row' = Product row /\ Source_Line row' = Source_Line row /\
  Raw_Text row' = Raw_Text row.

(** The three outcomes of the cascade. *)
Inductive tier_outcome (row row' : Row) : Prop :=
| full_triple q u t :
    Quantity row' = Some q -> Unit_Price_USD row' = Some u ->
    Total_Price_USD row' = Some t -> tier_outcome row row'
| prices_only u t :
    Quantity row' = Quantity row -> Unit_Price_USD row' = Some u ->
    Total_Price_USD row' = Some t -> tier_outcome row row'
| no_match : row' = row -> tier_outcome row row'.

Inductive numeric_field : Type := F_Quantity | F_Unit_Price | F_Total_Price.

Definition filled (f : numeric_field) (row : Row) : bool :=
  match f with
  | F_Quantity => is_filled (Quantity row)
  | F_Unit_Price => is_filled (Unit_Price_USD row)
  | F_Total_Price => is_filled (Total_Price_USD row)
  end.

(** Field independence as the specification words it: whichever two
    numeric fields one takes, some emitted row has the first filled and the
    second blank. *)
Definition fields_independent : Prop :=
  forall f g, f <> g ->
    exists row, emitted row /\ filled f row = true /\ filled g row = false.

(** ** What a successful match says about the subject *)

(** [steps r s s']: one way for [r] to lead the matcher from [s] to [s']. *)
Inductive steps : regex -> mstate -> mstate -> Prop :=
| st_eps s : steps Eps s s
| st_chr p s c t :
    rest s = String c t -> p c = true ->
    steps (Chr p) s (MState (S (pos s)) t (caps s))
| st_seq r1 r2 s s1 s2 :
    steps r1 s s1 -> steps r2 s1 s2 -> steps (Seq r1 r2) s s2
| st_alt_l r1 r2 s s' : steps r1 s s' -> steps (Alt r1 r2) s s'
| st_alt_r r1 r2 s s' : steps r2 s s' -> steps (Alt r1 r2) s s'
| st_star_stop g r s : steps (Star g r) s s
| st_star_more g r s s1 s2 :
    steps r s s1 -> steps (Star g r) s1 s2 -> steps (Star g r) s s2
| st_group n r s s' : steps r s s' -> steps (Group n r) s (set_cap n s s')
| st_look r s s' :
    steps r s s' -> steps (Look r) s (MState (pos s) (rest s) (caps s'))
| st_bol s : pos s = 0 -> steps Bol s s
| st_eol s : at_eol (rest s) = true -> steps Eol s s.

(** The origin marker the product pattern looks ahead for. *)
Definition origin_marker (m : string) : Prop :=
  exists h ws c,
    m = (h ++ ws ++ c)%string /\ upper h = "HSO" /\
    ws <> "" /\ all_of is_space ws = true /\ upper c = "CHINA".

(** The marker occurs in the line, after at least one character. *)
Definition has_origin_marker (line : string) : Prop :=
  exists pre m post,
    line = (pre ++ m ++ post)%string /\ pre <> "" /\ origin_marker m.

(** ** Sample inputs *)

Definition eol : string := String LF "".

(** The scenario line of the specification. *)
Definition iphone12_line : string :=
  "APPLE IPHONE 12 256GB HSO CHINA 851713004 4 233.00 932.00".

(** Two lines of the module's own test text: a complete row and one whose
    quantity was misread as a letter. *)
Definition two_lines : string :=
  ("APPLEIPHONE 12  256GB HSO CHINA 851713004 4 233.00 932.00" ++ eol ++
   "APPLE IPHONE 13 PRO MAX 512GBHSO CHINA 85171300 i 490.00 5,390.00")%string.

(** The test text at the end of the module. *)
Definition test_text : string :=
  (eol ++
   "APPLEIPHONE 12  256GB HSO CHINA 851713004 4 233.00 932.00" ++ eol ++
   "APPLE IPHONE 12 PRO 128GB HSO CHINA 9517130011 270.00 : 2,970.00" ++ eol ++
   "APPLE IPHONE 13 PRO 256GB HSO CHINA 85171300 14. 400.00 5,600.00" ++ eol ++
   "APPLE IPHONE 13 PRO MAX 512GBHSO CHINA 85171300 i 490.00 5,390.00" ++ eol ++
   "APPLE IPHONE SE3 256GB HSO CHINA 85171300 tos 200.00 rae 200.00" ++ eol ++
   "    ")%string.

(** A row in short: product, quantity, prices as [str] prints them, line. *)
Definition brief (row : Row)
  : string * option Z * option string * option string * nat :=
  (Product row, Quantity row,
   option_map PyNum.repr (Unit_Price_USD row),
   option_map PyNum.repr (Total_Price_USD row), Source_Line row).

(** [float(s)] as [repr] and [format(., '.2f')] print it. *)
Definition read_float (s : string) : string * string :=
  match PyNum.float_of_string s with
  | Ok x => (PyNum.repr x, PyNum.format_f 2 x)
  | Raise _ => ("ValueError", "")
  end.

(** A line whose last token is a lone comma. *)
Definition comma_line : string := "APPLE IPHONE 12 HSO CHINA 4 233.00 ,".

(** A line whose quantity column reads 0. *)
Definition zero_quantity_line : string := "ABCD HSO CHINA 7 2.5 0 2.5 3.5".

(** A line with two spaces inside the origin marker. *)
Definition wide_marker_line : string := "ABCD HSO  CHINA 4 233.00 932.00".

(** A text without the word: a header and a totals line. *)
Definition no_marker_text : string :=
  ("INVOICE 2024-117" ++ eol ++ "TOTAL 5 10.00 50.00")%string.

(** The rows of [two_lines]. *)
Definition iphone12_row : Row :=
  mkRow "APPLEIPHONE 12 256GB" (Some 4%Z)
        (Some (PyNum.of_Z 233)) (Some (PyNum.of_Z 932)) 1
        "APPLEIPHONE 12  256GB HSO CHINA 851713004 4 233.00 932.00".

Definition iphone13_row : Row :=
  mkRow "APPLE IPHONE 13 PRO MAX 512GB" None
        (Some (PyNum.of_Z 490)) (Some (PyNum.of_Z 5390)) 2
        "APPLE IPHONE 13 PRO MAX 512GBHSO CHINA 85171300 i 490.00 5,390.00".

(** ** Cells of the CSV file *)

Definition crlf : string := String CR (String LF "").

(** The first record of every file the writer produces. *)
Definition csv_header : string :=
  ("Product,Quantity,Unit_Price_USD,Total_Price_USD,Source_Line,Raw_Text"
   ++ crlf)%string.







(** ** Bounds on binary64 values *)

Section Bounds.
Import PyNum.
Local Open Scope Z_scope.

(** [x] is a value between the integers [L] and [B], both counted in
    units of 2^-j. *)
Definition within (L B j : Z) (x : float) : Prop :=
  match x with
  | S754_zero false => L = 0
  | S754_finite false m e =>
      e <= - j /\ L * 2 ^ (- j - e) <= Zpos m <= B * 2 ^ (- j - e)
  | _ => False
  end.

(** [x] is a non-negative value not above the integer [B]. *)
Definition bounded_by (B : Z) (x : float) : Prop := within 0 B 0 x.

(** A mantissa with its round and sticky bits, at exponent [e], standing
    for a value between [L] and [B] units of 2^-j. *)
Definition under (L B j e : Z) (r : shr_record) : Prop :=
  e <= - j /\ 0 <= L /\ L * 2 ^ (- j - e) <= shr_m r /\
  (shr_m r + 1 <= B * 2 ^ (- j - e) \/
   shr_r r = false /\ shr_s r = false /\ shr_m r <= B * 2 ^ (- j - e)).

(** The bounds the lemmas below work with: a scale of at most 45 bits and
    an upper bound of at most 128. *)
Definition in_reach (B j : Z) : Prop :=
  0 <= j <= 45 /\ 0 < B <= 128 * 2 ^ j.

(** The number of tenths [format(x, '.1f')] prints for a positive value. *)
Definition tenths_of (x : float) : Z :=
  match x with
  | S754_finite _ m e => round_even (scale10 (- Z.of_nat 1) (fraction m e))
  | _ => 0
  end.

End Bounds.

(** ** Counts and sums over a table *)

(** The number of filled cells among the three numeric fields of a row. *)
Definition slots (row : Row) : Z :=
  Z.b2z (is_filled (Quantity row)) + Z.b2z (is_filled (Unit_Price_USD row))
  + Z.b2z (is_filled (Total_Price_USD row)).

(** The number of filled numeric cells of a table. *)
Fixpoint filled_slots (table_data : list Row) : Z :=
  match table_data with
  | [] => 0
  | row :: rows => slots row + filled_slots rows
  end.

(** The values of a column in exactly the rows where it is filled. *)
Definition filled_values {A} (col : Row -> option A) (table_data : list Row)
  : list A :=
  flat_map (fun row => match col row with Some v => [v] | None => [] end)
           table_data.

(** A column with every blank cell counted as zero. *)
Definition zero_filled (col : Row -> option Z) (table_data : list Row)
  : list Z :=
  map (fun row => match col row with Some v => v | None => 0%Z end) table_data.

Definition total (l : list Z) : Z := fold_right Z.add 0%Z l.

(** ** Lines and their numbers *)

(** [enumerate(lines, n)] *)
Fixpoint enumerate (n : nat) (lines : list string) : list (nat * string) :=
  match lines with
  | [] => []
  | line :: lines' => (n, line) :: enumerate (S n) lines'
  end.

(** The numbered lines the extractor walks over. *)
Definition numbered_lines (text : string) : list (nat * string) :=
  enumerate 1 (split LF (strip text)).

(** The body of the loop returns on a numbered line. *)
Definition returns (numbered : nat * string) : Prop :=
  exists r, parse_line (fst numbered) (snd numbered) = Ok r.

(** The rows a numbered line contributes. *)
Definition rows_of (numbered : nat * string) : list Row :=
  match parse_line (fst numbered) (snd numbered) with
  | Ok (Some row) => [row]
  | _ => []
  end.

(** ** What the groups of the patterns capture *)

(** The pattern has no capture group. *)
Fixpoint group_free (r : regex) : bool :=
  match r with
  | Eps | Chr _ | Bol | Eol => true
  | Seq r1 r2 | Alt r1 r2 => group_free r1 && group_free r2
  | Star _ r1 | Look r1 => group_free r1
  | Group _ _ => false
  end.

(** The texts of [\d+]: one digit or more. *)
Definition digits_text (w : string) : Prop :=
  w <> "" /\ PyNum.all_digits w = true.

(** The texts of [\d+(?:\.\d+)?]: digits, or digits, a point and digits. *)
Definition decimal_text (w : string) : Prop :=
  exists ip, ip <> "" /\ PyNum.all_digits ip = true /\
    (w = ip \/
     exists fp, fp <> "" /\ PyNum.all_digits fp = true /\
                w = (ip ++ "." ++ fp)%string).

(** The texts of [[\d,]+\.?\d*]: digits and commas, then possibly a point,
    then possibly digits. *)
Definition grouped_text (w : string) : Prop :=
  exists a b c,
    w = (a ++ b ++ c)%string /\ a <> "" /\
    all_of (fun x => is_digit x || Ascii.eqb x ",") a = true /\
    (b = "" \/ b = ".") /\ PyNum.all_digits c = true.

(** No character of the text is a digit. *)
Definition digitless (s : string) : bool :=
  all_of (fun c => negb (is_digit c)) s.

(** The text the cascade reads the total price from on a stripped line:
    group 3 of the first pattern that matches among the first two, or
    else group 2 of the third. *)
Definition total_text (line : string) : option string :=
  match search clean_pattern line with
  | Some m => Some (group m 3)
  | None =>
      match search colon_pattern line with
      | Some m => Some (group m 3)
      | None =>
          match search price_pattern line with
          | Some m => Some (group m 2)
          | None => None
          end
      end
  end.

(** The text the cascade reads the quantity from on a stripped line:
    group 1 of the first pattern that matches among the first two; the
    third pattern reads no quantity. *)
Definition quantity_text (line : string) : option string :=
  match search clean_pattern line with
  | Some m => Some (group m 1)
  | None =>
      match search colon_pattern line with
      | Some m => Some (group m 1)
      | None => None
      end
  end.

(** The text has more characters than [int] converts. *)
Definition too_long (w : string) : bool :=
  (max_str_digits <? Z.of_nat (String.length w))%Z.

(** A conversion fails on the stripped line: the quantity captured has
    more digits than [int] converts, or the total price captured has no
    digit for [float] to read. *)
Definition conversion_fails (line : string) : bool :=
  match quantity_text line with Some w => too_long w | None => false end
  || match total_text line with Some g => digitless g | None => false end.

(** The line is a candidate on which a conversion fails. *)
Definition unconvertible (raw : string) : Prop :=
  contains "CHINA" (upper (strip raw)) = true /\
  ((exists w, quantity_text (strip raw) = Some w /\ too_long w = true) \/
   (exists g, total_text (strip raw) = Some g /\ digitless g = true)).

(** An integer that [str] and [format] convert: its digits are within
    the limit. *)
Definition printable (n : Z) : Prop := (Z.abs n < 10 ^ max_str_digits)%Z.

(** The quantity of the row, where it is filled, has no sign and is
    within the limit. *)
Definition quantity_in_range (row : Row) : Prop :=
  forall q, Quantity row = Some q -> (0 <= q < 10 ^ max_str_digits)%Z.

(** ** Texts at the limit *)

Fixpoint nines (n : nat) : string :=
  match n with
  | O => EmptyString
  | S n' => String "9" (nines n')
  end.

(** A candidate line whose quantity is [n] nines. *)
Definition long_line (n : nat) : string :=
  ("Widget HSO CHINA " ++ nines n ++ " 1 2")%string.

(** A file system that refuses every path, and one that takes every
    path. *)
Definition read_only : file_system := fun _ => Some OSError.
Definition writable : file_system := fun _ => None.

(** ** Numbers without a sign *)

(** A float that is zero, positive or plus infinity: not [nan], and
    without a minus sign. *)
Definition unsigned (x : PyNum.float) : Prop :=
  match x with
  | S754_zero false | S754_finite false _ _ | S754_infinity false => True
  | _ => False
  end.

(** The numeric cells of a row hold no negative number and no [nan]. *)
Definition unsigned_row (row : Row) : Prop :=
  (forall q, Quantity row = Some q -> (0 <= q)%Z) /\
  (forall u, Unit_Price_USD row = Some u -> unsigned u) /\
  (forall t, Total_Price_USD row = Some t -> unsigned t).

(** ** Normal forms of text *)

(** Every whitespace character of [s] is a space, and no two of them are
    neighbours; [prev] tells whether a space comes right before [s]. *)
Fixpoint single_spaced (prev : bool) (s : string) : bool :=
  match s with
  | EmptyString => true
  | String c t =>
      if is_space c
      then Ascii.eqb c " " && negb prev && single_spaced true t
      else single_spaced false t
  end.

(** No run of digits in [s] is longer than [n], when [s] may start with
    at most [left] digits. *)
Fixpoint runs_within (n left : nat) (s : string) : bool :=
  match s with
  | EmptyString => true
  | String c t =>
      if is_digit c
      then match left with
           | O => false
           | S left' => runs_within n left' t
           end
      else runs_within n n t
  end.

(** A product name in normal form: nothing to strip, whitespace only as
    single spaces between other characters, no run of eight digits. *)
Definition normal_name (s : string) : Prop :=
  strip s = s /\
  (forall pre c post,
     s = (pre ++ String c post)%string -> is_space c = true ->
     c = " "%char /\
     forall d post', post = String d post' -> is_space d = false) /\
  (forall pre w post,
     s = (pre ++ w ++ post)%string -> PyNum.all_digits w = true ->
     String.length w <= 7).

(** ** Cells without a sign *)

(** A price cell that is [inf] or digits, a point and two digits. *)
Definition unsigned_price (cell : string) : Prop :=
  cell = "inf" \/
  exists ip fp,
    cell = (ip ++ "." ++ fp)%string /\ digits_text ip /\
    PyNum.all_digits fp = true /\ String.length fp = 2.

(** The numeric cells of the record of a row: blank, or a number written
    without a sign. *)
Definition unsigned_cells (row : Row) : Prop :=
  (Quantity row = None \/ digits_text (csv_quantity (Quantity row))) /\
  (Unit_Price_USD row = None \/
   unsigned_price (csv_price (Unit_Price_USD row))) /\
  (Total_Price_USD row = None \/
   unsigned_price (csv_price (Total_Price_USD row))).

(** ** Numerals that read back *)

(** A numeral without a leading zero, or the single zero. *)
Definition canonical (s : string) : Prop :=
  s = "0" \/ exists c t, s = String c t /\ c <> "0"%char.

(** The bounds the lemmas on prices work with: values up to 2^K counted
    in units of 2^-j, with K + j at most 52. *)
Definition in_reach_wide (K B j : Z) : Prop :=
  (0 <= j /\ 0 <= K /\ K + j <= 52 /\ 0 < B <= 2 ^ K * 2 ^ j)%Z.

(** The number of hundredths [format(x, '.2f')] prints for a positive
    value. *)
Definition hundredths_of (x : PyNum.float) : Z :=
  match x with
  | S754_finite _ m e =>
      PyNum.round_even (PyNum.scale10 (- Z.of_nat 2) (PyNum.fraction m e))
  | _ => 0%Z
  end.

(* ================================================================== *)
(** * Lemmas *)

Ltac inv_bind H :=
  match type of H with
  | bind ?c _ = Ok _ =>
      let E := fresh "E" in
      destruct c eqn:E; simpl in H; [ | discriminate H ]
  end.

(** ** Strings *)

Section StringFacts.

Lemma prefix_app n : forall h,
  prefix n h = true <-> exists post, h = (n ++ post)%string.
Proof.
  induction n as [ | c n IH ]; intros h.
  - split; [ intros _; now exists h | now destruct h ].
  - destruct h as [ | c' h ]; simpl.
    + split; [ discriminate | intros (post & H); discriminate H ].
    + destruct (ascii_dec c c') as [ <- | N ].
      * rewrite IH. split; intros (post & H); exists post.
        -- now rewrite H.
        -- now injection H.
      * split; [ discriminate | ].
        intros (post & H). injection H as H _. now elim N.
Qed.

Lemma contains_app n : forall h,
  contains n h = true <-> exists pre post, h = (pre ++ n ++ post)%string.
Proof.
  induction h as [ | c h IH ].
  - cbn [contains]. destruct (prefix n "") eqn:P.
    + apply prefix_app in P. destruct P as (post & P).
      split; [ intros _; now exists "", post | reflexivity ].
    + split; [ discriminate | ].
      intros (pre & post & H). destruct pre; simpl in H.
      * assert (T : prefix n "" = true) by (apply prefix_app; now exists post).
        congruence.
      * discriminate H.
  - cbn [contains]. destruct (prefix n (String c h)) eqn:P.
    + apply prefix_app in P. destruct P as (post & P).
      split; [ intros _; now exists "", post | reflexivity ].
    + rewrite IH. split.
      * intros (pre & post & ->). now exists (String c pre), post.
      * intros (pre & post & H). destruct pre as [ | c' pre ]; simpl in H.
        -- assert (T : prefix n (String c h) = true)
             by (apply prefix_app; now exists post).
           congruence.
        -- injection H as _ ->. now exists pre, post.
Qed.

Lemma append_assoc (a b c : string) :
  ((a ++ b) ++ c = a ++ (b ++ c))%string.
Proof. induction a; simpl; congruence. Qed.

Lemma append_nil_r (a : string) : (a ++ "")%string = a.
Proof. induction a; simpl; congruence. Qed.

Lemma length_append (a b : string) :
  String.length (a ++ b) = String.length a + String.length b.
Proof. induction a; simpl; congruence. Qed.

(** A line holding the longer marker holds the shorter one. *)
Lemma contains_suffix a b h :
  contains (a ++ b) h = true -> contains b h = true.
Proof.
  rewrite !contains_app. intros (pre & post & ->).
  exists (pre ++ a)%string, post. now rewrite !append_assoc.
Qed.

End StringFacts.

(** ** The matcher *)

Section MatcherFacts.

Lemma star_loop_sound body greedy r k :
  (forall k s x, body k s = Some x ->
     exists s', steps r s s' /\ k s' = Some x) ->
  forall fuel s x, star_loop body greedy k fuel s = Some x ->
    exists s', steps (Star greedy r) s s' /\ k s' = Some x.
Proof.
  intros B. induction fuel as [ | fuel IH ]; intros s x H; simpl in H.
  - exists s. split; [ constructor | exact H ].
  - assert (More : forall y,
      body (fun s' => if (pos s <? pos s')%nat
                      then star_loop body greedy k fuel s' else None) s = Some y ->
      exists s', steps (Star greedy r) s s' /\ k s' = Some y).
    { intros y E. apply B in E. destruct E as (s1 & S1 & E).
      destruct (pos s <? pos s1)%nat; [ | discriminate E ].
      apply IH in E. destruct E as (s2 & S2 & E).
      exists s2. split; [ econstructor; eassumption | exact E ]. }
    assert (Stop : forall y, k s = Some y ->
      exists s', steps (Star greedy r) s s' /\ k s' = Some y).
    { intros y E. exists s. split; [ constructor | exact E ]. }
    destruct greedy; unfold orelse in H.
    + destruct (body _ s) eqn:E; [ rewrite H in E; now apply More | now apply Stop ].
    + destruct (k s) eqn:E; [ rewrite H in E; now apply Stop | now apply More ].
Qed.

(** Every result of the matcher is reached by some way of matching. *)
Lemma run_sound r : forall k s x,
  run r k s = Some x -> exists s', steps r s s' /\ k s' = Some x.
Proof.
  induction r as [ | p | r1 IH1 r2 IH2 | r1 IH1 r2 IH2 | g r IH | n r IH
                 | r IH | | ]; intros k s x H; simpl in H.
  - exists s. split; [ constructor | exact H ].
  - destruct (rest s) as [ | c t ] eqn:R; [ discriminate H | ].
    destruct (p c) eqn:P; [ | discriminate H ].
    eexists. split; [ econstructor; eassumption | exact H ].
  - apply IH1 in H. destruct H as (s1 & S1 & H).
    apply IH2 in H. destruct H as (s2 & S2 & H).
    exists s2. split; [ econstructor; eassumption | exact H ].
  - unfold orelse in H. destruct (run r1 k s) eqn:E.
    + rewrite H in E. apply IH1 in E. destruct E as (s' & S' & E).
      exists s'. split; [ now apply st_alt_l | exact E ].
    + apply IH2 in H. destruct H as (s' & S' & H).
      exists s'. split; [ now apply st_alt_r | exact H ].
  - eapply star_loop_sound; [ exact IH | exact H ].
  - apply IH in H. destruct H as (s' & S' & H).
    eexists. split; [ econstructor; eassumption | exact H ].
  - destruct (run r Some s) as [ s1 | ] eqn:E; [ | discriminate H ].
    apply IH in E. destruct E as (s' & S' & E). injection E as ->.
    eexists. split; [ econstructor; eassumption | exact H ].
  - destruct (pos s =? 0)%nat eqn:P; [ | discriminate H ].
    exists s. split; [ constructor; now apply Nat.eqb_eq | exact H ].
  - destruct (at_eol (rest s)) eqn:P; [ | discriminate H ].
    exists s. split; [ now constructor | exact H ].
Qed.

Lemma steps_chr p s s' :
  steps (Chr p) s s' ->
  exists c, rest s = String c (rest s') /\ p c = true.
Proof.
  intros H. inversion H; subst. exists c. now split.
Qed.

Lemma steps_lit_i str : forall s s',
  steps (lit_i str) s s' ->
  exists w, rest s = (w ++ rest s')%string /\ upper w = upper str.
Proof.
  induction str as [ | a str IH ]; simpl; intros s s' H.
  - inversion H; subst. now exists "".
  - inversion H; subst.
    match goal with
    | H1 : steps (chr_i _) _ _, H2 : steps (lit_i _) _ _ |- _ =>
        apply steps_chr in H1; destruct H1 as (c & R & P);
        apply IH in H2; destruct H2 as (w & R' & U)
    end.
    exists (String c w). rewrite R, R'. split; [ reflexivity | ].
    simpl. apply Ascii.eqb_eq in P. now rewrite P, U.
Qed.

Lemma steps_star_chr g p s s' :
  steps (Star g (Chr p)) s s' ->
  exists w, rest s = (w ++ rest s')%string /\ all_of p w = true.
Proof.
  remember (Star g (Chr p)) as r eqn:E. intros H. revert E.
  induction H as [ | | | | | g' r s | g' r s s1 s2 H1 _ _ IH2 | | | | ];
    intros E; try discriminate E.
  - now exists "".
  - injection E as -> ->. apply steps_chr in H1. destruct H1 as (c & R & P).
    destruct (IH2 eq_refl) as (w & R' & A).
    exists (String c w). rewrite R, R'. split; [ reflexivity | ].
    simpl. now rewrite P, A.
Qed.

Lemma steps_plus_chr g p s s' :
  steps (plus g (Chr p)) s s' ->
  exists w, rest s = (w ++ rest s')%string /\ w <> "" /\ all_of p w = true.
Proof.
  unfold plus. intros H. inversion H; subst.
  match goal with
  | H1 : steps (Chr _) _ _, H2 : steps (Star _ _) _ _ |- _ =>
      apply steps_chr in H1; destruct H1 as (c & R & P);
      apply steps_star_chr in H2; destruct H2 as (w & R' & A)
  end.
  exists (String c w). rewrite R, R'. split; [ reflexivity | ].
  split; [ discriminate | ]. simpl. now rewrite P, A.
Qed.

Lemma search_from_inv r : forall s i m,
  search_from r i s = Some m ->
  exists pre t e,
    s = (pre ++ t)%string /\
    run r Some (MState (i + String.length pre) t []) = Some e.
Proof.
  induction s as [ | c s IH ]; intros i m H; simpl in H.
  - unfold match_at in H.
    destruct (run r Some (MState i "" [])) as [ e | ] eqn:E; [ | discriminate H ].
    exists "", "", e. simpl. now rewrite Nat.add_0_r.
  - unfold match_at in H.
    destruct (run r Some (MState i (String c s) [])) as [ e | ] eqn:E.
    + exists "", (String c s), e. simpl. now rewrite Nat.add_0_r.
    + apply IH in H. destruct H as (pre & t & e & -> & R).
      exists (String c pre), t, e. simpl. split; [ reflexivity | ].
      now rewrite Nat.add_succ_r.
Qed.

Lemma steps_seq r1 r2 s s2 :
  steps (Seq r1 r2) s s2 -> exists s1, steps r1 s s1 /\ steps r2 s1 s2.
Proof. intros H. inversion H; subst. eexists. split; eassumption. Qed.

Lemma steps_group n r s x :
  steps (Group n r) s x -> exists s', steps r s s' /\ x = set_cap n s s'.
Proof. intros H. inversion H; subst. eexists. split; [ eassumption | reflexivity ]. Qed.

Lemma steps_look r s x :
  steps (Look r) s x -> rest x = rest s /\ exists s', steps r s s'.
Proof. intros H. inversion H; subst. split; [ reflexivity | eexists; eassumption ]. Qed.

(** Where the product pattern matches, the line has the origin marker. *)
Lemma product_match_marker line m :
  search product_pattern line = Some m -> has_origin_marker line.
Proof.
  intros H. apply search_from_inv in H.
  destruct H as (pre & t & e & -> & R).
  apply run_sound in R. destruct R as (s' & S & _).
  unfold product_pattern in S.
  apply steps_seq in S. destruct S as (s0 & Sbol & S).
  apply steps_seq in S. destruct S as (s1 & Sgrp & Slook).
  apply steps_group in Sgrp. destruct Sgrp as (s1' & Sname & ->).
  apply steps_look in Slook. destruct Slook as (_ & s2 & Smark).
  apply steps_seq in Smark. destruct Smark as (sa & Shso & Smark).
  apply steps_seq in Smark. destruct Smark as (sb & Sws & Schina).
  apply steps_plus_chr in Sname. destruct Sname as (name & Rn & Nn & _).
  apply steps_lit_i in Shso. destruct Shso as (h & Rh & Uh).
  apply steps_plus_chr in Sws. destruct Sws as (ws & Rw & Nw & Aw).
  apply steps_lit_i in Schina. destruct Schina as (c & Rc & Uc).
  inversion Sbol; subst.
  simpl in Rn, Rh. rewrite Rh, Rw, Rc in Rn. rewrite Rn.
  exists (pre ++ name)%string, (h ++ ws ++ c)%string, (rest s2).
  split; [ now rewrite !append_assoc | ].
  split.
  - destruct pre; [ destruct name; [ now elim Nn | discriminate ] | discriminate ].
  - exists h, ws, c. now repeat split.
Qed.

End MatcherFacts.

(** ** The steps of the extractor *)

Section ExtractorFacts.

Lemma scan_inv lines : forall n acc rows,
  scan n lines acc = Ok rows ->
  exists new, rows = acc ++ new /\
    Forall (fun row => exists k line, In line lines /\ emits k line row) new.
Proof.
  induction lines as [ | line lines IH ]; simpl; intros n acc rows H.
  - injection H as <-. exists []. now rewrite app_nil_r.
  - inv_bind H. destruct a as [ row | ].
    + apply IH in H. destruct H as (new & -> & F).
      exists (row :: new). rewrite <- app_assoc. split; [ reflexivity | ].
      constructor.
      * exists n, line. split; [ now left | exact E ].
      * eapply Forall_impl; [ | exact F ].
        intros r (k & l & Hin & Hr). exists k, l. split; [ now right | exact Hr ].
    + apply IH in H. destruct H as (new & -> & F).
      exists new. split; [ reflexivity | ].
      eapply Forall_impl; [ | exact F ].
      intros r (k & l & Hin & Hr). exists k, l. split; [ now right | exact Hr ].
Qed.

Lemma emitted_inv text rows row :
  parse_invoice_table text = Ok rows -> In row rows ->
  exists k line, In line (split LF (strip text)) /\ emits k line row.
Proof.
  unfold parse_invoice_table. intros H Hin.
  apply scan_inv in H. destruct H as (new & -> & F).
  simpl in Hin. rewrite Forall_forall in F. now apply F.
Qed.

Lemma int_checked_inv s q :
  int_checked s = Ok q ->
  PyNum.int s = Ok q /\ (Z.of_nat (String.length s) <= max_str_digits)%Z.
Proof.
  unfold int_checked.
  destruct (Z.ltb_spec max_str_digits (Z.of_nat (String.length s)))
    as [ L | L ]; [ discriminate | ].
  intros H. now split.
Qed.

Lemma fill_triple_inv row m row' :
  fill_triple row m = Ok row' ->
  same_text row row' /\
  exists q u t,
    PyNum.int (group m 1) = Ok q /\
    PyNum.float_of_string (group m 2) = Ok u /\
    PyNum.float_of_string (replace "," "" (group m 3)) = Ok t /\
    Quantity row' = Some q /\ Unit_Price_USD row' = Some u /\
    Total_Price_USD row' = Some t.
Proof.
  unfold fill_triple. intros H.
  inv_bind H. inv_bind H. inv_bind H. injection H as <-.
  apply int_checked_inv in E. destruct E as [ E _ ].
  split; [ now repeat split | ].
  exists a, a0, a1. now repeat split.
Qed.

Lemma fill_prices_inv row m row' :
  fill_prices row m = Ok row' ->
  same_text row row' /\ Quantity row' = Quantity row /\
  exists u t,
    PyNum.float_of_string (group m 1) = Ok u /\
    PyNum.float_of_string (replace "," "" (group m 2)) = Ok t /\
    Unit_Price_USD row' = Some u /\ Total_Price_USD row' = Some t.
Proof.
  unfold fill_prices. intros H.
  inv_bind H. inv_bind H. injection H as <-.
  split; [ now repeat split | ]. split; [ reflexivity | ].
  exists a, a0. now repeat split.
Qed.

Lemma extract_numbers_inv row line row' :
  extract_numbers row line = Ok row' ->
  same_text row row' /\ tier_outcome row row'.
Proof.
  unfold extract_numbers. intros H.
  destruct (search clean_pattern line) as [ m | ].
  { apply fill_triple_inv in H.
    destruct H as (S & q & u & t & _ & _ & _ & Hq & Hu & Ht).
    split; [ exact S | ]. eapply full_triple; eassumption. }
  destruct (search colon_pattern line) as [ m | ].
  { apply fill_triple_inv in H.
    destruct H as (S & q & u & t & _ & _ & _ & Hq & Hu & Ht).
    split; [ exact S | ]. eapply full_triple; eassumption. }
  destruct (search price_pattern line) as [ m | ].
  { apply fill_prices_inv in H.
    destruct H as (S & Hq & u & t & _ & _ & Hu & Ht).
    split; [ exact S | ]. eapply prices_only; eassumption. }
  injection H as <-. split; [ now repeat split | now apply no_match ].
Qed.

(** The recovery pass writes the quantity and nothing else, and only
    when both prices are true values and the quantity is not. *)
Lemma recover_quantity_cases row line row' :
  recover_quantity row line = Ok row' ->
  row' = row \/
  exists q, row' = set_Quantity row q /\
            truthy_float (Unit_Price_USD row) = true /\
            truthy_float (Total_Price_USD row) = true /\
            truthy_int (Quantity row) = false.
Proof.
  unfold recover_quantity. intros H.
  destruct (truthy_float (Unit_Price_USD row)) eqn:Tu; simpl in H;
    [ | injection H as <-; now left ].
  destruct (truthy_float (Total_Price_USD row)) eqn:Tt; simpl in H;
    [ | injection H as <-; now left ].
  destruct (truthy_int (Quantity row)) eqn:Tq; simpl in H;
    [ injection H as <-; now left | ].
  destruct (Unit_Price_USD row) as [ unit_price | ];
    [ | injection H as <-; now left ].
  destruct (search (qty_pattern unit_price) line) as [ m | ];
    [ | injection H as <-; now left ].
  destruct (int_checked (group m 1)) as [ q | [ | | ] ]; try discriminate H;
    injection H as <-; [ | now left ].
  right. exists q. now repeat split.
Qed.

Lemma recover_quantity_inv row line row' :
  recover_quantity row line = Ok row' ->
  same_text row row' /\
  Unit_Price_USD row' = Unit_Price_USD row /\
  Total_Price_USD row' = Total_Price_USD row /\
  (Quantity row' = Quantity row \/
   exists q, Quantity row' = Some q /\
             truthy_float (Unit_Price_USD row) = true /\
             truthy_float (Total_Price_USD row) = true /\
             truthy_int (Quantity row) = false).
Proof.
  intros H. apply recover_quantity_cases in H.
  destruct H as [ -> | (q & -> & Tu & Tt & Tq) ].
  - repeat split. now left.
  - repeat split. right. exists q. now repeat split.
Qed.

Lemma extract_product_inv row line :
  let row' := extract_product row line in
  Quantity row' = Quantity row /\
  Unit_Price_USD row' = Unit_Price_USD row /\
  Total_Price_USD row' = Total_Price_USD row /\
  Source_Line row' = Source_Line row /\ Raw_Text row' = Raw_Text row /\
  (Product row' = Product row \/
   exists m, search product_pattern line = Some m).
Proof.
  unfold extract_product.
  destruct (search product_pattern line) as [ m | ]; simpl.
  - repeat split. right. now exists m.
  - repeat split. now left.
Qed.

(** The anatomy of an emitted row. *)
Lemma emits_inv k raw row :
  emits k raw row ->
  let line := strip raw in
  exists row1,
    extract_numbers (extract_product (blank_row k line) line) line = Ok row1 /\
    recover_quantity row1 line = Ok row /\
    contains "CHINA" (upper line) = true /\
    truthy (Product row) = true /\
    (2 < String.length (Product row))%nat.
Proof.
  unfold emits, parse_line. intros H. cbv zeta in *.
  destruct (negb (truthy (strip raw))); [ discriminate H | ].
  destruct (negb (contains "HSO CHINA" (upper (strip raw)))
            && negb (contains "CHINA" (upper (strip raw)))) eqn:F;
    [ discriminate H | ].
  fold (blank_row k (strip raw)) in H.
  inv_bind H. inv_bind H.
  destruct (truthy (Product a0)) eqn:T; simpl in H; [ | discriminate H ].
  destruct (2 <? String.length (Product a0))%nat eqn:L; [ | discriminate H ].
  injection H as <-.
  exists a. repeat split; try assumption.
  - destruct (contains "CHINA" (upper (strip raw))) eqn:C; [ reflexivity | ].
    rewrite andb_false_iff in F. destruct F as [ F | F ]; [ | discriminate F ].
    apply negb_false_iff in F.
    apply (contains_suffix "HSO " "CHINA") in F. congruence.
  - now apply Nat.ltb_lt.
Qed.

End ExtractorFacts.

(** ** Emitted rows *)

Section EmittedRows.

Lemma product_of_blank k line :
  Product (extract_product (blank_row k line) line) = product_of line.
Proof.
  unfold product_of, extract_product.
  now destruct (search product_pattern line).
Qed.

(** Where the fields of an emitted row come from. *)
Lemma emits_fields k raw row :
  emits k raw row ->
  Product row = product_of (strip raw) /\
  Raw_Text row = strip raw /\ Source_Line row = k /\
  (2 < String.length (Product row))%nat /\
  is_filled (Unit_Price_USD row) = is_filled (Total_Price_USD row) /\
  (is_filled (Quantity row) = true ->
   is_filled (Unit_Price_USD row) = true).
Proof.
  intros H. apply emits_inv in H. cbv zeta in H.
  destruct H as (row1 & H1 & H2 & _ & _ & L).
  apply extract_numbers_inv in H1. destruct H1 as ((P1 & S1 & R1) & T1).
  apply recover_quantity_inv in H2.
  destruct H2 as ((P2 & S2 & R2) & U2 & T2 & Q2).
  destruct (extract_product_inv (blank_row k (strip raw)) (strip raw))
    as (Q0 & U0 & T0 & S0 & R0 & _).
  rewrite product_of_blank in P1. simpl in Q0, U0, T0, S0, R0.
  repeat split; try congruence.
  - rewrite U2, T2. destruct T1 as [ q u t _ Hu Ht | u t _ Hu Ht | -> ].
    + now rewrite Hu, Ht.
    + now rewrite Hu, Ht.
    + now rewrite U0, T0.
  - rewrite U2. destruct Q2 as [ Q2 | (q & _ & Tu & _) ].
    + rewrite Q2. destruct T1 as [ q u t _ Hu _ | u t Hq _ _ | -> ].
      * now rewrite Hu.
      * rewrite Hq, Q0. discriminate.
      * rewrite Q0. discriminate.
    + intros _. now destruct (Unit_Price_USD row1).
Qed.

(** When the first pattern matches, its three groups are the row's
    numbers, unless its quantity reads as zero and the recovery pass
    finds another one. *)
Lemma clean_match_fields k raw row m :
  search clean_pattern (strip raw) = Some m ->
  emits k raw row ->
  exists q u t,
    PyNum.int (group m 1) = Ok q /\
    PyNum.float_of_string (group m 2) = Ok u /\
    PyNum.float_of_string (replace "," "" (group m 3)) = Ok t /\
    Unit_Price_USD row = Some u /\ Total_Price_USD row = Some t /\
    (Quantity row = Some q \/ q = 0%Z /\ is_filled (Quantity row) = true).
Proof.
  intros M H. apply emits_inv in H. cbv zeta in H.
  destruct H as (row1 & H1 & H2 & _).
  unfold extract_numbers in H1. rewrite M in H1.
  apply fill_triple_inv in H1.
  destruct H1 as (_ & q & u & t & Iq & Fu & Ft & Hq & Hu & Ht).
  apply recover_quantity_inv in H2. destruct H2 as (_ & U2 & T2 & Q2).
  exists q, u, t. repeat split; try congruence.
  destruct Q2 as [ Q2 | (q' & Q2 & _ & _ & Z) ].
  - left. congruence.
  - right. rewrite Hq in Z. simpl in Z. apply negb_false_iff in Z.
    apply Z.eqb_eq in Z. rewrite Q2. now split.
Qed.

End EmittedRows.

(** ** The origin marker *)

Section MarkerFilter.

Lemma skipped_without_china k raw :
  contains "CHINA" (upper (strip raw)) = false -> parse_line k raw = Ok None.
Proof.
  intros C. unfold parse_line. cbv zeta.
  destruct (negb (truthy (strip raw))); [ reflexivity | ].
  destruct (contains "HSO CHINA" (upper (strip raw))) eqn:H.
  - apply (contains_suffix "HSO " "CHINA") in H. congruence.
  - now rewrite C.
Qed.

Lemma scan_skips lines : forall n acc,
  (forall line, In line lines -> forall k, parse_line k line = Ok None) ->
  scan n lines acc = Ok acc.
Proof.
  induction lines as [ | line lines IH ]; intros n acc H; simpl.
  - reflexivity.
  - rewrite (H line (or_introl eq_refl)). simpl.
    apply IH. intros l Hl. apply H. now right.
Qed.

Lemma emits_marker k raw row :
  emits k raw row ->
  has_origin_marker (Raw_Text row) /\
  contains "CHINA" (upper (Raw_Text row)) = true.
Proof.
  intros E. destruct (emits_fields _ _ _ E) as (P & R & _).
  apply emits_inv in E. cbv zeta in E.
  destruct E as (row1 & _ & _ & C & T & _).
  rewrite R. split; [ | exact C ].
  rewrite P in T. unfold product_of in T.
  destruct (extract_product_inv (blank_row 0 (strip raw)) (strip raw))
    as (_ & _ & _ & _ & _ & [ E | (m & M) ]).
  - rewrite E in T. discriminate T.
  - eapply product_match_marker. exact M.
Qed.

End MarkerFilter.

(** ** Numerals *)

Section NumeralFacts.
Import PyNum.

Lemma all_of_app p a b :
  all_of p (a ++ b) = all_of p a && all_of p b.
Proof. induction a as [ | c a IH ]; simpl; [ reflexivity | ]. now rewrite IH, andb_assoc. Qed.


Lemma all_of_substring p s : forall n m,
  all_of p s = true -> all_of p (substring n m s) = true.
Proof.
  induction s as [ | c s IH ]; intros n m H.
  - now destruct n, m.
  - simpl in H. apply andb_true_iff in H. destruct H as (H1 & H2).
    destruct n as [ | n ]; simpl.
    + destruct m as [ | m ]; simpl; [ reflexivity | ]. now rewrite H1, IH.
    + now apply IH.
Qed.

Lemma length_substring s : forall n m,
  (n + m <= String.length s)%nat -> String.length (substring n m s) = m.
Proof.
  induction s as [ | c s IH ]; intros n m H; simpl in H.
  - assert (n = 0%nat) by lia. assert (m = 0%nat) by lia. now subst.
  - destruct n as [ | n ]; simpl.
    + destruct m as [ | m ]; simpl; [ reflexivity | ]. rewrite IH; lia.
    + apply IH. lia.
Qed.

Lemma digit_chr_spec d :
  (0 <= d < 10)%Z ->
  is_digit (digit_chr d) = true /\ digit_val (digit_chr d) = d.
Proof.
  intros H.
  assert (C : (d = 0 \/ d = 1 \/ d = 2 \/ d = 3 \/ d = 4 \/ d = 5 \/ d = 6
              \/ d = 7 \/ d = 8 \/ d = 9)%Z) by lia.
  repeat (destruct C as [ -> | C ]; [ now vm_compute | ]). subst. now vm_compute.
Qed.

Lemma mod10_digit n : is_digit (digit_chr (n mod 10)%Z) = true.
Proof. apply digit_chr_spec. apply Z.mod_pos_bound. lia. Qed.

Lemma digits_of_digits fuel : forall n acc,
  all_digits acc = true -> all_digits (digits_of fuel n acc) = true.
Proof.
  induction fuel as [ | fuel IH ]; intros n acc H; simpl; [ exact H | ].
  assert (A : all_digits (String (digit_chr (n mod 10)%Z) acc) = true).
  { unfold all_digits. simpl. rewrite mod10_digit. exact H. }
  destruct (n <? 10)%Z; [ exact A | now apply IH ].
Qed.

Lemma digits_of_app fuel : forall n acc,
  exists w, digits_of fuel n acc = (w ++ acc)%string /\
            (fuel <> O -> w <> "").
Proof.
  induction fuel as [ | fuel IH ]; intros n acc; simpl.
  - exists "". split; [ reflexivity | intros H; now elim H ].
  - destruct (n <? 10)%Z.
    + exists (String (digit_chr (n mod 10)%Z) ""). split; [ reflexivity | discriminate ].
    + destruct (IH (n / 10)%Z (String (digit_chr (n mod 10)%Z) acc)) as (w & -> & _).
      exists (w ++ String (digit_chr (n mod 10)%Z) "")%string.
      split; [ now rewrite append_assoc | ].
      intros _. destruct w; discriminate.
Qed.

Lemma numeral_digits n : all_digits (numeral n) = true /\ numeral n <> "".
Proof.
  unfold numeral. split.
  - now apply digits_of_digits.
  - destruct (digits_of_app (S (Z.to_nat (Z.log2 n))) n "") as (w & E & N).
    rewrite E, append_nil_r. now apply N.
Qed.

Lemma digits_val_app w : forall a v,
  digits_val a (w ++ v) = digits_val (digits_val a w) v.
Proof. induction w as [ | c w IH ]; simpl; intros a v; [ reflexivity | apply IH ]. Qed.

Lemma digits_of_acc fuel : forall n acc,
  digits_of fuel n acc = (digits_of fuel n "" ++ acc)%string.
Proof.
  induction fuel as [ | fuel IH ]; intros n acc; simpl; [ reflexivity | ].
  destruct (n <? 10)%Z; [ reflexivity | ].
  rewrite (IH _ (String _ acc)), (IH _ (String _ "")).
  now rewrite append_assoc.
Qed.





Lemma length_zeros k : String.length (zeros k) = k.
Proof. induction k; simpl; congruence. Qed.

Lemma zeros_digits k : all_digits (zeros k) = true.
Proof. induction k; simpl; [ reflexivity | exact IHk ]. Qed.

(** A fixed-point numeral: digits, a point, and [d] digits. *)
Lemma fixed_point_shape d t :
  exists ip fp,
    fixed_point d t = (ip ++ "." ++ fp)%string /\ ip <> "" /\
    all_digits ip = true /\ all_digits fp = true /\ String.length fp = d.
Proof.
  unfold fixed_point.
  set (s := zfill (S d) (numeral t)).
  assert (L : (S d <= String.length s)%nat).
  { unfold s, zfill. rewrite length_append, length_zeros. lia. }
  assert (D : all_digits s = true).
  { unfold s, zfill, all_digits. rewrite all_of_app.
    fold (all_digits (zeros (S d - String.length (numeral t)))).
    rewrite zeros_digits. apply numeral_digits. }
  exists (substring 0 (String.length s - d) s),
         (substring (String.length s - d) d s).
  split; [ reflexivity | ]. split; [ | split; [ | split ] ].
  - intros E. apply (f_equal String.length) in E.
    rewrite length_substring in E by lia. simpl in E. lia.
  - now apply all_of_substring.
  - now apply all_of_substring.
  - apply length_substring. lia.
Qed.



End NumeralFacts.

(** ** The CSV writer *)

Section CsvFacts.
Import PyNum.













End CsvFacts.

(** ** binary64 rounding *)

Section FloatFacts.
Import PyNum.
Local Open Scope Z_scope.

Lemma digits2_pos_le p : forall k,
  Zpos p < 2 ^ k -> 0 <= k -> Zpos (digits2_pos p) <= k.
Proof.
  induction p as [ p IH | p IH | ]; intros k H K; simpl.
  - assert (k <> 0) by (intros ->; simpl in H; lia).
    replace k with (Z.succ (k - 1)) in H by lia.
    rewrite Z.pow_succ_r in H by lia.
    rewrite Pos2Z.inj_succ. specialize (IH (k - 1)). lia.
  - assert (k <> 0) by (intros ->; simpl in H; lia).
    replace k with (Z.succ (k - 1)) in H by lia.
    rewrite Z.pow_succ_r in H by lia.
    rewrite Pos2Z.inj_succ. specialize (IH (k - 1)). lia.
  - assert (k <> 0) by (intros ->; simpl in H; lia). lia.
Qed.

Lemma Zdigits2_le m k : 0 <= m < 2 ^ k -> 0 <= k -> Zdigits2 m <= k.
Proof.
  intros H K. destruct m as [ | p | p ]; simpl; [ lia | | lia ].
  apply digits2_pos_le; lia.
Qed.

Lemma pow2_split j e : e < - j -> 2 ^ (- j - e) = 2 * 2 ^ (- j - (e + 1)).
Proof.
  intros H. replace (- j - e) with (Z.succ (- j - (e + 1))) by lia.
  rewrite Z.pow_succ_r by lia. reflexivity.
Qed.

Lemma under_shr_1 L B j e r :
  e < - j -> under L B j e r -> under L B j (e + 1) (shr_1 r).
Proof.
  intros E (_ & L0 & M & H). rewrite (pow2_split j e E) in M, H. unfold under.
  remember (2 ^ (- j - (e + 1))) as X eqn:HX.
  assert (P : 0 < X) by (subst X; apply Z.pow_pos_nonneg; lia).
  clear HX.
  remember (L * X) as Lo eqn:HL. remember (B * X) as Hi eqn:HH.
  replace (L * (2 * X)) with (2 * Lo) in M by (subst Lo; ring).
  replace (B * (2 * X)) with (2 * Hi) in H by (subst Hi; ring).
  assert (0 <= Lo) by nia. clear HL HH.
  destruct r as [ m r s ]. cbn [shr_m shr_r shr_s] in M, H.
  destruct m as [ | [ p | p | ] | p ]; cbn [shr_1 shr_m shr_r shr_s];
    try lia; (split; [ lia | split; [ lia | split; [ lia | ] ] ]);
    destruct H as [ H | (-> & -> & H) ];
    first [ left; lia | right; repeat split; first [ reflexivity | lia ] ].
Qed.

Lemma under_iter L B j p : forall e r,
  e + Zpos p <= - j -> under L B j e r ->
  under L B j (e + Zpos p) (iter_pos shr_1 p r).
Proof.
  induction p as [ p IH | p IH | ]; intros e r E U; simpl.
  - replace (e + Z.pos p~1) with ((e + 1 + Z.pos p) + Z.pos p) by lia.
    apply IH; [ lia | ]. apply IH; [ lia | ]. apply under_shr_1; [ lia | exact U ].
  - replace (e + Z.pos p~0) with ((e + Z.pos p) + Z.pos p) by lia.
    apply IH; [ lia | ]. apply IH; [ lia | exact U ].
  - apply under_shr_1; [ lia | exact U ].
Qed.

Lemma shr_m_of_loc m l : shr_m (shr_record_of_loc m l) = m.
Proof. now destruct l as [ | [ | | ] ]. Qed.

Lemma fexp_small x : x <= 8 -> fexp prec emax x <= -45.
Proof. unfold fexp, emin, prec, emax. lia. Qed.

Lemma under_shr_fexp L B j m e l :
  in_reach B j -> under L B j e (shr_record_of_loc m l) ->
  under L B j (snd (shr_fexp prec emax m e l))
              (fst (shr_fexp prec emax m e l)).
Proof.
  intros (J & HB) U. unfold shr_fexp, shr.
  destruct (fexp prec emax (Zdigits2 m + e) - e) as [ | p | p ] eqn:N;
    simpl; try exact U.
  rewrite <- N. replace (e + (fexp prec emax (Zdigits2 m + e) - e))
    with (e + Zpos p) by lia.
  apply under_iter; [ | exact U ].
  assert (F : fexp prec emax (Zdigits2 m + e) <= -45); [ | lia ].
  apply fexp_small.
  destruct U as (E & L0 & M & H). rewrite shr_m_of_loc in M, H.
  assert (P : 0 < 2 ^ (- j - e)) by (apply Z.pow_pos_nonneg; lia).
  assert (Pj : 0 < 2 ^ j) by (apply Z.pow_pos_nonneg; lia).
  assert (S : 2 ^ (- e) = 2 ^ j * 2 ^ (- j - e))
    by (rewrite <- Z.pow_add_r by lia; f_equal; lia).
  assert (Zdigits2 m <= 8 - e); [ | lia ].
  apply Zdigits2_le; [ | lia ].
  split; [ nia | ].
  replace (8 - e) with (8 + - e) by lia. rewrite Z.pow_add_r by lia.
  change (2 ^ 8) with 256. rewrite S.
  assert (m <= B * 2 ^ (- j - e)) by lia.
  remember (2 ^ (- j - e)) as X. remember (2 ^ j) as Y.
  assert (B * X <= 128 * Y * X) by nia. nia.
Qed.

Lemma round_nearest_even_under L B j e r :
  under L B j e r ->
  under L B j e (shr_record_of_loc
                   (round_nearest_even (shr_m r) (loc_of_shr_record r))
                   loc_Exact).
Proof.
  intros (E & L0 & M & H). destruct r as [ m r s ].
  cbn [shr_m shr_r shr_s] in M, H.
  unfold under. cbn [shr_m shr_r shr_s shr_record_of_loc].
  split; [ exact E | ]. split; [ exact L0 | ].
  destruct H as [ H | (-> & -> & H) ].
  - destruct r, s; simpl; try destruct (Z.even m); (split; [ lia | ]);
      right; repeat split; lia.
  - simpl. split; [ lia | ]. right. repeat split; lia.
Qed.

(** Rounding keeps a value between bounds that are themselves binary64
    values. *)
Lemma round_aux_within L B j mx ex lx :
  in_reach B j -> under L B j ex (shr_record_of_loc mx lx) ->
  within L B j (binary_round_aux prec emax false mx ex lx).
Proof.
  intros HB U. unfold binary_round_aux.
  pose proof (under_shr_fexp L B j mx ex lx HB U) as U1.
  destruct (shr_fexp prec emax mx ex lx) as (r1, e1). simpl in U1.
  apply round_nearest_even_under in U1.
  apply (under_shr_fexp L B j _ _ _ HB) in U1.
  destruct (shr_fexp prec emax
              (round_nearest_even (shr_m r1) (loc_of_shr_record r1)) e1
              loc_Exact) as (r2, e2).
  simpl in U1. destruct U1 as (E & L0 & M & H).
  assert (P : 0 < 2 ^ (- j - e2)) by (apply Z.pow_pos_nonneg; lia).
  destruct (shr_m r2) as [ | m | m ]; [ simpl; nia | | nia ].
  destruct (Z.leb e2 (Z.sub emax prec)) eqn:Le.
  - split; [ exact E | lia ].
  - apply Z.leb_gt in Le. destruct HB as (J & _).
    unfold emax, prec in Le. lia.
Qed.

Lemma digits2_pos_gt p : Zpos p < 2 ^ Zpos (digits2_pos p).
Proof.
  induction p as [ p IH | p IH | ]; simpl digits2_pos;
    rewrite ?Pos2Z.inj_succ, ?Z.pow_succ_r by lia; lia.
Qed.

Lemma digits2_pos_mono n d :
  Zpos n <= Zpos d -> Zpos (digits2_pos n) <= Zpos (digits2_pos d).
Proof.
  intros H. apply digits2_pos_le; [ | lia ].
  pose proof (digits2_pos_gt d). lia.
Qed.

(** A quotient of two integers, n <= d, rounds to a value between any two
    bounds around n / d that are themselves binary64 values. *)
Lemma of_ratio_within L B j n d :
  in_reach B j -> 0 <= L -> Zpos n <= Zpos d ->
  L * Zpos d <= Zpos n * 2 ^ j <= B * Zpos d ->
  within L B j (of_ratio n d).
Proof.
  intros R L0 ND H. pose proof R as ((J0 & J1) & _).
  unfold of_ratio, SFdiv, SFdiv_core_binary.
  set (e' := Z.min (fexp prec emax (Zdigits2 (Zpos n) + 0 - (Zdigits2 (Zpos d) + 0)))
                   (0 - 0)).
  assert (E : e' <= -53).
  { unfold e'. pose proof (digits2_pos_mono n d ND). simpl Zdigits2.
    unfold fexp, emin, prec, emax. lia. }
  set (m' := match 0 - 0 - e' with
             | Z.pos _ => Z.shiftl (Zpos n) (0 - 0 - e')
             | 0 => Zpos n
             | Z.neg _ => 0
             end).
  assert (M : m' = Zpos n * 2 ^ (- e')).
  { unfold m'. replace (0 - 0 - e') with (- e') by lia.
    destruct (- e') as [ | p | p ] eqn:S; [ simpl; lia | | lia ].
    now rewrite Z.shiftl_mul_pow2. }
  assert (S : 2 ^ (- e') = 2 ^ j * 2 ^ (- j - e'))
    by (rewrite <- Z.pow_add_r by lia; f_equal; lia).
  assert (P : 0 < 2 ^ (- j - e')) by (apply Z.pow_pos_nonneg; lia).
  assert (DE : Z.div_eucl m' (Zpos d) = (m' / Zpos d, m' mod Zpos d))
    by (unfold Z.div, Z.modulo; now destruct (Z.div_eucl m' (Zpos d))).
  rewrite DE. apply round_aux_within; [ exact R | ].
  unfold under. rewrite shr_m_of_loc.
  clearbody m' e'. subst m'. rewrite S.
  remember (2 ^ (- j - e')) as X eqn:HX. clear HX S.
  remember (2 ^ j) as Y eqn:HY. clear HY.
  split; [ lia | ]. split; [ exact L0 | ].
  split; [ apply Z.div_le_lower_bound; [ lia | nia ] | ].
  destruct (Z.eq_dec (Zpos n * Y) (B * Zpos d)) as [ Q | Q ].
  - right.
    replace (Zpos n * (Y * X)) with (B * X * Zpos d) by nia.
    rewrite Z.div_mul, Z.mod_mul by lia.
    unfold new_location, new_location_even, new_location_odd.
    destruct (Z.even (Zpos d)); simpl; repeat split; lia.
  - left. assert (Zpos n * (Y * X) / Zpos d < B * X); [ | lia ].
    apply Z.div_lt_upper_bound; [ lia | ].
    assert (Zpos n * Y < B * Zpos d) by lia. nia.
Qed.

(** The integer quotient a / b of 0 <= a <= b, b > 0, raises nothing; its
    value lies in [0, 1] and within 2^-40 of the exact quotient. *)
Lemma truediv_share a b :
  0 <= a <= b -> 0 < b ->
  exists q, truediv a b = Ok q /\ bounded_by 1 q /\
            within (a * 2 ^ 40 / b) (a * 2 ^ 40 / b + 1) 40 q.
Proof.
  intros H B. destruct b as [ | d | d ]; try lia.
  destruct a as [ | n | n ]; try lia.
  - exists (S754_zero false). simpl. repeat split.
  - assert (R0 : in_reach 1 0) by (unfold in_reach; simpl; lia).
    pose proof (Z.mul_div_le (Zpos n * 2 ^ 40) (Zpos d) ltac:(lia)) as Lo.
    pose proof (Z.mul_succ_div_gt (Zpos n * 2 ^ 40) (Zpos d) ltac:(lia)) as Hi.
    assert (L0 : 0 <= Zpos n * 2 ^ 40 / Zpos d) by (apply Z.div_pos; lia).
    assert (L1 : Zpos n * 2 ^ 40 / Zpos d <= 2 ^ 40)
      by (apply Z.div_le_upper_bound; lia).
    assert (R40 : in_reach (Zpos n * 2 ^ 40 / Zpos d + 1) 40)
      by (unfold in_reach; lia).
    pose proof (of_ratio_within 0 1 0 n d R0 ltac:(lia) ltac:(lia)
                  ltac:(simpl; lia)) as Q1.
    pose proof (of_ratio_within _ _ 40 n d R40 L0 ltac:(lia)
                  ltac:(unfold Z.succ in Hi; lia)) as Q2.
    unfold truediv.
    destruct (of_ratio n d) as [ [ | ] | | | [ | ] m e ]; try contradiction;
      eexists; (split; [ reflexivity | split; [ exact Q1 | exact Q2 ] ]).
Qed.

Lemma fmul_100_within L B j q :
  in_reach (100 * B) j -> 0 <= L -> within L B j q ->
  within (100 * L) (100 * B) j (fmul q (of_Z 100)).
Proof.
  intros R L0 Q.
  change (of_Z 100) with (S754_finite false 7036874417766400 (-46)).
  destruct q as [ [ | ] | | | [ | ] m e ]; try contradiction.
  - simpl in Q. subst L. reflexivity.
  - destruct Q as (E & M). unfold fmul, SFmul.
    apply round_aux_within; [ exact R | ].
    unfold under. cbn [xorb shr_record_of_loc shr_m shr_r shr_s].
    assert (P : 0 < 2 ^ (- j - e)) by (apply Z.pow_pos_nonneg; lia).
    replace (- j - (e + -46)) with (46 + (- j - e)) by lia.
    rewrite Z.pow_add_r by lia. rewrite Pos2Z.inj_mul.
    change (2 ^ 46) with 70368744177664.
    remember (2 ^ (- j - e)) as X eqn:HX. clear HX.
    split; [ lia | ]. split; [ lia | ]. split; [ nia | ].
    right. repeat split. nia.
Qed.

Lemma round_even_near N D :
  0 < D -> 0 <= N ->
  0 <= round_even (N, D) /\ Z.abs (2 * round_even (N, D) * D - 2 * N) <= D.
Proof.
  intros HD HN. unfold round_even.
  pose proof (Z.div_mod N D ltac:(lia)) as DM.
  pose proof (Z.mod_pos_bound N D HD) as MB.
  assert (Q0 : 0 <= N / D) by (apply Z.div_pos; lia).
  set (q := N / D) in *. set (r := N mod D) in *. clearbody q r.
  assert (Down : 2 * q * D - 2 * N = - (2 * r)) by (rewrite DM; ring).
  assert (Up : 2 * (q + 1) * D - 2 * N = 2 * D - 2 * r) by (rewrite DM; ring).
  destruct (2 * r ?= D) eqn:C.
  - apply Z.compare_eq in C.
    destruct (Z.even q); rewrite ?Down, ?Up; split; lia.
  - rewrite Z.compare_lt_iff in C. rewrite Down. split; lia.
  - rewrite Z.compare_gt_iff in C. rewrite Up. split; lia.
Qed.

(** One decimal of a value between L and B units of 2^-j: the tenths
    printed are within one half of ten times the value. *)
Lemma format_1_within L B j x :
  0 <= j -> 0 <= B -> within L B j x ->
  format_f 1 x = fixed_point 1 (tenths_of x) /\ 0 <= tenths_of x /\
  (2 * tenths_of x - 1) * 2 ^ j <= 20 * B /\
  20 * L <= (2 * tenths_of x + 1) * 2 ^ j.
Proof.
  intros J B0 W. assert (Pj : 0 < 2 ^ j) by (apply Z.pow_pos_nonneg; lia).
  destruct x as [ [ | ] | | | [ | ] m e ]; try contradiction.
  - simpl in W. subst L. split; [ reflexivity | ]. simpl tenths_of. lia.
  - destruct W as (E & M). split; [ reflexivity | ]. unfold tenths_of.
    assert (P : 0 < 2 ^ (- j - e)) by (apply Z.pow_pos_nonneg; lia).
    assert (S : 2 ^ (- e) = 2 ^ j * 2 ^ (- j - e))
      by (rewrite <- Z.pow_add_r by lia; f_equal; lia).
    assert (F : exists N, fraction m e = (N, 2 ^ (- e)) /\ N = Zpos m).
    { unfold fraction. destruct (0 <=? e) eqn:Le.
      - apply Z.leb_le in Le. assert (e = 0) by lia. subst e.
        exists (Zpos m * 2 ^ 0). split; [ reflexivity | simpl; lia ].
      - exists (Zpos m). now split. }
    destruct F as (N & -> & HN).
    change (scale10 (- Z.of_nat 1) (N, 2 ^ (- e))) with (N * 10, 2 ^ (- e)).
    destruct (round_even_near (N * 10) (2 ^ (- e))) as (T0 & T); [ lia | lia | ].
    set (t := round_even (N * 10, 2 ^ (- e))) in *. clearbody t.
    rewrite S in T. subst N.
    remember (2 ^ (- j - e)) as X eqn:HX. remember (2 ^ j) as Y eqn:HY.
    clear HX HY S.
    split; [ exact T0 | ].
    assert (T1 : 2 * t * (Y * X) - 2 * (Zpos m * 10) <= Y * X) by lia.
    assert (T2 : 2 * (Zpos m * 10) - 2 * t * (Y * X) <= Y * X) by lia.
    split.
    + assert ((2 * t - 1) * Y * X <= 20 * B * X) by nia. nia.
    + assert (20 * L * X <= (2 * t + 1) * Y * X) by nia. nia.
Qed.

(** The percentage of a share a / b, 0 <= a <= b: printed with one decimal
    it is a number of tenths between 0 and 1000, within half a tenth (and
    one part in a million) of the exact 1000 a / b. *)
Lemma percent_tenths a b share :
  0 <= a <= b -> 0 < b -> truediv a b = Ok share ->
  let t := tenths_of (fmul share (of_Z 100)) in
  format_f 1 (fmul share (of_Z 100)) = fixed_point 1 t /\
  0 <= t <= 1000 /\
  1000000 * (2 * Z.abs (t * b - 1000 * a) - b) <= b.
Proof.
  intros H B T t.
  destruct (truediv_share a b H B) as (q & T' & Q1 & Q2).
  rewrite T in T'. injection T' as <-.
  pose proof (Z.mul_div_le (a * 2 ^ 40) b B) as Lo.
  pose proof (Z.mul_succ_div_gt (a * 2 ^ 40) b B) as Hi.
  assert (L0 : 0 <= a * 2 ^ 40 / b) by (apply Z.div_pos; lia).
  assert (L1 : a * 2 ^ 40 / b <= 2 ^ 40) by (apply Z.div_le_upper_bound; lia).
  set (L := a * 2 ^ 40 / b) in *. clearbody L.
  change (2 ^ 40) with 1099511627776 in *.
  apply (fmul_100_within 0 1 0) in Q1;
    [ | unfold in_reach; simpl; lia | lia ].
  apply (fmul_100_within L (L + 1) 40) in Q2;
    [ | unfold in_reach; change (2 ^ 40) with 1099511627776; lia | lia ].
  apply format_1_within in Q1; [ | lia | lia ].
  apply format_1_within in Q2; [ | lia | lia ].
  fold t in Q1, Q2.
  destruct Q1 as (F & T0 & T1 & _). destruct Q2 as (_ & _ & U & D).
  change (2 ^ 40) with 1099511627776 in U, D. simpl (2 ^ 0) in T1.
  clearbody t. unfold Z.succ in Hi.
  split; [ exact F | ]. split; [ lia | ].
  assert (Up : 1099511627776 * (2 * (t * b - 1000 * a) - b) <= 2000 * b) by nia.
  assert (Dn : 1099511627776 * (2 * (1000 * a - t * b) - b) <= 2000 * b) by nia.
  lia.
Qed.

End FloatFacts.

(** ** The analyzer *)

Section AnalyzerFacts.
Import PyNum.
Local Open Scope Z_scope.

Lemma count_cons cond row rows :
  count cond (row :: rows) = Z.b2z (cond row) + count cond rows.
Proof.
  unfold count. simpl. destruct (cond row); simpl Z.b2z; [ | lia ].
  simpl List.length. lia.
Qed.

Lemma counts_slots rows :
  count (fun row => is_filled (Quantity row)) rows
  + count (fun row => is_filled (Unit_Price_USD row)) rows
  + count (fun row => is_filled (Total_Price_USD row)) rows
  = filled_slots rows.
Proof.
  induction rows as [ | row rows IH ]; [ reflexivity | ].
  rewrite !count_cons. simpl filled_slots. unfold slots. lia.
Qed.

Lemma filled_slots_bounds rows :
  0 <= filled_slots rows <= Z.of_nat (List.length rows) * 3.
Proof.
  induction rows as [ | row rows IH ]; [ simpl; lia | ].
  simpl filled_slots. simpl List.length. unfold slots.
  destruct (is_filled (Quantity row)), (is_filled (Unit_Price_USD row)),
    (is_filled (Total_Price_USD row)); simpl Z.b2z; lia.
Qed.

Lemma numbers_filled_values {A} (col : Row -> option A) inj rows :
  numbers col inj rows = map inj (filled_values col rows).
Proof.
  induction rows as [ | row rows IH ]; [ reflexivity | ].
  unfold filled_values in *. simpl. destruct (col row); simpl; now rewrite IH.
Qed.

Lemma sum_ints l : sum (map Int l) = Int (total l).
Proof.
  unfold sum. assert (G : forall a, fold_left add (map Int l) (Int a)
                                    = Int (a + total l)).
  { induction l as [ | x l IH ]; intros a; simpl.
    - f_equal. lia.
    - rewrite IH. f_equal. lia. }
  now rewrite G.
Qed.

Lemma total_zero_filled col rows :
  total (filled_values col rows) = total (zero_filled col rows).
Proof.
  induction rows as [ | row rows IH ]; [ reflexivity | ].
  unfold filled_values, zero_filled in *. simpl.
  destruct (col row); simpl; rewrite IH; reflexivity.
Qed.

(** On a non-empty table the analyzer returns its full report. *)
Lemma analyze_table_report row rows :
  let table_data := row :: rows in
  exists share,
    truediv (filled_slots table_data)
            (Z.of_nat (List.length table_data) * 3) = Ok share /\
    bounded_by 1 share /\
    exists a,
      analyze_table table_data = Ok (Table a) /\
      total_quantity a = sum (numbers Quantity Int table_data) /\
      total_value a = sum (numbers Total_Price_USD Float table_data) /\
      completion_rate a =
        (format_f 1 (fmul share (of_Z 100)) ++ "%")%string.
Proof.
  intros table_data.
  destruct (truediv_share (filled_slots table_data)
              (Z.of_nat (List.length table_data) * 3))
    as (share & T & B & _).
  { apply filled_slots_bounds. }
  { unfold table_data. simpl List.length. lia. }
  exists share. split; [ exact T | ]. split; [ exact B | ].
  unfold analyze_table. fold table_data.
  change (match table_data with [] => Ok NoTable | _ :: _ => ?x end) with x.
  rewrite counts_slots, T. simpl bind.
  eexists. split; [ reflexivity | ]. now repeat split.
Qed.

End AnalyzerFacts.

(** ** The model at work *)

Section Checks.

(** Numerals as CPython reads and prints them. *)
Example float_readings :
  map read_float
      ["233.00"; "5."; ".5"; "0.125"; "2.675"; "0.1"; "0.30000000000000004";
       "10000000000000000"; "0.00001"; "9007199254740993"; "."; ""; "1,5"] =
  [("233.0", "233.00"); ("5.0", "5.00"); ("0.5", "0.50"); ("0.125", "0.12");
   ("2.675", "2.67"); ("0.1", "0.10"); ("0.30000000000000004", "0.30");
   ("1e+16", "10000000000000000.00"); ("1e-05", "0.00");
   ("9007199254740992.0", "9007199254740992.00");
   ("ValueError", ""); ("ValueError", ""); ("ValueError", "")].
Proof. vm_compute. reflexivity. Qed.

(** The rows of the module's test text. *)
Example test_text_rows :
  match parse_invoice_table test_text with
  | Ok rows => map brief rows
  | Raise _ => []
  end =
  [ ("APPLEIPHONE 12 256GB", Some 4%Z, Some "233.0", Some "932.0", 1);
    ("APPLE IPHONE 12 PRO 128GB", Some 9517130011%Z,
     Some "270.0", Some "2970.0", 2);
    ("APPLE IPHONE 13 PRO 256GB", Some 14%Z, Some "400.0", Some "5600.0", 3);
    ("APPLE IPHONE 13 PRO MAX 512GB", None, Some "490.0", Some "5390.0", 4);
    ("APPLE IPHONE SE3 256GB", None, None, None, 5) ].
Proof. vm_compute. reflexivity. Qed.

(** The report and the file for the two sample rows. *)
Example two_rows_report :
  analyze_table [iphone12_row; iphone13_row] =
  Ok (Table (mkAnalysis 2 "2/2" "1/2" "2/2" "2/2" (PyNum.Int 4)
               (PyNum.Float (PyNum.of_Z 6322)) "83.3%")).
Proof. vm_compute. reflexivity. Qed.

Example empty_report : analyze_table [] = Ok NoTable.
Proof. reflexivity. Qed.

Example quoted_cells :
  Csv.writerow ["a,b"; "4"; "233.00"; ""; "7"; "plain text"] =
  (String DQUOTE "a,b" ++ String DQUOTE ",4,233.00,,7,plain text" ++ crlf)%string.
Proof. reflexivity. Qed.

End Checks.

(** ** The sample rows *)

Section SampleFacts.

Lemma two_lines_rows :
  parse_invoice_table two_lines = Ok [iphone12_row; iphone13_row].
Proof. vm_compute. reflexivity. Qed.

Lemma iphone12_row_emitted : emitted iphone12_row.
Proof.
  exists two_lines, [iphone12_row; iphone13_row].
  split; [ exact two_lines_rows | now left ].
Defined.

Lemma iphone13_row_emitted : emitted iphone13_row.
Proof.
  exists two_lines, [iphone12_row; iphone13_row].
  split; [ exact two_lines_rows | right; now left ].
Defined.

Lemma emitted_fields row :
  emitted row ->
  is_filled (Unit_Price_USD row) = is_filled (Total_Price_USD row) /\
  (is_filled (Quantity row) = true -> is_filled (Unit_Price_USD row) = true).
Proof.
  intros (text & rows & H & Hin).
  destruct (emitted_inv _ _ _ H Hin) as (k & line & _ & E).
  apply emits_fields in E. tauto.
Qed.

(** An infinite price, which [float] yields for a numeral beyond the
    binary64 range, is written without decimals. *)
Lemma infinite_price_cell :
  csv_price (Some (S754_infinity false)) = "inf".
Proof. reflexivity. Qed.

End SampleFacts.

(** ** The scan, line by line *)

Section LineByLine.

Lemma scan_flat lines : forall n acc rows,
  scan n lines acc = Ok rows <->
  Forall returns (enumerate n lines) /\
  rows = acc ++ flat_map rows_of (enumerate n lines).
Proof.
  induction lines as [ | line lines IH ]; intros n acc rows; simpl.
  - rewrite app_nil_r. split.
    + intros H. inversion H. split; [ constructor | reflexivity ].
    + intros [ _ -> ]. reflexivity.
  - unfold rows_of at 1. simpl.
    destruct (parse_line n line) as [ [ row | ] | e ] eqn:E; simpl.
    + rewrite IH. rewrite <- app_assoc. simpl. split.
      * intros [ F -> ]. split; [ | reflexivity ].
        constructor; [ exists (Some row); exact E | exact F ].
      * intros [ F -> ]. inversion F. split; [ assumption | reflexivity ].
    + rewrite IH. split.
      * intros [ F -> ]. split; [ | reflexivity ].
        constructor; [ exists None; exact E | exact F ].
      * intros [ F -> ]. inversion F. split; [ assumption | reflexivity ].
    + split; [ discriminate | ].
      intros [ F _ ]. inversion F as [ | x l [ r R ] F' ]. simpl in R.
      rewrite E in R. discriminate.
Qed.

Lemma scan_raises lines : forall n acc e,
  scan n lines acc = Raise e <->
  exists before numbered after,
    enumerate n lines = before ++ numbered :: after /\
    Forall returns before /\
    parse_line (fst numbered) (snd numbered) = Raise e.
Proof.
  induction lines as [ | line lines IH ]; intros n acc e; simpl.
  - split; [ discriminate | ].
    intros (before & numbered & after & E & _). destruct before; discriminate.
  - destruct (parse_line n line) as [ r | e' ] eqn:E; simpl.
    + assert (scan (S n) lines (match r with
                                | Some row => acc ++ [row]
                                | None => acc end) = Raise e <->
              exists before numbered after,
                (n, line) :: enumerate (S n) lines
                  = before ++ numbered :: after /\
                Forall returns before /\
                parse_line (fst numbered) (snd numbered) = Raise e) as K.
      { rewrite IH. split.
        - intros (before & numbered & after & -> & F & R).
          exists ((n, line) :: before), numbered, after. repeat split.
          + constructor; [ exists r; exact E | exact F ].
          + exact R.
        - intros (before & numbered & after & Q & F & R).
          destruct before as [ | b before ]; simpl in Q.
          + injection Q as <- _. simpl in R. rewrite E in R. discriminate.
          + injection Q as <- Q. inversion F.
            exists before, numbered, after. repeat split; assumption. }
      destruct r; exact K.
    + split.
      * intros H. injection H as ->.
        exists [], (n, line), (enumerate (S n) lines).
        repeat split; [ constructor | exact E ].
      * intros (before & numbered & after & Q & F & R).
        destruct before as [ | b before ]; simpl in Q.
        -- injection Q as <- _. simpl in R. rewrite E in R.
           injection R as ->. reflexivity.
        -- injection Q as <- Q. inversion F as [ | x l [ r R' ] F' ].
           simpl in R'. rewrite E in R'. discriminate.
Qed.

Lemma enumerate_nth lines : forall n k line,
  In (k, line) (enumerate n lines) ->
  n <= k /\ nth_error lines (k - n) = Some line.
Proof.
  induction lines as [ | l lines IH ]; intros n k line; simpl.
  - intros [].
  - intros [ H | H ].
    + injection H as <- <-. split; [ lia | ].
      rewrite Nat.sub_diag. reflexivity.
    + apply IH in H. destruct H as [ L N ]. split; [ lia | ].
      replace (k - n) with (S (k - S n)) by lia. exact N.
Qed.

Lemma rows_of_inv numbered row :
  In row (rows_of numbered) -> emits (fst numbered) (snd numbered) row.
Proof.
  unfold rows_of, emits.
  destruct (parse_line (fst numbered) (snd numbered)) as [ [ r | ] | e ];
    simpl; intros H; try contradiction.
  destruct H as [ <- | [] ]. reflexivity.
Qed.

Lemma length_rows_of numbered : List.length (rows_of numbered) <= 1.
Proof.
  unfold rows_of.
  destruct (parse_line (fst numbered) (snd numbered)) as [ [ r | ] | e ];
    simpl; lia.
Qed.

Lemma flat_rows_sorted lines : forall n,
  StronglySorted lt
    (map Source_Line (flat_map rows_of (enumerate n lines))) /\
  Forall (fun row => n <= Source_Line row)
    (flat_map rows_of (enumerate n lines)) /\
  List.length (flat_map rows_of (enumerate n lines)) <= List.length lines.
Proof.
  induction lines as [ | line lines IH ]; intros n; simpl.
  - repeat split; [ constructor | constructor | lia ].
  - destruct (IH (S n)) as (Srt & F & L).
    pose proof (length_rows_of (n, line)) as L1.
    pose proof (rows_of_inv (n, line)) as R.
    destruct (rows_of (n, line)) as [ | row [ | ] ]; simpl in *;
      try lia.
    + repeat split; [ exact Srt | | lia ].
      eapply Forall_impl; [ | exact F ]. simpl. intros; lia.
    + pose proof (R row (or_introl eq_refl)) as Em.
      apply emits_fields in Em. destruct Em as (_ & _ & Ek & _).
      repeat split.
      * constructor; [ exact Srt | ].
        rewrite Forall_map. eapply Forall_impl; [ | exact F ].
        simpl. intros; lia.
      * constructor; [ lia | ].
        eapply Forall_impl; [ | exact F ]. simpl. intros; lia.
      * lia.
Qed.

End LineByLine.

Section FirstRaise.

Lemma rows_line_by_line text rows :
  parse_invoice_table text = Ok rows ->
  rows = flat_map rows_of (numbered_lines text).
Proof.
  unfold parse_invoice_table, numbered_lines. intros H.
  apply scan_flat in H. now destruct H as [ _ -> ].
Qed.


Lemma enumerate_in lines : forall n raw,
  In raw lines -> exists k, In (k, raw) (enumerate n lines).
Proof.
  induction lines as [ | l lines IH ]; intros n raw; simpl; [ intros [] | ].
  intros [ -> | H ].
  - exists n. now left.
  - destruct (IH (S n) raw H) as (k & I). exists k. now right.
Qed.

(** Among numbered lines one of which raises, there is a first. *)
Lemma first_raise l : forall numbered e,
  In numbered l -> parse_line (fst numbered) (snd numbered) = Raise e ->
  exists before x after e',
    l = before ++ x :: after /\ Forall returns before /\
    parse_line (fst x) (snd x) = Raise e'.
Proof.
  induction l as [ | a l IH ]; intros numbered e; simpl; [ intros [] | ].
  intros I R.
  destruct (parse_line (fst a) (snd a)) as [ r | e0 ] eqn:E.
  - destruct I as [ <- | I ]; [ rewrite E in R; discriminate R | ].
    destruct (IH numbered e I R) as (before & x & after & e' & -> & F & R').
    exists (a :: before), x, after, e'. repeat split; [ | exact R' ].
    constructor; [ exists r; exact E | exact F ].
  - exists [], a, l, e0. repeat split; [ constructor | exact E ].
Qed.

End FirstRaise.

(** ** What the groups capture *)

Section CaptureFacts.

(** The matcher never loses its place: position plus rest is constant. *)
Lemma steps_total r s s' :
  steps r s s' ->
  pos s + String.length (rest s) = pos s' + String.length (rest s').
Proof.
  induction 1; simpl; try reflexivity; try lia.
  match goal with R : rest _ = String _ _ |- _ => rewrite R end.
  simpl. lia.
Qed.

Lemma steps_caps_free r s s' :
  steps r s s' -> group_free r = true -> caps s' = caps s.
Proof.
  induction 1; simpl; intros G; try reflexivity;
    try (apply andb_prop in G; destruct G as [ G1 G2 ]);
    try discriminate G; auto.
  - rewrite IHsteps2, IHsteps1; auto.
  - rewrite IHsteps2, IHsteps1; auto.
Qed.

Lemma substring_prefix w : forall x,
  substring 0 (String.length w) (w ++ x) = w.
Proof.
  induction w as [ | c w IH ]; intros x; simpl.
  - destruct x; reflexivity.
  - now rewrite IH.
Qed.

Lemma steps_between r s s' w :
  steps r s s' -> rest s = (w ++ rest s')%string -> between s s' = w.
Proof.
  intros H R. apply steps_total in H. unfold between.
  rewrite R in H. rewrite length_append in H.
  replace (pos s' - pos s) with (String.length w) by lia.
  rewrite R. apply substring_prefix.
Qed.

(** A group around a pattern without groups records the text it spans. *)
Lemma steps_group_cap n r s x :
  steps (Group n r) s x -> group_free r = true ->
  exists s', steps r s s' /\ rest x = rest s' /\
             caps x = (n, between s s') :: caps s.
Proof.
  intros H G. apply steps_group in H. destruct H as (s' & H & ->).
  exists s'. repeat split; [ exact H | ]. simpl.
  now rewrite (steps_caps_free _ _ _ H G).
Qed.

Lemma search_from_match r : forall s i m,
  search_from r i s = Some m ->
  exists pre t e,
    s = (pre ++ t)%string /\
    run r Some (MState (i + String.length pre) t []) = Some e /\
    m_caps m = caps e.
Proof.
  induction s as [ | c s IH ]; intros i m H; simpl in H.
  - unfold match_at in H.
    destruct (run r Some (MState i "" [])) as [ e | ] eqn:E; [ | discriminate H ].
    injection H as <-.
    exists "", "", e. simpl. rewrite Nat.add_0_r. now repeat split.
  - unfold match_at in H.
    destruct (run r Some (MState i (String c s) [])) as [ e | ] eqn:E.
    + injection H as <-.
      exists "", (String c s), e. simpl. rewrite Nat.add_0_r. now repeat split.
    + apply IH in H. destruct H as (pre & t & e & -> & R & C).
      exists (String c pre), t, e. simpl. split; [ reflexivity | ].
      rewrite Nat.add_succ_r. now split.
Qed.

Lemma steps_alt r1 r2 s s' :
  steps (Alt r1 r2) s s' -> steps r1 s s' \/ steps r2 s s'.
Proof. intros H. inversion H; subst; [ now left | now right ]. Qed.

Lemma steps_eps s s' : steps Eps s s' -> s' = s.
Proof. intros H. inversion H; subst. reflexivity. Qed.

Lemma steps_eol s s' : steps Eol s s' -> s' = s.
Proof. intros H. inversion H; subst. reflexivity. Qed.

Lemma steps_point s s' :
  steps (chr ".") s s' -> rest s = String "." (rest s').
Proof.
  intros H. apply steps_chr in H. destruct H as (c & R & P).
  apply Ascii.eqb_eq in P. now subst c.
Qed.

Lemma steps_decimal s s' :
  steps decimal s s' ->
  exists w, rest s = (w ++ rest s')%string /\ decimal_text w.
Proof.
  unfold decimal. intros H.
  apply steps_seq in H. destruct H as (s1 & Hi & H).
  apply steps_plus_chr in Hi. destruct Hi as (ip & Ri & Ni & Ai).
  apply steps_alt in H. destruct H as [ H | H ].
  - apply steps_seq in H. destruct H as (s2 & Hp & Hf).
    apply steps_point in Hp.
    apply steps_plus_chr in Hf. destruct Hf as (fp & Rf & Nf & Af).
    exists (ip ++ "." ++ fp)%string. split.
    + rewrite Ri, Hp, Rf. rewrite !append_assoc. reflexivity.
    + exists ip. repeat split; try assumption. right.
      exists fp. now repeat split.
  - apply steps_eps in H. subst s'.
    exists ip. split; [ exact Ri | ].
    exists ip. repeat split; try assumption. now left.
Qed.

Lemma steps_grouped s s' :
  steps grouped_decimal s s' ->
  exists w, rest s = (w ++ rest s')%string /\ grouped_text w.
Proof.
  unfold grouped_decimal. intros H.
  apply steps_seq in H. destruct H as (s1 & Ha & H).
  apply steps_seq in H. destruct H as (s2 & Hb & Hc).
  apply steps_plus_chr in Ha. destruct Ha as (a & Ra & Na & Aa).
  apply steps_star_chr in Hc. destruct Hc as (c & Rc & Ac).
  apply steps_alt in Hb. destruct Hb as [ Hb | Hb ].
  - apply steps_point in Hb.
    exists (a ++ "." ++ c)%string. split.
    + rewrite Ra, Hb, Rc. rewrite !append_assoc. reflexivity.
    + exists a, ".", c. repeat split; try assumption. now right.
  - apply steps_eps in Hb. subst s2.
    exists (a ++ "" ++ c)%string. split.
    + rewrite Ra, Rc. simpl. rewrite append_assoc. reflexivity.
    + exists a, "", c. repeat split; try assumption. now left.
Qed.

Lemma steps_digits s s' :
  steps (plus true digit) s s' ->
  exists w, rest s = (w ++ rest s')%string /\ w <> "" /\
            PyNum.all_digits w = true.
Proof. apply steps_plus_chr. Qed.

Lemma group_word n r s x (P : string -> Prop) :
  (forall s s', steps r s s' ->
     exists w, rest s = (w ++ rest s')%string /\ P w) ->
  group_free r = true ->
  steps (Group n r) s x ->
  exists w, P w /\ caps x = (n, w) :: caps s.
Proof.
  intros W G H. apply steps_group_cap in H; [ | exact G ].
  destruct H as (s' & H & _ & C).
  destruct (W _ _ H) as (w & R & Pw).
  exists w. split; [ exact Pw | ].
  now rewrite C, (steps_between _ _ _ _ H R).
Qed.

Ltac group_step S W P w Pw C :=
  let x := fresh "x" in
  let G := fresh "G" in
  apply steps_seq in S; destruct S as (x & G & S);
  apply (group_word _ _ _ _ P W eq_refl) in G;
  destruct G as (w & Pw & C).

Ltac free_step S F :=
  let x := fresh "x" in
  let G := fresh "G" in
  apply steps_seq in S; destruct S as (x & G & S);
  pose proof (steps_caps_free _ _ _ G eq_refl) as F; clear G.

(** The groups of a match of the first pattern. *)
Lemma clean_groups m line :
  search clean_pattern line = Some m ->
  digits_text (group m 1) /\ decimal_text (group m 2) /\
  grouped_text (group m 3).
Proof.
  intros H. apply search_from_match in H.
  destruct H as (pre & t & e & -> & R & C).
  apply run_sound in R. destruct R as (s' & S & E). injection E as ->.
  unfold group. rewrite C. clear C. unfold clean_pattern in S.
  group_step S steps_digits digits_text w1 P1 C1.
  free_step S F1.
  group_step S steps_decimal decimal_text w2 P2 C2.
  free_step S F2.
  group_step S steps_grouped grouped_text w3 P3 C3.
  apply steps_eol in S. subst e.
  rewrite C3, F2, C2, F1, C1. simpl. split; [ exact P1 | split; [ exact P2 | exact P3 ] ].
Qed.

(** The groups of a match of the second pattern. *)
Lemma colon_groups m line :
  search colon_pattern line = Some m ->
  digits_text (group m 1) /\ decimal_text (group m 2) /\
  grouped_text (group m 3).
Proof.
  intros H. apply search_from_match in H.
  destruct H as (pre & t & e & -> & R & C).
  apply run_sound in R. destruct R as (s' & S & E). injection E as ->.
  unfold group. rewrite C. clear C. unfold colon_pattern in S.
  group_step S steps_digits digits_text w1 P1 C1.
  free_step S F1.
  group_step S steps_decimal decimal_text w2 P2 C2.
  free_step S F2. free_step S F3. free_step S F4.
  group_step S steps_grouped grouped_text w3 P3 C3.
  apply steps_eol in S. subst e.
  rewrite C3, F4, F3, F2, C2, F1, C1. simpl.
  split; [ exact P1 | split; [ exact P2 | exact P3 ] ].
Qed.

(** The groups of a match of the third pattern. *)
Lemma price_groups m line :
  search price_pattern line = Some m ->
  decimal_text (group m 1) /\ grouped_text (group m 2).
Proof.
  intros H. apply search_from_match in H.
  destruct H as (pre & t & e & -> & R & C).
  apply run_sound in R. destruct R as (s' & S & E). injection E as ->.
  unfold group. rewrite C. clear C. unfold price_pattern in S.
  group_step S steps_decimal decimal_text w1 P1 C1.
  free_step S F1.
  group_step S steps_grouped grouped_text w2 P2 C2.
  apply steps_eol in S. subst e.
  rewrite C2, F1, C1. simpl. split; [ exact P1 | exact P2 ].
Qed.

End CaptureFacts.

(** ** Reading the groups as numbers *)

Section ReadingFacts.
Import PyNum.

Lemma digit_not_point c : is_digit c = true -> Ascii.eqb c "." = false.
Proof.
  intros D. destruct (Ascii.eqb_spec c "."); [ subst c; discriminate D | reflexivity ].
Qed.

Lemma digit_not_comma c : is_digit c = true -> Ascii.eqb c "," = false.
Proof.
  intros D. destruct (Ascii.eqb_spec c ","); [ subst c; discriminate D | reflexivity ].
Qed.

Lemma split_point_digits d :
  all_digits d = true -> split_point d = (d, None).
Proof.
  unfold all_digits. induction d as [ | c d IH ]; simpl; intros A.
  - reflexivity.
  - apply andb_prop in A. destruct A as [ D A ].
    rewrite (digit_not_point _ D), (IH A). reflexivity.
Qed.

Lemma split_point_app a b :
  all_digits a = true -> split_point (a ++ String "." b) = (a, Some b).
Proof.
  unfold all_digits. induction a as [ | c a IH ]; simpl; intros A.
  - reflexivity.
  - apply andb_prop in A. destruct A as [ D A ].
    rewrite (digit_not_point _ D), (IH A). reflexivity.
Qed.

Lemma eqb_empty s : String.eqb s "" = false <-> s <> "".
Proof. destruct s; simpl; split; congruence. Qed.

Lemma float_of_digits d :
  d <> "" -> all_digits d = true ->
  float_of_string d = Ok (of_decimal (digits_val 0 d) 0).
Proof.
  intros N A. unfold float_of_string.
  rewrite (split_point_digits _ A). rewrite append_nil_r, A.
  apply eqb_empty in N. rewrite N. reflexivity.
Qed.

Lemma float_of_pointed a c :
  all_digits a = true -> all_digits c = true ->
  float_of_string (a ++ String "." c) =
  if String.eqb (a ++ c) "" then Raise ValueError
  else Ok (of_decimal (digits_val 0 (a ++ c))
                      (- Z.of_nat (String.length c))).
Proof.
  intros A C. unfold float_of_string.
  rewrite (split_point_app _ _ A). rewrite A, C.
  destruct (String.eqb (a ++ c) ""); reflexivity.
Qed.

Lemma int_digits w : digits_text w -> int w = Ok (digits_val 0 w).
Proof.
  intros [ N A ]. unfold int. rewrite A. destruct w; [ now elim N | reflexivity ].
Qed.

Lemma read_decimal w : decimal_text w -> exists u, float_of_string w = Ok u.
Proof.
  intros (ip & Ni & Ai & [ -> | (fp & Nf & Af & ->) ]).
  - eexists. now apply float_of_digits.
  - change (ip ++ "." ++ fp)%string with (ip ++ String "." fp)%string.
    rewrite (float_of_pointed _ _ Ai Af).
    destruct (String.eqb (ip ++ fp) "") eqn:E; [ | eexists; reflexivity ].
    apply String.eqb_eq in E. destruct ip; [ now elim Ni | discriminate E ].
Qed.

Lemma replace_app old new a b :
  replace old new (a ++ b) = (replace old new a ++ replace old new b)%string.
Proof.
  induction a as [ | c a IH ]; simpl; [ reflexivity | ].
  destruct (Ascii.eqb c old); rewrite IH; [ | reflexivity ].
  now rewrite append_assoc.
Qed.

Lemma replace_digits c : all_digits c = true -> replace "," "" c = c.
Proof.
  unfold all_digits. induction c as [ | x c IH ]; simpl; intros A;
    [ reflexivity | ].
  apply andb_prop in A. destruct A as [ D A ].
  rewrite (digit_not_comma _ D), (IH A). reflexivity.
Qed.

Lemma replace_commas a :
  all_of (fun x => is_digit x || Ascii.eqb x ",") a = true ->
  all_digits (replace "," "" a) = true /\
  String.eqb (replace "," "" a) "" = digitless a.
Proof.
  unfold all_digits, digitless.
  induction a as [ | x a IH ]; simpl; intros A; [ now split | ].
  apply andb_prop in A. destruct A as [ X A ].
  destruct (IH A) as [ D E ].
  destruct (is_digit x) eqn:Dx; simpl in *.
  - rewrite (digit_not_comma _ Dx). simpl. rewrite Dx. now split.
  - rewrite X. simpl. now split.
Qed.

Lemma digitless_app a b : digitless (a ++ b) = digitless a && digitless b.
Proof. apply all_of_app. Qed.

Lemma digitless_digits c :
  all_digits c = true -> digitless c = String.eqb c "".
Proof.
  unfold all_digits, digitless. destruct c as [ | x c ]; simpl;
    [ reflexivity | ].
  intros A. apply andb_prop in A. destruct A as [ D _ ]. now rewrite D.
Qed.

Lemma eqb_empty_app a b :
  String.eqb (a ++ b) "" = String.eqb a "" && String.eqb b "".
Proof. destruct a; simpl; [ reflexivity | reflexivity ]. Qed.

(** Reading a total price: the commas go, and what is left is read unless
    no digit is left. *)
Lemma read_total g :
  grouped_text g ->
  if digitless g
  then float_of_string (replace "," "" g) = Raise ValueError
  else exists t, float_of_string (replace "," "" g) = Ok t.
Proof.
  intros (a & b & c & -> & Na & Aa & Hb & Ac).
  destruct (replace_commas _ Aa) as [ Da Ea ].
  rewrite !digitless_app, !replace_app, (replace_digits _ Ac).
  rewrite (digitless_digits _ Ac), <- Ea.
  destruct Hb as [ -> | -> ]; simpl.
  - rewrite <- eqb_empty_app.
    destruct (String.eqb (replace "," "" a ++ c) "") eqn:E.
    + apply String.eqb_eq in E. now rewrite E.
    + eexists. apply float_of_digits.
      * now apply eqb_empty.
      * unfold all_digits in *. now rewrite all_of_app, Da, Ac.
  - rewrite (float_of_pointed _ _ Da Ac).
    rewrite <- eqb_empty_app.
    destruct (String.eqb (replace "," "" a ++ c) ""); [ reflexivity | ].
    eexists. reflexivity.
Qed.

Lemma int_raises s e : int s = Raise e -> e = ValueError.
Proof.
  unfold int. destruct s; [ congruence | ].
  destruct (all_digits _); congruence.
Qed.

Lemma int_checked_digits w :
  digits_text w ->
  int_checked w = if too_long w then Raise ValueError
                  else Ok (digits_val 0 w).
Proof.
  intros P. unfold int_checked, too_long.
  destruct (_ <? _)%Z; [ reflexivity | now apply int_digits ].
Qed.

Lemma int_checked_raises s e : int_checked s = Raise e -> e = ValueError.
Proof.
  unfold int_checked. destruct (_ <? _)%Z; [ congruence | apply int_raises ].
Qed.

Lemma float_of_string_raises s e :
  float_of_string s = Raise e -> e = ValueError.
Proof.
  unfold float_of_string. destruct (split_point s) as [ i f ].
  destruct (_ && _); congruence.
Qed.

End ReadingFacts.

(** ** When the extractor raises *)

Section Raising.

Lemma fill_triple_outcome row m :
  digits_text (group m 1) -> decimal_text (group m 2) ->
  grouped_text (group m 3) ->
  if too_long (group m 1) || digitless (group m 3)
  then fill_triple row m = Raise ValueError
  else exists row', fill_triple row m = Ok row'.
Proof.
  intros P1 P2 P3. unfold fill_triple.
  rewrite (int_checked_digits _ P1).
  destruct (too_long (group m 1)); [ reflexivity | ]. cbn [bind orb].
  destruct (read_decimal _ P2) as (u & ->). cbn [bind].
  pose proof (read_total _ P3) as T.
  destruct (digitless (group m 3)).
  - now rewrite T.
  - destruct T as (t & ->). cbn [bind]. eexists. reflexivity.
Qed.

Lemma fill_prices_outcome row m :
  decimal_text (group m 1) -> grouped_text (group m 2) ->
  if digitless (group m 2)
  then fill_prices row m = Raise ValueError
  else exists row', fill_prices row m = Ok row'.
Proof.
  intros P1 P2. unfold fill_prices.
  destruct (read_decimal _ P1) as (u & ->). simpl.
  pose proof (read_total _ P2) as T.
  destruct (digitless (group m 2)).
  - now rewrite T.
  - destruct T as (t & ->). simpl. eexists. reflexivity.
Qed.

Lemma extract_numbers_outcome row line :
  if conversion_fails line
  then extract_numbers row line = Raise ValueError
  else exists row', extract_numbers row line = Ok row'.
Proof.
  unfold conversion_fails, quantity_text, total_text, extract_numbers.
  destruct (search clean_pattern line) as [ m | ] eqn:E1.
  { destruct (clean_groups _ _ E1) as (P1 & P2 & P3).
    now apply fill_triple_outcome. }
  destruct (search colon_pattern line) as [ m | ] eqn:E2.
  { destruct (colon_groups _ _ E2) as (P1 & P2 & P3).
    now apply fill_triple_outcome. }
  destruct (search price_pattern line) as [ m | ] eqn:E3.
  { destruct (price_groups _ _ E3) as (P1 & P2). cbn [orb].
    now apply fill_prices_outcome. }
  cbn [orb]. eexists. reflexivity.
Qed.

Lemma conversion_fails_spec line :
  conversion_fails line = true <->
  (exists w, quantity_text line = Some w /\ too_long w = true) \/
  (exists g, total_text line = Some g /\ digitless g = true).
Proof.
  unfold conversion_fails. rewrite orb_true_iff. split.
  - intros [ H | H ]; [ left | right ].
    + destruct (quantity_text line) as [ w | ]; [ now exists w | discriminate H ].
    + destruct (total_text line) as [ g | ]; [ now exists g | discriminate H ].
  - intros [ (w & -> & H) | (g & -> & H) ]; [ now left | now right ].
Qed.

Lemma recover_quantity_returns row line :
  exists row', recover_quantity row line = Ok row'.
Proof.
  unfold recover_quantity.
  destruct (_ && _); [ | eexists; reflexivity ].
  destruct (Unit_Price_USD row) as [ u | ]; [ | eexists; reflexivity ].
  destruct (search (qty_pattern u) line) as [ m | ]; [ | eexists; reflexivity ].
  destruct (int_checked (group m 1)) as [ q | e ] eqn:E;
    [ eexists; reflexivity | ].
  apply int_checked_raises in E. subst e. eexists. reflexivity.
Qed.

Lemma candidate_test u :
  negb (contains "HSO CHINA" u) && negb (contains "CHINA" u)
  = negb (contains "CHINA" u).
Proof.
  destruct (contains "CHINA" u) eqn:C; [ now rewrite andb_false_r | ].
  destruct (contains "HSO CHINA" u) eqn:H; [ | reflexivity ].
  apply (contains_suffix "HSO " "CHINA") in H. congruence.
Qed.

Lemma parse_line_raises k raw e :
  parse_line k raw = Raise e <-> e = ValueError /\ unconvertible raw.
Proof.
  unfold parse_line, unconvertible. rewrite <- conversion_fails_spec.
  rewrite candidate_test.
  destruct (strip raw) as [ | c line ] eqn:L.
  { simpl. split; [ discriminate | ]. intros (_ & C & _). discriminate C. }
  rewrite <- L. assert (truthy (strip raw) = true) as -> by now rewrite L.
  simpl negb at 1. cbv iota.
  destruct (contains "CHINA" (upper (strip raw))) eqn:C; simpl negb; cbv iota.
  2:{ split; [ discriminate | ]. intros (_ & C' & _). discriminate C'. }
  pose proof (extract_numbers_outcome
                (extract_product (mkRow "" None None None k (strip raw))
                                 (strip raw)) (strip raw)) as O.
  destruct (conversion_fails (strip raw)).
  - rewrite O. simpl. split.
    + intros H. injection H as <-. now repeat split.
    + intros [ -> _ ]. reflexivity.
  - destruct O as (row1 & ->). simpl.
    destruct (recover_quantity_returns row1 (strip raw)) as (row2 & ->).
    simpl. split.
    + destruct (_ && _); discriminate.
    + intros (_ & _ & D). discriminate D.
Qed.

End Raising.

(** ** Signs *)

Section SignFacts.
Import PyNum.
Local Open Scope Z_scope.

Lemma shr_1_nonneg r : 0 <= shr_m r -> 0 <= shr_m (shr_1 r).
Proof.
  destruct r as [ m r s ]. simpl.
  destruct m as [ | [ p | p | ] | p ]; simpl; lia.
Qed.

Lemma iter_shr_1_nonneg p : forall r,
  0 <= shr_m r -> 0 <= shr_m (iter_pos shr_1 p r).
Proof.
  induction p as [ p IH | p IH | ]; intros r H; simpl.
  - apply IH, IH, shr_1_nonneg, H.
  - apply IH, IH, H.
  - apply shr_1_nonneg, H.
Qed.

Lemma shr_fexp_nonneg m e l :
  0 <= m -> 0 <= shr_m (fst (shr_fexp prec emax m e l)).
Proof.
  intros H. unfold shr_fexp, shr.
  destruct (fexp prec emax (Zdigits2 m + e) - e) as [ | p | p ]; simpl;
    try apply iter_shr_1_nonneg; now rewrite shr_m_of_loc.
Qed.

Lemma round_nearest_even_nonneg m l :
  0 <= m -> 0 <= round_nearest_even m l.
Proof.
  intros H. unfold round_nearest_even.
  destruct l as [ | [ | | ] ]; try lia.
  destruct (Z.even m); lia.
Qed.

Lemma round_aux_unsigned mx ex lx :
  0 <= mx -> unsigned (binary_round_aux prec emax false mx ex lx).
Proof.
  intros H. unfold binary_round_aux.
  pose proof (shr_fexp_nonneg mx ex lx H) as H1.
  destruct (shr_fexp prec emax mx ex lx) as [ r1 e1 ]. simpl in H1.
  pose proof (shr_fexp_nonneg _ e1 loc_Exact
                (round_nearest_even_nonneg _ (loc_of_shr_record r1) H1)) as H2.
  destruct (shr_fexp prec emax _ e1 loc_Exact) as [ r2 e2 ]. simpl in H2.
  destruct (shr_m r2) as [ | m | m ]; simpl; [ exact I | | lia ].
  destruct (Z.leb _ _); exact I.
Qed.

Lemma of_ratio_unsigned n d : unsigned (of_ratio n d).
Proof.
  unfold of_ratio, SFdiv, SFdiv_core_binary.
  match goal with
  | |- context [ Z.div_eucl ?a ?b ] =>
      pose proof (Z.div_eucl_eq a b ltac:(lia)) as Q;
      assert (0 <= a) as A;
      [ | pose proof (Z.mod_pos_bound a b ltac:(lia)) as M;
          unfold Z.modulo in M;
          destruct (Z.div_eucl a b) as [ q r ] ]
  end.
  - match goal with
    | |- 0 <= match ?s with _ => _ end => destruct s
    end; try lia.
    rewrite Z.shiftl_mul_pow2 by lia.
    apply Z.mul_nonneg_nonneg; [ lia | apply Z.pow_nonneg; lia ].
  - simpl xorb. apply round_aux_unsigned. nia.
Qed.

Lemma of_decimal_unsigned c q : unsigned (of_decimal c q).
Proof.
  unfold of_decimal. destruct c; try exact I.
  destruct (0 <=? q); apply of_ratio_unsigned.
Qed.

Lemma float_of_string_unsigned s x :
  float_of_string s = Ok x -> unsigned x.
Proof.
  unfold float_of_string. destruct (split_point s) as [ i f ].
  destruct (_ && _); [ | discriminate ].
  intros H. injection H as <-. apply of_decimal_unsigned.
Qed.

Lemma digit_val_nonneg c : is_digit c = true -> 0 <= digit_val c < 10.
Proof.
  unfold is_digit, in_range, digit_val. intros H.
  apply andb_prop in H. destruct H as [ L U ].
  apply Nat.leb_le in L, U. lia.
Qed.

Lemma digits_val_nonneg s : forall acc,
  0 <= acc -> all_digits s = true -> 0 <= digits_val acc s.
Proof.
  unfold all_digits.
  induction s as [ | c s IH ]; cbn [digits_val all_of]; intros acc A D.
  - exact A.
  - apply andb_prop in D. destruct D as [ Dc D ].
    apply IH; [ | exact D ]. pose proof (digit_val_nonneg _ Dc). lia.
Qed.

Lemma int_nonneg s q : int s = Ok q -> 0 <= q.
Proof.
  unfold int. destruct s as [ | c s ]; [ discriminate | ].
  destruct (all_digits (String c s)) eqn:D; [ | discriminate ].
  intros H. injection H as <-.
  change (0 <= digits_val 0 (String c s)).
  apply digits_val_nonneg; [ lia | exact D ].
Qed.

Lemma fill_triple_unsigned row m row' :
  fill_triple row m = Ok row' -> unsigned_row row'.
Proof.
  intros H. apply fill_triple_inv in H.
  destruct H as (_ & q & u & t & Q & U & T & Eq & Eu & Et).
  unfold unsigned_row. rewrite Eq, Eu, Et.
  repeat split; intros x E; injection E as <-.
  - eapply int_nonneg, Q.
  - eapply float_of_string_unsigned, U.
  - eapply float_of_string_unsigned, T.
Qed.

Lemma extract_numbers_unsigned row line row' :
  extract_numbers row line = Ok row' ->
  unsigned_row row -> unsigned_row row'.
Proof.
  unfold extract_numbers. intros H Inv.
  destruct (search clean_pattern line) as [ m | ];
    [ eapply fill_triple_unsigned, H | ].
  destruct (search colon_pattern line) as [ m | ];
    [ eapply fill_triple_unsigned, H | ].
  destruct (search price_pattern line) as [ m | ].
  - apply fill_prices_inv in H.
    destruct H as (_ & Q & u & t & U & T & Eu & Et).
    destruct Inv as (Iq & _). rewrite <- Q in Iq.
    repeat split; [ exact Iq | | ]; intros x E.
    + rewrite Eu in E. injection E as <-.
      eapply float_of_string_unsigned, U.
    + rewrite Et in E. injection E as <-.
      eapply float_of_string_unsigned, T.
  - injection H as <-. exact Inv.
Qed.

Lemma recover_quantity_unsigned row line row' :
  recover_quantity row line = Ok row' ->
  unsigned_row row -> unsigned_row row'.
Proof.
  unfold recover_quantity. intros H Inv.
  destruct (_ && _); [ | injection H as <-; exact Inv ].
  destruct (Unit_Price_USD row) as [ u | ] eqn:U;
    [ | injection H as <-; exact Inv ].
  destruct (search (qty_pattern u) line) as [ m | ];
    [ | injection H as <-; exact Inv ].
  destruct (int_checked (group m 1)) as [ q | e ] eqn:Q.
  - injection H as <-. destruct Inv as (_ & Iu & It).
    repeat split; [ | exact Iu | exact It ].
    simpl. intros x E. injection E as <-.
    apply int_checked_inv in Q. eapply int_nonneg, Q.
  - destruct e; try discriminate H. injection H as <-. exact Inv.
Qed.

Lemma emits_unsigned k raw row : emits k raw row -> unsigned_row row.
Proof.
  intros H. apply emits_inv in H. destruct H as (row1 & N & R & _).
  eapply recover_quantity_unsigned; [ exact R | ].
  eapply extract_numbers_unsigned; [ exact N | ].
  pose proof (extract_product_inv (blank_row k (strip raw)) (strip raw)) as P.
  simpl in P. destruct P as (Q & U & T & _).
  repeat split; intros x E;
    [ rewrite Q in E | rewrite U in E | rewrite T in E ]; discriminate E.
Qed.

End SignFacts.

(** ** Stripping *)

Section StripFacts.

Lemma rstrip_idem s : rstrip (rstrip s) = rstrip s.
Proof.
  induction s as [ | c s IH ]; simpl; [ reflexivity | ].
  destruct (rstrip s) as [ | c' s' ] eqn:E.
  - destruct (is_space c) eqn:Sc; simpl; [ reflexivity | ].
    now rewrite Sc.
  - simpl in IH. simpl.
    destruct (match rstrip s' with
              | "" => if is_space c' then "" else String c' ""
              | String a s0 => String c' (String a s0)
              end) eqn:E'; [ discriminate IH | ].
    now rewrite IH.
Qed.

Lemma rstrip_head c s :
  is_space c = false -> exists t, rstrip (String c s) = String c t.
Proof.
  intros Sc. simpl. destruct (rstrip s); [ rewrite Sc | ]; eexists; reflexivity.
Qed.

Lemma lstrip_head s :
  lstrip s = "" \/ exists c t, lstrip s = String c t /\ is_space c = false.
Proof.
  induction s as [ | c s IH ]; simpl; [ now left | ].
  destruct (is_space c) eqn:Sc; [ exact IH | ].
  right. now exists c, s.
Qed.

(** Stripping twice is stripping once. *)
Lemma strip_idem s : strip (strip s) = strip s.
Proof.
  unfold strip. destruct (lstrip_head s) as [ -> | (c & t & -> & Sc) ].
  - reflexivity.
  - destruct (rstrip_head c t Sc) as (t' & E). rewrite E.
    cbn [lstrip]. rewrite Sc, <- E. apply rstrip_idem.
Qed.

Lemma all_of_lstrip p s : all_of p s = true -> all_of p (lstrip s) = true.
Proof.
  induction s as [ | c s IH ]; simpl; [ reflexivity | ].
  intros A. destruct (is_space c); [ | exact A ].
  apply andb_prop in A. now apply IH.
Qed.

Lemma all_of_rstrip p s : all_of p s = true -> all_of p (rstrip s) = true.
Proof.
  induction s as [ | c s IH ]; simpl; [ reflexivity | ].
  intros A. apply andb_prop in A. destruct A as [ Pc A ].
  specialize (IH A). destruct (rstrip s) as [ | a s0 ].
  - destruct (is_space c); simpl; [ reflexivity | now rewrite Pc ].
  - change (p c && all_of p (String a s0) = true). now rewrite Pc, IH.
Qed.

Lemma all_of_strip p s : all_of p s = true -> all_of p (strip s) = true.
Proof. intros A. now apply all_of_rstrip, all_of_lstrip. Qed.

(** No line of a split text holds the separator. *)
Lemma split_lines sep s :
  Forall (fun line => all_of (fun c => negb (Ascii.eqb c sep)) line = true)
         (split sep s).
Proof.
  induction s as [ | c s IH ]; simpl.
  - constructor; [ reflexivity | constructor ].
  - destruct (Ascii.eqb c sep) eqn:E.
    + constructor; [ reflexivity | exact IH ].
    + destruct (split sep s) as [ | h r ].
      * constructor; [ simpl; now rewrite E | constructor ].
      * inversion IH; subst. constructor; [ simpl; now rewrite E | assumption ].
Qed.

End StripFacts.

(** ** Greedy runs *)

Section RunFacts.

Lemma star_chr_greedy p : forall fuel s,
  String.length (rest s) <= fuel ->
  star_loop (run (Chr p)) true Some fuel s =
  Some (MState (pos s + span p (rest s)) (after p (rest s)) (caps s)).
Proof.
  induction fuel as [ | fuel IH ]; intros [ i s caps ] L; simpl in L.
  - destruct s; [ | simpl in L; lia ]. simpl. now rewrite Nat.add_0_r.
  - cbn [star_loop run rest pos Re.caps].
    destruct s as [ | c t ]; cbn [orelse span after].
    + now rewrite Nat.add_0_r.
    + destruct (p c); cbn [orelse].
      * assert ((i <? S i)%nat = true) as -> by (apply Nat.ltb_lt; lia).
        rewrite IH by (simpl in *; lia). cbn [orelse rest pos Re.caps].
        now rewrite Nat.add_succ_r.
      * now rewrite Nat.add_0_r.
Qed.

Lemma run_at_least p : forall n s,
  run (at_least n (Chr p)) Some s =
  if (n <=? span p (rest s))%nat
  then Some (MState (pos s + span p (rest s)) (after p (rest s)) (caps s))
  else None.
Proof.
  induction n as [ | n IH ]; intros [ i s caps ].
  - cbn [at_least].
    change (run (Star true (Chr p)) Some (MState i s caps))
      with (star_loop (run (Chr p)) true Some (String.length s)
                      (MState i s caps)).
    rewrite star_chr_greedy by (simpl; lia). reflexivity.
  - cbn [at_least run rest pos Re.caps].
    destruct s as [ | c t ]; cbn [span after]; [ reflexivity | ].
    destruct (p c); [ | reflexivity ].
    rewrite IH. cbn [rest pos Re.caps].
    change (S n <=? S (span p t))%nat with (n <=? span p t)%nat.
    now rewrite Nat.add_succ_r.
Qed.

Lemma match_at_least p n i s :
  match_at (at_least n (Chr p)) i s =
  if (n <=? span p s)%nat then Some (Match i (i + span p s) []) else None.
Proof.
  unfold match_at. rewrite run_at_least. simpl.
  destruct (n <=? span p s)%nat; reflexivity.
Qed.

Lemma match_at_plus p i s :
  match_at (plus true (Chr p)) i s =
  if (1 <=? span p s)%nat then Some (Match i (i + span p s) []) else None.
Proof. apply (match_at_least p 1). Qed.

End RunFacts.

(** ** Substitution of runs *)

Section SubFacts.

Lemma sub_from_at_least p n repl i c t :
  sub_from (at_least (S n) (Chr p)) repl 0 i (String c t) =
  if (S n <=? span p (String c t))%nat
  then (repl ++ sub_from (at_least (S n) (Chr p)) repl (span p t) (S i) t)%string
  else String c (sub_from (at_least (S n) (Chr p)) repl 0 (S i) t).
Proof.
  cbn [sub_from]. rewrite match_at_least.
  destruct (S n <=? span p (String c t))%nat eqn:E; [ | reflexivity ].
  cbn [m_end]. apply Nat.leb_le in E. cbn [span] in E |- *.
  destruct (p c); [ | lia ].
  replace (i + S (span p t) - i) with (S (span p t)) by lia. reflexivity.
Qed.

Lemma sub_from_at_least_end p n repl i :
  sub_from (at_least (S n) (Chr p)) repl 0 i "" = "".
Proof. cbn [sub_from]. rewrite match_at_least. reflexivity. Qed.

Lemma space_not_digit c : is_space c = true -> is_digit c = false.
Proof.
  unfold is_space, is_digit, in_range. intros H.
  apply orb_prop in H.
  destruct H as [ H | H ]; apply andb_prop in H; destruct H as [ L U ];
    apply Nat.leb_le in L, U; apply andb_false_iff; left;
    apply Nat.leb_gt; lia.
Qed.

(** [re.sub(r'\s+', ' ', s)] leaves single spaces only. *)
Lemma single_spaced_sub s :
  (forall i, single_spaced false (sub_from spaces_pattern " " 0 i s) = true) /\
  (forall i, single_spaced true
               (sub_from spaces_pattern " " (span is_space s) i s) = true).
Proof.
  change spaces_pattern with (at_least 1 (Chr is_space)).
  induction s as [ | c t [ IHa IHb ] ].
  - split; intros i; cbn [span]; now rewrite sub_from_at_least_end.
  - assert (forall i, single_spaced false
              (sub_from (at_least 1 (Chr is_space)) " " 0 i (String c t))
              = true) as A.
    { intros i. rewrite sub_from_at_least. cbn [span].
      destruct (is_space c) eqn:Sc.
      - change (1 <=? S (span is_space t))%nat with true. cbv iota.
        change (" " ++ ?x)%string with (String " " x).
        cbn [single_spaced]. change (is_space " ") with true. cbv iota.
        simpl. apply IHb.
      - change (1 <=? 0)%nat with false. cbv iota.
        cbn [single_spaced]. rewrite Sc. apply IHa. }
    split; [ exact A | ].
    intros i. cbn [span]. destruct (is_space c) eqn:Sc.
    + cbn [sub_from]. apply IHb.
    + specialize (A i). rewrite sub_from_at_least in A |- *.
      cbn [span] in A |- *. rewrite Sc in A |- *.
      change (1 <=? 0)%nat with false in A |- *. cbv iota in A |- *.
      cbn [single_spaced] in A |- *. now rewrite Sc in A |- *.
Qed.

(** It puts no two runs of digits together. *)
Lemma runs_sub_spaces n s :
  (forall i l, runs_within n l s = true ->
     runs_within n l (sub_from spaces_pattern " " 0 i s) = true) /\
  (forall i, runs_within n n s = true ->
     runs_within n n
       (sub_from spaces_pattern " " (span is_space s) i s) = true).
Proof.
  change spaces_pattern with (at_least 1 (Chr is_space)).
  induction s as [ | c t [ IHa IHb ] ].
  - split; intros; cbn [span]; now rewrite sub_from_at_least_end.
  - assert (forall i l, runs_within n l (String c t) = true ->
              runs_within n l
                (sub_from (at_least 1 (Chr is_space)) " " 0 i (String c t))
              = true) as A.
    { intros i l H. rewrite sub_from_at_least. cbn [span].
      destruct (is_space c) eqn:Sc.
      - change (1 <=? S (span is_space t))%nat with true. cbv iota.
        change (" " ++ ?x)%string with (String " " x).
        cbn [runs_within] in H |- *. rewrite (space_not_digit _ Sc) in H.
        change (is_digit " ") with false. cbv iota. now apply IHb.
      - change (1 <=? 0)%nat with false. cbv iota.
        cbn [runs_within] in H |- *.
        destruct (is_digit c); [ | now apply IHa ].
        destruct l; [ discriminate H | now apply IHa ]. }
    split; [ exact A | ].
    intros i H. cbn [span]. destruct (is_space c) eqn:Sc.
    + cbn [sub_from]. apply IHb.
      cbn [runs_within] in H. now rewrite (space_not_digit _ Sc) in H.
    + now apply A.
Qed.

(** [re.sub(r'\d{8,}', '', s)] leaves no run of eight digits. *)
Lemma runs_sub_code s :
  (forall i l, l <= 7 -> span is_digit s <= l \/ l = 7 ->
     runs_within 7 l (sub_from code_pattern "" 0 i s) = true) /\
  (forall i,
     runs_within 7 7 (sub_from code_pattern "" (span is_digit s) i s) = true).
Proof.
  change code_pattern with (at_least 8 (Chr is_digit)).
  induction s as [ | c t [ IHa IHb ] ].
  - split; intros; cbn [span]; now rewrite sub_from_at_least_end.
  - assert (forall i l, l <= 7 -> span is_digit (String c t) <= l \/ l = 7 ->
              runs_within 7 l
                (sub_from (at_least 8 (Chr is_digit)) "" 0 i (String c t))
              = true) as A.
    { intros i l L H. rewrite sub_from_at_least.
      destruct (8 <=? span is_digit (String c t))%nat eqn:E.
      - apply Nat.leb_le in E.
        assert (l = 7) as -> by lia.
        change ("" ++ ?x)%string with x. apply IHb.
      - apply Nat.leb_gt in E. cbn [runs_within]. cbn [span] in E, H.
        destruct (is_digit c).
        + destruct l as [ | l ]; [ lia | ]. apply IHa; lia.
        + apply IHa; [ lia | now right ]. }
    split; [ exact A | ].
    intros i. cbn [span]. destruct (is_digit c) eqn:Dc.
    + cbn [sub_from]. apply IHb.
    + apply A; [ lia | now right ].
Qed.

Lemma runs_lstrip n s :
  runs_within n n s = true -> runs_within n n (lstrip s) = true.
Proof.
  induction s as [ | c t IH ]; simpl; [ reflexivity | ].
  destruct (is_space c) eqn:Sc; [ | intros H; exact H ].
  rewrite (space_not_digit _ Sc). exact IH.
Qed.

Lemma runs_rstrip n s : forall l,
  runs_within n l s = true -> runs_within n l (rstrip s) = true.
Proof.
  induction s as [ | c t IH ]; intros l; [ reflexivity | ].
  cbn [rstrip]. intros H. cbn [runs_within] in H.
  destruct (rstrip t) as [ | a t' ] eqn:E.
  - destruct (is_space c); [ reflexivity | ].
    cbn [runs_within]. destruct (is_digit c); [ | reflexivity ].
    destruct l; [ discriminate H | reflexivity ].
  - cbn [runs_within]. fold (runs_within n).
    destruct (is_digit c).
    + destruct l; [ discriminate H | ]. apply (IH l H).
    + apply (IH n H).
Qed.

Lemma runs_strip n s :
  runs_within n n s = true -> runs_within n n (strip s) = true.
Proof. intros H. now apply runs_rstrip, runs_lstrip. Qed.

Lemma single_spaced_lstrip s : forall b,
  single_spaced b s = true -> single_spaced false (lstrip s) = true.
Proof.
  induction s as [ | c t IH ]; intros b; simpl; [ reflexivity | ].
  destruct (is_space c) eqn:Sc.
  - intros H. apply andb_prop in H. destruct H as [ _ H ]. now apply (IH true).
  - intros H. cbn [single_spaced]. now rewrite Sc.
Qed.

Lemma single_spaced_rstrip s : forall b,
  single_spaced b s = true -> single_spaced b (rstrip s) = true.
Proof.
  induction s as [ | c t IH ]; intros b; [ reflexivity | ].
  cbn [rstrip]. intros H. cbn [single_spaced] in H.
  destruct (rstrip t) as [ | a t' ] eqn:E.
  - destruct (is_space c) eqn:Sc; [ reflexivity | ].
    cbn [single_spaced]. now rewrite Sc.
  - cbn [single_spaced]. fold single_spaced.
    destruct (is_space c).
    + apply andb_prop in H. destruct H as [ H1 H2 ].
      rewrite H1. apply (IH true H2).
    + apply (IH false H).
Qed.

Lemma single_spaced_strip s b :
  single_spaced b s = true -> single_spaced false (strip s) = true.
Proof.
  intros H. apply single_spaced_rstrip. eapply single_spaced_lstrip, H.
Qed.

(** What the two checks say of the characters and the runs of a text. *)
Lemma single_spaced_inside pre : forall b c post,
  single_spaced b (pre ++ String c post) = true -> is_space c = true ->
  c = " "%char /\
  forall d post', post = String d post' -> is_space d = false.
Proof.
  induction pre as [ | a pre IH ]; intros b c post; simpl.
  - intros H Sc. rewrite Sc in H.
    apply andb_prop in H. destruct H as [ H1 H2 ].
    apply andb_prop in H1. destruct H1 as [ H1 _ ].
    apply Ascii.eqb_eq in H1. split; [ exact H1 | ].
    intros d post' ->. simpl in H2.
    destruct (is_space d); [ | reflexivity ].
    now rewrite andb_false_r in H2.
  - intros H Sc. destruct (is_space a).
    + apply andb_prop in H. destruct H as [ _ H ]. now apply (IH true).
    + now apply (IH false).
Qed.

Lemma runs_within_head n w : forall l post,
  runs_within n l (w ++ post) = true -> PyNum.all_digits w = true ->
  String.length w <= l.
Proof.
  unfold PyNum.all_digits.
  induction w as [ | c w IH ]; intros l post; simpl; [ lia | ].
  intros H A. apply andb_prop in A. destruct A as [ Dc A ].
  rewrite Dc in H. destruct l; [ discriminate H | ].
  specialize (IH _ _ H A). lia.
Qed.

Lemma runs_within_inside n pre : forall l w post,
  l <= n -> runs_within n l (pre ++ w ++ post) = true ->
  PyNum.all_digits w = true -> String.length w <= n.
Proof.
  induction pre as [ | a pre IH ]; intros l w post L; simpl.
  - intros H A. pose proof (runs_within_head _ _ _ _ H A). lia.
  - intros H A. destruct (is_digit a).
    + destruct l; [ discriminate H | ]. apply (IH l w post); [ lia | | ]; assumption.
    + apply (IH n w post); [ lia | | ]; assumption.
Qed.

Lemma normal_name_of s :
  strip s = s -> single_spaced false s = true -> runs_within 7 7 s = true ->
  normal_name s.
Proof.
  intros E Sp R. split; [ exact E | ]. split.
  - intros pre c post -> Sc. apply (single_spaced_inside pre false c post Sp Sc).
  - intros pre w post -> A.
    apply (runs_within_inside 7 pre 7 w post (le_n 7) R A).
Qed.

(** The product name of every line is in normal form. *)
Lemma product_of_normal line : normal_name (product_of line).
Proof.
  unfold product_of, extract_product.
  destruct (search product_pattern line) as [ m | ]; cbn [Product set_Product blank_row].
  - apply normal_name_of.
    + apply strip_idem.
    + eapply single_spaced_strip. apply (proj1 (single_spaced_sub _)).
    + apply runs_strip. apply (proj1 (runs_sub_spaces 7 _)).
      apply runs_strip. apply (proj1 (runs_sub_code _)); [ lia | now right ].
  - apply normal_name_of; reflexivity.
Qed.

End SubFacts.

(** ** Cells of rows without a sign *)

Section CellFacts.
Import PyNum.

Lemma str_int_digits n : (0 <= n)%Z -> digits_text (str_int n).
Proof.
  intros H. unfold str_int.
  assert ((n <? 0)%Z = false) as -> by (apply Z.ltb_ge; exact H).
  destruct (numeral_digits n) as [ A N ]. now split.
Qed.

Lemma fixed_point_unsigned t : unsigned_price (fixed_point 2 t).
Proof.
  destruct (fixed_point_shape 2 t) as (ip & fp & E & N & Ai & Af & L).
  right. exists ip, fp. repeat split; assumption.
Qed.

Lemma format_f_unsigned x : unsigned x -> unsigned_price (format_f 2 x).
Proof.
  destruct x as [ [ | ] | [ | ] | | [ | ] m e ]; simpl; intros H;
    try contradiction.
  - apply fixed_point_unsigned.
  - now left.
  - apply fixed_point_unsigned.
Qed.

Lemma unsigned_row_cells row : unsigned_row row -> unsigned_cells row.
Proof.
  intros (Q & U & T). repeat split.
  - destruct (Quantity row) as [ q | ]; [ right | now left ].
    apply str_int_digits. now apply Q.
  - destruct (Unit_Price_USD row) as [ u | ]; [ right | now left ].
    apply format_f_unsigned. now apply U.
  - destruct (Total_Price_USD row) as [ t | ]; [ right | now left ].
    apply format_f_unsigned. now apply T.
Qed.

End CellFacts.

(** ** Counting over the rows of the extractor *)

Section CountFacts.
Import PyNum.
Local Open Scope Z_scope.

Lemma count_bounds cond rows :
  0 <= count cond rows <= Z.of_nat (List.length rows).
Proof.
  induction rows as [ | row rows IH ]; [ unfold count; simpl; lia | ].
  rewrite count_cons. simpl List.length.
  destruct (cond row); simpl Z.b2z; lia.
Qed.

Lemma count_all cond rows :
  Forall (fun row => cond row = true) rows ->
  count cond rows = Z.of_nat (List.length rows).
Proof.
  induction 1 as [ | row rows H _ IH ]; [ reflexivity | ].
  rewrite count_cons, H, IH. simpl List.length. simpl Z.b2z. lia.
Qed.

Lemma count_same f g rows :
  Forall (fun row => f row = g row) rows -> count f rows = count g rows.
Proof.
  induction 1 as [ | row rows H _ IH ]; [ reflexivity | ].
  now rewrite !count_cons, H, IH.
Qed.

Lemma count_le f g rows :
  Forall (fun row => f row = true -> g row = true) rows ->
  count f rows <= count g rows.
Proof.
  induction 1 as [ | row rows H _ IH ]; [ reflexivity | ].
  rewrite !count_cons. destruct (f row); [ rewrite H by reflexivity | ];
    destruct (g row); simpl Z.b2z; lia.
Qed.

(** The report of a non-empty table, field by field. *)
Lemma analyze_table_counts row rows :
  let table_data := row :: rows in
  let n := Z.of_nat (List.length table_data) in
  exists a,
    analyze_table table_data = Ok (Table a) /\
    total_rows a = n /\
    products a = ratio (count (fun r => PyStr.truthy (Product r)) table_data) n /\
    quantities a =
      ratio (count (fun r => is_filled (Quantity r)) table_data) n /\
    unit_prices a =
      ratio (count (fun r => is_filled (Unit_Price_USD r)) table_data) n /\
    total_prices a =
      ratio (count (fun r => is_filled (Total_Price_USD r)) table_data) n.
Proof.
  intros table_data n.
  destruct (truediv_share (filled_slots table_data) (n * 3))
    as (share & T & _).
  { apply filled_slots_bounds. }
  { unfold n, table_data. simpl List.length. lia. }
  unfold analyze_table. fold table_data.
  change (match table_data with [] => Ok NoTable | _ :: _ => ?x end) with x.
  fold n. rewrite counts_slots, T. simpl bind.
  eexists. split; [ reflexivity | ]. now repeat split.
Qed.

Lemma parsed_rows_fields text rows :
  parse_invoice_table text = Ok rows ->
  Forall (fun row =>
            PyStr.truthy (Product row) = true /\
            is_filled (Unit_Price_USD row) = is_filled (Total_Price_USD row) /\
            (is_filled (Quantity row) = true ->
             is_filled (Unit_Price_USD row) = true)) rows.
Proof.
  intros H. apply Forall_forall. intros row I.
  destruct (emitted_inv _ _ _ H I) as (k & raw & _ & E).
  apply emits_fields in E. destruct E as (_ & _ & _ & L & F & Q).
  repeat split; [ | exact F | exact Q ].
  destruct (Product row); [ simpl in L; lia | reflexivity ].
Qed.

End CountFacts.

(** ** Numerals that read back *)

Section CanonicalFacts.
Import PyNum.
Local Open Scope Z_scope.

Lemma digits_of_fuel f : forall f' n acc,
  0 <= n < 2 ^ Z.of_nat (S f) -> n < 2 ^ Z.of_nat (S f') ->
  digits_of (S f) n acc = digits_of (S f') n acc.
Proof.
  induction f as [ | f IH ]; intros f' n acc H H'.
  - change (2 ^ Z.of_nat 1) with 2 in H.
    cbn [digits_of]. assert ((n <? 10) = true) as -> by (apply Z.ltb_lt; lia).
    reflexivity.
  - cbn [digits_of]. destruct (n <? 10) eqn:L; [ reflexivity | ].
    apply Z.ltb_ge in L.
    destruct f' as [ | f' ];
      [ change (2 ^ Z.of_nat 1) with 2 in H'; lia | ].
    apply IH.
    + rewrite (Nat2Z.inj_succ (S f)), Z.pow_succ_r in H by lia.
      split; [ apply Z.div_pos; lia | apply Z.div_lt_upper_bound; lia ].
    + rewrite (Nat2Z.inj_succ (S f')), Z.pow_succ_r in H' by lia.
      apply Z.div_lt_upper_bound; lia.
Qed.

Lemma log2_fuel n : 0 <= n -> n < 2 ^ Z.of_nat (S (Z.to_nat (Z.log2 n))).
Proof.
  intros H. rewrite Nat2Z.inj_succ, Z2Nat.id by apply Z.log2_nonneg.
  destruct (Z.eq_dec n 0) as [ -> | N ]; [ reflexivity | ].
  apply Z.log2_spec. lia.
Qed.

Lemma numeral_snoc n d :
  0 < n -> 0 <= d < 10 ->
  numeral (10 * n + d) = (numeral n ++ String (digit_chr d) "")%string.
Proof.
  intros N D. unfold numeral at 1. cbn [digits_of].
  assert ((10 * n + d <? 10) = false) as -> by (apply Z.ltb_ge; lia).
  assert ((10 * n + d) mod 10 = d) as ->.
  { rewrite Z.add_comm, Z.mul_comm, Z.mod_add by lia. apply Z.mod_small, D. }
  assert ((10 * n + d) / 10 = n) as ->.
  { rewrite Z.add_comm, Z.mul_comm, Z.div_add by lia.
    rewrite Z.div_small by lia. reflexivity. }
  assert (3 <= Z.log2 (10 * n + d)) as L3.
  { change 3 with (Z.log2 8). apply Z.log2_le_mono. lia. }
  assert (3 + Z.log2 n <= Z.log2 (10 * n + d)) as L.
  { rewrite <- (Z.log2_mul_pow2 n 3) by lia. apply Z.log2_le_mono.
    change (2 ^ 3) with 8. lia. }
  destruct (Z.to_nat (Z.log2 (10 * n + d))) as [ | F ] eqn:EF; [ lia | ].
  rewrite digits_of_acc. f_equal. unfold numeral.
  apply digits_of_fuel.
  - split; [ lia | ]. rewrite <- EF, Z2Nat.id by lia.
    pose proof (Z.log2_spec n N) as [ _ U ].
    apply Z.lt_le_trans with (2 ^ Z.succ (Z.log2 n)); [ exact U | ].
    apply Z.pow_le_mono_r; lia.
  - apply log2_fuel. lia.
Qed.

Lemma digit_chr_val c : is_digit c = true -> digit_chr (digit_val c) = c.
Proof.
  intros D. pose proof (digit_val_nonneg c D) as B.
  unfold digit_chr, digit_val in *.
  replace (Z.of_nat (code c) - 48 + 48) with (Z.of_nat (code c)) by lia.
  rewrite Nat2Z.id. apply ascii_nat_embedding.
Qed.

Lemma numeral_digit c :
  is_digit c = true -> numeral (digit_val c) = String c "".
Proof.
  intros D. pose proof (digit_val_nonneg c D) as B.
  unfold numeral. cbn [digits_of].
  assert ((digit_val c <? 10) = true) as -> by (apply Z.ltb_lt; lia).
  rewrite Z.mod_small by lia. now rewrite digit_chr_val.
Qed.

Lemma numeral_append t : forall acc,
  0 < acc -> all_digits t = true ->
  numeral (digits_val acc t) = (numeral acc ++ t)%string.
Proof.
  unfold all_digits.
  induction t as [ | c t IH ]; intros acc A D; cbn [digits_val all_of] in *.
  - now rewrite append_nil_r.
  - apply andb_prop in D. destruct D as [ Dc D ].
    pose proof (digit_val_nonneg c Dc) as B.
    rewrite IH by (try lia; exact D).
    rewrite numeral_snoc by lia. rewrite (digit_chr_val c Dc).
    now rewrite append_assoc.
Qed.

Lemma digit_val_zero c : is_digit c = true -> digit_val c = 0 -> c = "0"%char.
Proof.
  intros D Z. rewrite <- (digit_chr_val c D), Z. reflexivity.
Qed.

Lemma digits_val_head c s : digits_val 0 (String c s) = digits_val (digit_val c) s.
Proof. cbn [digits_val]. f_equal. Qed.

(** Written again, the value of a canonical numeral gives the numeral. *)
Lemma numeral_canonical s :
  canonical s -> all_digits s = true -> numeral (digits_val 0 s) = s.
Proof.
  intros [ -> | (c & t & -> & N) ] D; [ reflexivity | ].
  unfold all_digits in D. cbn [all_of] in D.
  apply andb_prop in D. destruct D as [ Dc D ].
  pose proof (digit_val_nonneg c Dc) as B.
  assert (digit_val c <> 0) by (intros Z; now apply N, digit_val_zero).
  rewrite digits_val_head.
  rewrite numeral_append by (try lia; exact D).
  now rewrite (numeral_digit c Dc).
Qed.

Lemma digits_val_bound s : forall acc,
  0 <= acc -> all_digits s = true ->
  acc * 10 ^ Z.of_nat (String.length s) <= digits_val acc s
  < (acc + 1) * 10 ^ Z.of_nat (String.length s).
Proof.
  unfold all_digits.
  induction s as [ | c s IH ]; intros acc A D;
    cbn [digits_val all_of String.length] in *.
  - change (10 ^ Z.of_nat 0) with 1. lia.
  - apply andb_prop in D. destruct D as [ Dc D ].
    pose proof (digit_val_nonneg c Dc) as B.
    specialize (IH (10 * acc + digit_val c) ltac:(lia) D).
    rewrite Nat2Z.inj_succ, Z.pow_succ_r by lia.
    assert (0 < 10 ^ Z.of_nat (String.length s)) as P
      by (apply Z.pow_pos_nonneg; lia).
    remember (10 ^ Z.of_nat (String.length s)) as X eqn:HX. clear HX.
    remember (digits_val (10 * acc + digit_val c) s) as V eqn:HV. clear HV.
    nia.
Qed.

Lemma substring_suffix a : forall b,
  substring (String.length a) (String.length b) (a ++ b) = b.
Proof.
  induction a as [ | c a IH ]; intros b; simpl.
  - pose proof (substring_prefix b "") as P.
    now rewrite append_nil_r in P.
  - apply IH.
Qed.

(** The cents of a canonical price with two decimals, written with the
    point before the last two digits, give the price. *)
Lemma fixed_point_canonical ip fp :
  canonical ip -> all_digits ip = true -> all_digits fp = true ->
  String.length fp = 2%nat ->
  fixed_point 2 (digits_val 0 (ip ++ fp)) = (ip ++ "." ++ fp)%string.
Proof.
  intros C Di Df Lf.
  destruct fp as [ | a [ | b [ | ] ] ]; try discriminate Lf. clear Lf.
  unfold all_digits in Df. cbn [all_of] in Df.
  apply andb_prop in Df. destruct Df as [ Da Df ].
  apply andb_prop in Df. destruct Df as [ Db _ ].
  pose proof (digit_val_nonneg a Da) as Ba.
  pose proof (digit_val_nonneg b Db) as Bb.
  destruct C as [ -> | (c & t & -> & N) ].
  - change (digits_val 0 ("0" ++ String a (String b "")))
      with (digits_val 0 (String a (String b ""))).
    rewrite digits_val_head.
    destruct (Z.eq_dec (digit_val a) 0) as [ Z | Z ].
    + rewrite Z. rewrite (digit_val_zero a Da Z).
      rewrite digits_val_head. cbn [digits_val].
      unfold fixed_point. rewrite (numeral_digit b Db). reflexivity.
    + unfold fixed_point.
      rewrite numeral_append
        by (try lia; unfold all_digits; cbn [all_of]; now rewrite Db).
      rewrite (numeral_digit a Da). reflexivity.
  - assert (canonical (String c t ++ String a (String b "")))
      as C by (right; now exists c, (t ++ String a (String b ""))%string).
    assert (all_digits (String c t ++ String a (String b "")) = true) as D.
    { unfold all_digits in *. rewrite all_of_app, Di. cbn [all_of].
      now rewrite Da, Db. }
    assert (zfill 3 (String c t ++ String a (String b ""))
            = (String c t ++ String a (String b ""))%string) as Zf.
    { unfold zfill.
      replace (3 - String.length (String c t ++ String a (String b "")))%nat
        with 0%nat by (rewrite length_append; cbn [String.length]; lia).
      reflexivity. }
    unfold fixed_point. rewrite (numeral_canonical _ C D), Zf.
    rewrite length_append.
    replace (String.length (String c t) + String.length (String a (String b "")) - 2)%nat
      with (String.length (String c t)) by (cbn [String.length]; lia).
    rewrite substring_prefix.
    change 2%nat with (String.length (String a (String b ""))) at 1.
    rewrite substring_suffix. reflexivity.
Qed.

End CanonicalFacts.

(** ** The limit on conversions *)

Section RangeFacts.
Import PyNum.
Local Open Scope Z_scope.

Lemma limit_positive : 0 < 10 ^ max_str_digits.
Proof. apply Z.pow_pos_nonneg; [ lia | discriminate ]. Qed.

Lemma str_checked_spec n :
  str_checked n = if Z.abs n <? 10 ^ max_str_digits
                  then Ok (str_int n) else Raise ValueError.
Proof.
  unfold str_checked. rewrite Z.leb_antisym.
  destruct (Z.abs n <? 10 ^ max_str_digits); reflexivity.
Qed.

Lemma str_checked_printable n :
  printable n -> str_checked n = Ok (str_int n).
Proof.
  unfold printable. intros P. rewrite str_checked_spec.
  apply Z.ltb_lt in P. now rewrite P.
Qed.

Lemma str_checked_raises n e : str_checked n = Raise e -> e = ValueError.
Proof.
  unfold str_checked. destruct (_ <=? _); [ congruence | discriminate ].
Qed.

(** What [int] makes of at most 4300 digits is printed again. *)
Lemma int_checked_range s q :
  int_checked s = Ok q -> 0 <= q < 10 ^ max_str_digits.
Proof.
  intros H. apply int_checked_inv in H. destruct H as [ H L ].
  unfold int in H. destruct s as [ | c s ]; [ discriminate H | ].
  destruct (all_digits (String c s)) eqn:D; [ | discriminate H ].
  injection H as <-.
  pose proof (digits_val_bound (String c s) 0 ltac:(lia) D) as B.
  assert (10 ^ Z.of_nat (String.length (String c s)) <= 10 ^ max_str_digits)
    as M by (apply Z.pow_le_mono_r; lia).
  change (0 <= digits_val 0 (String c s) < 10 ^ max_str_digits).
  remember (digits_val 0 (String c s)) as v.
  remember (10 ^ Z.of_nat (String.length (String c s))) as p.
  remember (10 ^ max_str_digits) as lim.
  lia.
Qed.

Lemma fill_triple_quantity row m row' :
  fill_triple row m = Ok row' ->
  exists q, int_checked (group m 1) = Ok q /\ Quantity row' = Some q.
Proof.
  unfold fill_triple. intros H.
  inv_bind H. inv_bind H. inv_bind H. injection H as <-.
  exists a. now split.
Qed.

Lemma fill_triple_range row m row' :
  fill_triple row m = Ok row' -> quantity_in_range row'.
Proof.
  intros H. apply fill_triple_quantity in H. destruct H as (q & Q & E).
  intros x Ex. rewrite E in Ex. injection Ex as <-.
  now apply (int_checked_range (group m 1)).
Qed.

Lemma extract_numbers_range row line row' :
  extract_numbers row line = Ok row' ->
  quantity_in_range row -> quantity_in_range row'.
Proof.
  unfold extract_numbers. intros H Inv.
  destruct (search clean_pattern line) as [ m | ];
    [ eapply fill_triple_range, H | ].
  destruct (search colon_pattern line) as [ m | ];
    [ eapply fill_triple_range, H | ].
  destruct (search price_pattern line) as [ m | ].
  - apply fill_prices_inv in H. destruct H as (_ & Q & _).
    intros x E. rewrite Q in E. now apply Inv.
  - injection H as <-. exact Inv.
Qed.

Lemma recover_quantity_range row line row' :
  recover_quantity row line = Ok row' ->
  quantity_in_range row -> quantity_in_range row'.
Proof.
  unfold recover_quantity. intros H Inv.
  destruct (_ && _); [ | injection H as <-; exact Inv ].
  destruct (Unit_Price_USD row) as [ u | ] eqn:U;
    [ | injection H as <-; exact Inv ].
  destruct (search (qty_pattern u) line) as [ m | ];
    [ | injection H as <-; exact Inv ].
  destruct (int_checked (group m 1)) as [ q | e ] eqn:Q.
  - injection H as <-. simpl. intros x E. injection E as <-.
    now apply (int_checked_range (group m 1)).
  - destruct e; try discriminate H. injection H as <-. exact Inv.
Qed.

Lemma emits_range k raw row : emits k raw row -> quantity_in_range row.
Proof.
  intros H. apply emits_inv in H. destruct H as (row1 & N & R & _).
  eapply recover_quantity_range; [ exact R | ].
  eapply extract_numbers_range; [ exact N | ].
  pose proof (extract_product_inv (blank_row k (strip raw)) (strip raw)) as P.
  simpl in P. destruct P as (Q & _).
  intros x E. rewrite Q in E. discriminate E.
Qed.

(** Every quantity of a returned table is within the limit. *)
Lemma parsed_quantities_in_range text rows :
  parse_invoice_table text = Ok rows -> Forall quantity_in_range rows.
Proof.
  intros H. apply Forall_forall. intros row I.
  destruct (emitted_inv _ _ _ H I) as (k & line & _ & E).
  eapply emits_range, E.
Qed.

Lemma total_nonneg rows :
  Forall quantity_in_range rows -> 0 <= total (filled_values Quantity rows).
Proof.
  induction 1 as [ | row rows R _ IH ]; [ simpl; lia | ].
  unfold filled_values in *. cbn [flat_map].
  destruct (Quantity row) as [ q | ] eqn:Q; [ | exact IH ].
  specialize (R q Q). unfold total in *. cbn [app fold_right].
  remember (10 ^ max_str_digits) as lim. lia.
Qed.

End RangeFacts.

(** ** Prices with two decimals *)

Section PriceFacts.
Import PyNum.
Local Open Scope Z_scope.

Lemma fexp_wide K j x :
  K + j <= 52 -> 0 <= j -> 0 <= K -> x <= K + 1 -> fexp prec emax x <= - j.
Proof. unfold fexp, emin, prec, emax. lia. Qed.

Lemma under_shr_fexp_wide K L B j m e l :
  in_reach_wide K B j -> under L B j e (shr_record_of_loc m l) ->
  under L B j (snd (shr_fexp prec emax m e l))
              (fst (shr_fexp prec emax m e l)).
Proof.
  intros (J & K0 & KJ & HB) U. unfold shr_fexp, shr.
  destruct (fexp prec emax (Zdigits2 m + e) - e) as [ | p | p ] eqn:N;
    simpl; try exact U.
  rewrite <- N. replace (e + (fexp prec emax (Zdigits2 m + e) - e))
    with (e + Zpos p) by lia.
  apply under_iter; [ | exact U ].
  assert (F : fexp prec emax (Zdigits2 m + e) <= - j); [ | lia ].
  apply (fexp_wide K); try lia.
  destruct U as (E & L0 & M & H). rewrite shr_m_of_loc in M, H.
  assert (P : 0 < 2 ^ (- j - e)) by (apply Z.pow_pos_nonneg; lia).
  assert (Pj : 0 < 2 ^ j) by (apply Z.pow_pos_nonneg; lia).
  assert (Pk : 0 < 2 ^ K) by (apply Z.pow_pos_nonneg; lia).
  assert (S : 2 ^ (- e) = 2 ^ j * 2 ^ (- j - e))
    by (rewrite <- Z.pow_add_r by lia; f_equal; lia).
  assert (Zdigits2 m <= K + 1 - e); [ | lia ].
  apply Zdigits2_le; [ | lia ].
  split; [ nia | ].
  replace (K + 1 - e) with (1 + (K + - e)) by lia.
  rewrite Z.pow_add_r, Z.pow_add_r by lia.
  change (2 ^ 1) with 2. rewrite S.
  assert (m <= B * 2 ^ (- j - e)) by lia.
  remember (2 ^ (- j - e)) as X. remember (2 ^ j) as Y. remember (2 ^ K) as W.
  assert (B * X <= W * Y * X) by nia. nia.
Qed.

Lemma round_aux_within_wide K L B j mx ex lx :
  in_reach_wide K B j -> under L B j ex (shr_record_of_loc mx lx) ->
  within L B j (binary_round_aux prec emax false mx ex lx).
Proof.
  intros HB U. unfold binary_round_aux.
  pose proof (under_shr_fexp_wide K L B j mx ex lx HB U) as U1.
  destruct (shr_fexp prec emax mx ex lx) as (r1, e1). simpl in U1.
  apply round_nearest_even_under in U1.
  apply (under_shr_fexp_wide K L B j _ _ _ HB) in U1.
  destruct (shr_fexp prec emax
              (round_nearest_even (shr_m r1) (loc_of_shr_record r1)) e1
              loc_Exact) as (r2, e2).
  simpl in U1. destruct U1 as (E & L0 & M & H).
  assert (P : 0 < 2 ^ (- j - e2)) by (apply Z.pow_pos_nonneg; lia).
  destruct (shr_m r2) as [ | m | m ]; [ simpl; nia | | nia ].
  destruct (Z.leb e2 (Z.sub emax prec)) eqn:Le.
  - split; [ exact E | lia ].
  - apply Z.leb_gt in Le. destruct HB as (J & _).
    unfold emax, prec in Le. lia.
Qed.

Lemma digits2_pos_ge p : 2 ^ (Zpos (digits2_pos p) - 1) <= Zpos p.
Proof.
  induction p as [ p IH | p IH | ]; simpl digits2_pos;
    rewrite ?Pos2Z.inj_succ.
  - replace (Z.succ (Z.pos (digits2_pos p)) - 1)
      with (Z.succ (Z.pos (digits2_pos p) - 1)) by lia.
    rewrite Z.pow_succ_r by lia. lia.
  - replace (Z.succ (Z.pos (digits2_pos p)) - 1)
      with (Z.succ (Z.pos (digits2_pos p) - 1)) by lia.
    rewrite Z.pow_succ_r by lia. lia.
  - simpl. lia.
Qed.

(** A quotient of two integers below 2^K rounds to a value between any
    two bounds around it that are themselves binary64 values. *)
Lemma of_ratio_within_wide K L B j n d :
  in_reach_wide K B j -> 0 <= L ->
  L * Zpos d <= Zpos n * 2 ^ j <= B * Zpos d ->
  within L B j (of_ratio n d).
Proof.
  intros R L0 H. pose proof R as (J0 & K0 & KJ & B0 & B1).
  unfold of_ratio, SFdiv, SFdiv_core_binary.
  set (e' := Z.min (fexp prec emax (Zdigits2 (Zpos n) + 0 - (Zdigits2 (Zpos d) + 0)))
                   (0 - 0)).
  assert (Pj : 0 < 2 ^ j) by (apply Z.pow_pos_nonneg; lia).
  assert (Pk : 0 < 2 ^ K) by (apply Z.pow_pos_nonneg; lia).
  assert (E : e' <= - j /\ e' <= 0).
  { unfold e'. simpl Zdigits2. split; [ | lia ].
    assert (Zpos (digits2_pos n) - Zpos (digits2_pos d) <= K) as D.
    { assert (Zpos (digits2_pos n) <= K + Zpos (digits2_pos d)); [ | lia ].
      apply digits2_pos_le; [ | lia ].
      rewrite Z.pow_add_r by lia.
      pose proof (digits2_pos_gt d) as Gd.
      remember (2 ^ Zpos (digits2_pos d)) as D2. remember (2 ^ K) as W.
      remember (2 ^ j) as Y.
      assert (Zpos n * Y <= W * Y * Zpos d) by nia.
      assert (Zpos n <= W * Zpos d) by nia. nia. }
    assert (fexp prec emax (Zpos (digits2_pos n) + 0 - (Zpos (digits2_pos d) + 0))
            <= - j); [ | lia ].
    apply (fexp_wide K); lia. }
  destruct E as (E & E0).
  set (m' := match 0 - 0 - e' with
             | Z.pos _ => Z.shiftl (Zpos n) (0 - 0 - e')
             | 0 => Zpos n
             | Z.neg _ => 0
             end).
  assert (M : m' = Zpos n * 2 ^ (- e')).
  { unfold m'. replace (0 - 0 - e') with (- e') by lia.
    destruct (- e') as [ | p | p ] eqn:S; [ simpl; lia | | lia ].
    now rewrite Z.shiftl_mul_pow2. }
  assert (S : 2 ^ (- e') = 2 ^ j * 2 ^ (- j - e'))
    by (rewrite <- Z.pow_add_r by lia; f_equal; lia).
  assert (P : 0 < 2 ^ (- j - e')) by (apply Z.pow_pos_nonneg; lia).
  assert (DE : Z.div_eucl m' (Zpos d) = (m' / Zpos d, m' mod Zpos d))
    by (unfold Z.div, Z.modulo; now destruct (Z.div_eucl m' (Zpos d))).
  rewrite DE. apply (round_aux_within_wide K); [ exact R | ].
  unfold under. rewrite shr_m_of_loc.
  clearbody m' e'. subst m'. rewrite S.
  remember (2 ^ (- j - e')) as X eqn:HX. clear HX S.
  remember (2 ^ j) as Y eqn:HY. clear HY.
  split; [ lia | ]. split; [ exact L0 | ].
  split; [ apply Z.div_le_lower_bound; [ lia | nia ] | ].
  destruct (Z.eq_dec (Zpos n * Y) (B * Zpos d)) as [ Q | Q ].
  - right.
    replace (Zpos n * (Y * X)) with (B * X * Zpos d) by nia.
    rewrite Z.div_mul, Z.mod_mul by lia.
    unfold new_location, new_location_even, new_location_odd.
    destruct (Z.even (Zpos d)); simpl; repeat split; lia.
  - left. assert (Zpos n * (Y * X) / Zpos d < B * X); [ | lia ].
    apply Z.div_lt_upper_bound; [ lia | ].
    assert (Zpos n * Y < B * Zpos d) by lia. nia.
Qed.

(** Two decimals of a value between L and B units of 2^-j: the
    hundredths printed are within one half of a hundred times the value. *)
Lemma format_2_within L B j x :
  0 <= j -> 0 <= B -> within L B j x ->
  format_f 2 x = fixed_point 2 (hundredths_of x) /\ 0 <= hundredths_of x /\
  (2 * hundredths_of x - 1) * 2 ^ j <= 200 * B /\
  200 * L <= (2 * hundredths_of x + 1) * 2 ^ j.
Proof.
  intros J B0 W. assert (Pj : 0 < 2 ^ j) by (apply Z.pow_pos_nonneg; lia).
  destruct x as [ [ | ] | | | [ | ] m e ]; try contradiction.
  - simpl in W. subst L. split; [ reflexivity | ]. simpl hundredths_of. lia.
  - destruct W as (E & M). split; [ reflexivity | ]. unfold hundredths_of.
    assert (P : 0 < 2 ^ (- j - e)) by (apply Z.pow_pos_nonneg; lia).
    assert (S : 2 ^ (- e) = 2 ^ j * 2 ^ (- j - e))
      by (rewrite <- Z.pow_add_r by lia; f_equal; lia).
    assert (F : exists N, fraction m e = (N, 2 ^ (- e)) /\ N = Zpos m).
    { unfold fraction. destruct (0 <=? e) eqn:Le.
      - apply Z.leb_le in Le. assert (e = 0) by lia. subst e.
        exists (Zpos m * 2 ^ 0). split; [ reflexivity | simpl; lia ].
      - exists (Zpos m). now split. }
    destruct F as (N & -> & HN).
    change (scale10 (- Z.of_nat 2) (N, 2 ^ (- e))) with (N * 100, 2 ^ (- e)).
    destruct (round_even_near (N * 100) (2 ^ (- e))) as (T0 & T); [ lia | lia | ].
    set (t := round_even (N * 100, 2 ^ (- e))) in *. clearbody t.
    rewrite S in T. subst N.
    remember (2 ^ (- j - e)) as X eqn:HX. remember (2 ^ j) as Y eqn:HY.
    clear HX HY S.
    split; [ exact T0 | ].
    assert (T1 : 2 * t * (Y * X) - 2 * (Zpos m * 100) <= Y * X) by lia.
    assert (T2 : 2 * (Zpos m * 100) - 2 * t * (Y * X) <= Y * X) by lia.
    split.
    + assert ((2 * t - 1) * Y * X <= 200 * B * X) by nia. nia.
    + assert (200 * L * X <= (2 * t + 1) * Y * X) by nia. nia.
Qed.

(** A quotient n / d that is a whole number N of cents below 10^15 is
    printed with two decimals as N. *)
Lemma cents_of_ratio n d N :
  N * Zpos d = 100 * Zpos n -> N < 10 ^ 15 ->
  format_f 2 (of_ratio n d) = fixed_point 2 N.
Proof.
  intros Q Hi.
  assert (0 < N) as N0 by nia.
  pose proof (Z.mul_div_le (Zpos n * 2 ^ 8) (Zpos d) ltac:(lia)) as Lo.
  pose proof (Z.mul_succ_div_gt (Zpos n * 2 ^ 8) (Zpos d) ltac:(lia)) as Up.
  assert (L0 : 0 <= Zpos n * 2 ^ 8 / Zpos d) by (apply Z.div_pos; lia).
  set (L := Zpos n * 2 ^ 8 / Zpos d) in *. clearbody L.
  change (2 ^ 8) with 256 in *. unfold Z.succ in Up.
  change (10 ^ 15) with 1000000000000000 in Hi.
  assert (L1 : 100 * L <= 256 * N) by nia.
  assert (R : in_reach_wide 44 (L + 1) 8).
  { unfold in_reach_wide. change (2 ^ 44 * 2 ^ 8) with 4503599627370496. lia. }
  pose proof (of_ratio_within_wide 44 L (L + 1) 8 n d R L0
                ltac:(change (2 ^ 8) with 256; lia)) as W.
  apply format_2_within in W; [ | lia | lia ].
  destruct W as (F & H0 & U & D). rewrite F. f_equal.
  change (2 ^ 8) with 256 in U, D.
  set (h := hundredths_of (of_ratio n d)) in *. clearbody h.
  assert (Up' : (2 * h - 1) * 256 * Zpos d <= 200 * (L + 1) * Zpos d) by nia.
  assert (Dn' : 200 * L * Zpos d <= (2 * h + 1) * 256 * Zpos d) by nia.
  assert (A1 : (2 * h - 1) * 256 * Zpos d <= (512 * N + 200) * Zpos d) by nia.
  assert (A2 : (512 * N - 200) * Zpos d < (2 * h + 1) * 256 * Zpos d) by nia.
  assert (B1 : (2 * h - 1) * 256 <= 512 * N + 200) by nia.
  assert (B2 : 512 * N - 200 < (2 * h + 1) * 256) by nia.
  lia.
Qed.

(** The float read from a numeral with [f] decimals, at most two, prints
    as its cents. *)
Lemma cents_of_decimal M f :
  0 <= M -> (f <= 2)%nat -> M * 10 ^ (2 - Z.of_nat f) < 10 ^ 15 ->
  format_f 2 (of_decimal M (- Z.of_nat f))
  = fixed_point 2 (M * 10 ^ (2 - Z.of_nat f)).
Proof.
  intros M0 F Hi. destruct M as [ | p | p ]; [ reflexivity | | lia ].
  destruct f as [ | [ | [ | f ] ] ]; [ | | | lia ]; unfold of_decimal.
  - change (0 <=? - Z.of_nat 0) with true. cbv iota.
    change (Z.to_pos (10 ^ (- Z.of_nat 0))) with 1%positive.
    apply cents_of_ratio; [ | exact Hi ].
    change (10 ^ (2 - Z.of_nat 0)) with 100. lia.
  - change (0 <=? - Z.of_nat 1) with false. cbv iota.
    change (Z.to_pos (10 ^ (- (- Z.of_nat 1)))) with 10%positive.
    apply cents_of_ratio; [ | exact Hi ].
    change (10 ^ (2 - Z.of_nat 1)) with 10. lia.
  - change (0 <=? - Z.of_nat 2) with false. cbv iota.
    change (Z.to_pos (10 ^ (- (- Z.of_nat 2)))) with 100%positive.
    apply cents_of_ratio; [ | exact Hi ].
    change (10 ^ (2 - Z.of_nat 2)) with 1. lia.
Qed.

Lemma digits_val_zeros k : forall acc,
  digits_val acc (zeros k) = acc * 10 ^ Z.of_nat k.
Proof.
  induction k as [ | k IH ]; intros acc; cbn [zeros digits_val].
  - change (10 ^ Z.of_nat 0) with 1. lia.
  - rewrite IH. change (digit_val "0") with 0.
    rewrite Nat2Z.inj_succ, Z.pow_succ_r by lia. ring.
Qed.

(** Read and written with two decimals, a canonical price of at most
    thirteen digits before the point and at most two after it comes out
    as it went in, with its decimals filled up to two. *)
Lemma price_read_written ip fp :
  canonical ip -> all_digits ip = true -> all_digits fp = true ->
  (String.length ip <= 13)%nat -> (String.length fp <= 2)%nat ->
  format_f 2 (of_decimal (digits_val 0 (ip ++ fp))
                         (- Z.of_nat (String.length fp)))
  = (ip ++ "." ++ fp ++ zeros (2 - String.length fp))%string.
Proof.
  intros C Di Df Li Lf.
  assert (all_digits (fp ++ zeros (2 - String.length fp)) = true) as Dz.
  { unfold all_digits in *. rewrite all_of_app, Df. apply zeros_digits. }
  assert (String.length (fp ++ zeros (2 - String.length fp)) = 2%nat) as Lz.
  { rewrite length_append, length_zeros. lia. }
  rewrite <- (fixed_point_canonical ip _ C Di Dz Lz).
  assert (digits_val 0 (ip ++ fp ++ zeros (2 - String.length fp))
          = digits_val 0 (ip ++ fp) * 10 ^ (2 - Z.of_nat (String.length fp)))
    as V.
  { rewrite <- append_assoc, digits_val_app, digits_val_zeros.
    f_equal. f_equal. lia. }
  rewrite V. apply cents_of_decimal.
  - apply digits_val_nonneg; [ lia | ].
    unfold all_digits in *. now rewrite all_of_app, Di, Df.
  - exact Lf.
  - rewrite <- V.
    assert (all_digits (ip ++ fp ++ zeros (2 - String.length fp)) = true) as D.
    { unfold all_digits in *. now rewrite all_of_app, Di, Dz. }
    pose proof (digits_val_bound _ 0 ltac:(lia) D) as [ _ B ].
    rewrite length_append, Lz in B.
    apply Z.lt_le_trans with (1 := B).
    change (0 + 1) with 1. rewrite Z.mul_1_l.
    apply Z.pow_le_mono_r; lia.
Qed.

End PriceFacts.

(** ** The scripts and the command line *)

Section CallerFacts.
Import PyNum.

(** The analysis of a table never fails. *)
Lemma analyze_table_returns rows :
  exists r, analyze_table rows = Ok r /\ (r = NoTable <-> rows = []).
Proof.
  destruct rows as [ | row rows ].
  - exists NoTable. now repeat split.
  - destruct (analyze_table_counts row rows) as (a & A & _).
    cbv zeta in A. exists (Table a). split; [ exact A | ].
    split; discriminate.
Qed.

(** A sum of floats is the integer 0 it starts from, or a float. *)
Lemma sum_floats l :
  sum (map Float l) = Int 0 \/ exists x, sum (map Float l) = Float x.
Proof.
  unfold sum. destruct l as [ | y l ]; [ now left | right ].
  cbn [map fold_left add].
  generalize (fadd (of_Z 0) y). induction l as [ | z l IH ]; intros x.
  - now exists x.
  - cbn [map fold_left add]. apply IH.
Qed.

Lemma total_value_prints rows :
  exists s,
    PyFormat.fmt_c2f (sum (numbers Total_Price_USD Float rows)) = Ok s.
Proof.
  rewrite numbers_filled_values.
  destruct (sum_floats (filled_values Total_Price_USD rows))
    as [ -> | (x & ->) ]; eexists; reflexivity.
Qed.

(** A total of quantities converts exactly when it is within the limit. *)
Lemma str_number_int q :
  PyFormat.str_number (Int q) =
  if (Z.abs q <? 10 ^ max_str_digits)%Z then Ok (str_int q)
  else Raise ValueError.
Proof. apply str_checked_spec. Qed.

Lemma fmt_c_int q :
  PyFormat.fmt_c (Int q) =
  if (Z.abs q <? 10 ^ max_str_digits)%Z
  then Ok (PyFormat.grouped (str_int q)) else Raise ValueError.
Proof.
  unfold PyFormat.fmt_c. rewrite str_checked_spec.
  destruct (_ <? _)%Z; reflexivity.
Qed.

Lemma str_number_value l :
  exists s, PyFormat.str_number (sum (map Float l)) = Ok s.
Proof.
  destruct (sum_floats l) as [ -> | (x & ->) ].
  - exists "0". apply str_checked_printable. apply limit_positive.
  - eexists. reflexivity.
Qed.

(** The items of [test_parser.py] stop at the totals exactly when the
    total quantity is beyond the limit. *)
Lemma print_items_end out a q l :
  total_quantity a = Int q -> total_value a = sum (map Float l) ->
  snd (print_items out (Table a)) =
  if (Z.abs q <? 10 ^ max_str_digits)%Z then None else Some ValueError.
Proof.
  intros Q V. unfold print_items. rewrite Q, V, str_number_int.
  destruct (_ <? _)%Z; [ | reflexivity ]. cbn [bind].
  destruct (str_number_value l) as (s & ->). reflexivity.
Qed.

(** A line of [test_parser.py] is printed for the rows with their three
    numbers, and for no other. *)
Lemma parser_line_outcome i row :
  quantity_in_range row ->
  if is_filled (Quantity row) && is_filled (Unit_Price_USD row)
     && is_filled (Total_Price_USD row)
  then exists line, parser_line i row = Ok line
  else parser_line i row = Raise ValueError.
Proof.
  intros R. unfold parser_line, PyFormat.fmt_int.
  destruct (Quantity row) as [ q | ] eqn:Q; [ | reflexivity ].
  rewrite str_checked_printable
    by (unfold printable; specialize (R q Q);
        remember (10 ^ max_str_digits)%Z as lim; lia).
  destruct (Unit_Price_USD row), (Total_Price_USD row);
    simpl; try reflexivity.
  eexists. reflexivity.
Qed.

Lemma parser_lines_end rows :
  Forall quantity_in_range rows ->
  forall i out,
  snd (parser_lines i rows out) =
  if forallb (fun row => is_filled (Quantity row)
                         && is_filled (Unit_Price_USD row)
                         && is_filled (Total_Price_USD row)) rows
  then None else Some ValueError.
Proof.
  induction 1 as [ | row rows R _ IH ]; intros i out; [ reflexivity | ].
  cbn [parser_lines forallb].
  pose proof (parser_line_outcome i row R) as O.
  destruct (is_filled (Quantity row) && is_filled (Unit_Price_USD row)
            && is_filled (Total_Price_USD row)).
  - destruct O as (line & ->). apply IH.
  - rewrite O. reflexivity.
Qed.

(** On the rows of the extractor the quantity decides. *)
Lemma parsed_rows_complete text rows :
  parse_invoice_table text = Ok rows ->
  forallb (fun row => is_filled (Quantity row)
                      && is_filled (Unit_Price_USD row)
                      && is_filled (Total_Price_USD row)) rows
  = forallb (fun row => is_filled (Quantity row)) rows.
Proof.
  intros H. pose proof (parsed_rows_fields _ _ H) as F. clear H.
  induction F as [ | row rows (_ & E & Q) _ IH ]; [ reflexivity | ].
  cbn [forallb]. rewrite IH. f_equal.
  destruct (is_filled (Quantity row)); [ | reflexivity ].
  rewrite <- E, (Q eq_refl). reflexivity.
Qed.

Lemma forallb_filled rows :
  forallb (fun row => is_filled (Quantity row)) rows = true <->
  Forall (fun row => Quantity row <> None) rows.
Proof.
  rewrite forallb_forall, Forall_forall.
  split; intros H row I; specialize (H row I);
    destruct (Quantity row); simpl in *; congruence.
Qed.

End CallerFacts.

(** ** Whitespace around the text and at the ends of lines *)

Section WhitespaceFacts.

Lemma lstrip_spaces ws s :
  all_of is_space ws = true -> lstrip (ws ++ s) = lstrip s.
Proof.
  induction ws as [ | c ws IH ]; simpl; [ reflexivity | ].
  intros A. apply andb_prop in A. destruct A as [ Sc A ].
  rewrite Sc. now apply IH.
Qed.

Lemma rstrip_all_spaces ws : all_of is_space ws = true -> rstrip ws = "".
Proof.
  induction ws as [ | c ws IH ]; simpl; [ reflexivity | ].
  intros A. apply andb_prop in A. destruct A as [ Sc A ].
  now rewrite (IH A), Sc.
Qed.

Lemma rstrip_spaces ws : forall s,
  all_of is_space ws = true -> rstrip (s ++ ws) = rstrip s.
Proof.
  intros s A. induction s as [ | c s IH ]; simpl.
  - now apply rstrip_all_spaces.
  - now rewrite IH.
Qed.

Lemma lstrip_app t w :
  lstrip (t ++ w) =
  if all_of is_space t then lstrip w else (lstrip t ++ w)%string.
Proof.
  induction t as [ | c t IH ]; simpl; [ reflexivity | ].
  destruct (is_space c); [ exact IH | reflexivity ].
Qed.

Lemma lstrip_all_spaces ws : all_of is_space ws = true -> lstrip ws = "".
Proof.
  intros A. rewrite <- (append_nil_r ws). now rewrite lstrip_spaces.
Qed.

(** Whitespace at the end of a text is stripped with it. *)
Lemma strip_spaces_right s ws :
  all_of is_space ws = true -> strip (s ++ ws) = strip s.
Proof.
  intros A. unfold strip. rewrite lstrip_app.
  destruct (all_of is_space s) eqn:S.
  - now rewrite (lstrip_all_spaces _ A), (lstrip_all_spaces _ S).
  - now apply rstrip_spaces.
Qed.

Lemma strip_spaces_left ws s :
  all_of is_space ws = true -> strip (ws ++ s) = strip s.
Proof. intros A. unfold strip. now rewrite lstrip_spaces. Qed.

(** The body of the loop sees a line through [strip] only. *)
Lemma parse_line_strip k raw raw' :
  strip raw = strip raw' -> parse_line k raw = parse_line k raw'.
Proof. intros E. unfold parse_line. now rewrite E. Qed.

Lemma scan_same_lines lines : forall lines' n acc,
  map strip lines = map strip lines' ->
  scan n lines acc = scan n lines' acc.
Proof.
  induction lines as [ | l lines IH ]; intros [ | l' lines' ] n acc E;
    try discriminate E; [ reflexivity | ].
  simpl in E. injection E as E1 E2. simpl.
  rewrite (parse_line_strip n l l' E1).
  destruct (parse_line n l') as [ [ row | ] | e ]; simpl;
    [ now apply IH | now apply IH | reflexivity ].
Qed.

(** ** Line ends *)

(** [replace LF crlf s] is the text [s] with a carriage return before
    every line feed; stripping commutes with it. *)
Lemma lstrip_crlf s :
  lstrip (replace LF crlf s) = replace LF crlf (lstrip s).
Proof.
  induction s as [ | c s IH ]; [ reflexivity | ].
  cbn [replace lstrip]. destruct (Ascii.eqb c LF) eqn:E.
  - apply Ascii.eqb_eq in E. subst c.
    change (is_space LF) with true. cbv iota.
    change (lstrip (crlf ++ replace LF crlf s))
      with (lstrip (replace LF crlf s)). exact IH.
  - cbn [lstrip]. destruct (is_space c); [ exact IH | ].
    cbn [replace]. now rewrite E.
Qed.

Lemma replace_crlf_empty s : replace LF crlf s = "" -> s = "".
Proof.
  destruct s as [ | c s ]; [ reflexivity | ].
  cbn [replace]. destruct (Ascii.eqb c LF); discriminate.
Qed.

Lemma replace_crlf_cons c s :
  exists a t, replace LF crlf (String c s) = String a t.
Proof.
  cbn [replace]. destruct (Ascii.eqb c LF); eexists; eexists; reflexivity.
Qed.

Lemma rstrip_crlf s :
  rstrip (replace LF crlf s) = replace LF crlf (rstrip s).
Proof.
  induction s as [ | c s IH ]; [ reflexivity | ].
  destruct (Ascii.eqb c LF) eqn:E.
  - apply Ascii.eqb_eq in E. subst c.
    change (replace LF crlf (String LF s))
      with (String CR (String LF (replace LF crlf s))).
    cbn [rstrip]. rewrite IH.
    destruct (rstrip s) as [ | a t ] eqn:R; [ reflexivity | ].
    change (replace LF crlf (String LF (String a t)))
      with (String CR (String LF (replace LF crlf (String a t)))).
    destruct (replace_crlf_cons a t) as (a' & t' & ->). reflexivity.
  - assert (forall x, replace LF crlf (String c x)
                      = String c (replace LF crlf x)) as C
      by (intros x; cbn [replace]; now rewrite E).
    rewrite C. cbn [rstrip]. rewrite IH.
    destruct (rstrip s) as [ | a t ] eqn:R.
    + cbn [replace]. destruct (is_space c); [ reflexivity | ].
      now rewrite C.
    + rewrite C.
      destruct (replace_crlf_cons a t) as (a' & t' & ->). reflexivity.
Qed.

Lemma strip_crlf s : strip (replace LF crlf s) = replace LF crlf (strip s).
Proof. unfold strip. now rewrite lstrip_crlf, rstrip_crlf. Qed.

Lemma strip_CR l : strip (l ++ String CR "") = strip l.
Proof. now apply strip_spaces_right. Qed.

(** Split at its line feeds, the new text has the lines of the old one,
    each but the last with a carriage return at its end. *)
Lemma split_crlf s :
  Forall2 (fun a b => a = b \/ a = (b ++ String CR "")%string)
          (split LF (replace LF crlf s)) (split LF s).
Proof.
  induction s as [ | c s IH ].
  - constructor; [ now left | constructor ].
  - destruct (Ascii.eqb c LF) eqn:E.
    + apply Ascii.eqb_eq in E. subst c.
      change (replace LF crlf (String LF s))
        with (String CR (String LF (replace LF crlf s))).
      change (split LF (String CR (String LF (replace LF crlf s))))
        with (String CR "" :: split LF (replace LF crlf s)).
      change (split LF (String LF s)) with ("" :: split LF s).
      constructor; [ now right | exact IH ].
    + cbn [replace split]. rewrite E. cbn [split]. rewrite E.
      destruct IH as [ | h h' r r' H IH ].
      * constructor; [ now left | constructor ].
      * constructor; [ | exact IH ].
        destruct H as [ -> | -> ]; [ now left | now right ].
Qed.

Lemma split_crlf_strip s :
  map strip (split LF (replace LF crlf s)) = map strip (split LF s).
Proof.
  induction (split_crlf s) as [ | h h' r r' H _ IH ]; [ reflexivity | ].
  cbn [map]. rewrite IH. f_equal.
  destruct H as [ -> | -> ]; [ reflexivity | apply strip_CR ].
Qed.

End WhitespaceFacts.

(* ================================================================== *)
(** * The claims *)

(** C1 (does not hold of the code): the extractor is claimed never to
    raise.  A total price token made of a lone comma matches the first
    pattern, is emptied by the removal of commas, and [float('')] raises
    ValueError outside any [try]; the whole scan is lost, including the row
    of the well-formed line before it. *)
Theorem comma_total_aborts_scan :
  (exists row, parse_invoice_table iphone12_line = Ok [row]) /\
  parse_invoice_table comma_line = Raise ValueError /\
  parse_invoice_table (iphone12_line ++ eol ++ comma_line) = Raise ValueError.
Proof.
  split; [ eexists; vm_compute; reflexivity | ].
  split; vm_compute; reflexivity.
Qed.

(** C2 (does not hold of the code): a line matching both the first and the
    third pattern is claimed to carry the first pattern's extraction.  Here
    the first pattern extracts quantity 0 with prices 2.5 and 3.5; the
    recovery pass takes the zero for a blank and overwrites it with 7. *)
Theorem zero_quantity_overridden :
  (exists m, search clean_pattern zero_quantity_line = Some m /\
             group m 1 = "0" /\ group m 2 = "2.5" /\ group m 3 = "3.5") /\
  (exists m, search price_pattern zero_quantity_line = Some m) /\
  exists row, parse_invoice_table zero_quantity_line = Ok [row] /\
              Quantity row = Some 7%Z /\
              option_map PyNum.repr (Unit_Price_USD row) = Some "2.5" /\
              option_map PyNum.repr (Total_Price_USD row) = Some "3.5".
Proof.
  split; [ eexists; vm_compute; repeat split | ].
  split; [ eexists; vm_compute; reflexivity | ].
  eexists. split; [ vm_compute; reflexivity | ].
  vm_compute. repeat split.
Qed.

(** C3: the scenario line yields exactly one row, with product
    "APPLE IPHONE 12 256GB", quantity 4, unit price 233.00 and total price
    932.00. *)
Theorem iphone12_scenario :
  parse_invoice_table iphone12_line =
    Ok [ mkRow "APPLE IPHONE 12 256GB" (Some 4%Z)
               (Some (PyNum.of_Z 233)) (Some (PyNum.of_Z 932))
               1 iphone12_line ] /\
  PyNum.format_f 2 (PyNum.of_Z 233) = "233.00" /\
  PyNum.format_f 2 (PyNum.of_Z 932) = "932.00".
Proof. vm_compute. repeat split. Qed.

(** C4: every emitted row has a product longer than 2 characters, and that
    product is the post-processed product name of its line; so a line whose
    post-processed name has length at most 2 is never emitted. *)
Theorem rejection_invariant text rows :
  parse_invoice_table text = Ok rows ->
  Forall (fun row => (2 < String.length (Product row))%nat /\
                     Product row = product_of (Raw_Text row)) rows.
Proof.
  intros H. apply Forall_forall. intros row Hin.
  destruct (emitted_inv _ _ _ H Hin) as (k & line & _ & E).
  apply emits_fields in E. destruct E as (P & R & _ & L & _).
  split; [ exact L | congruence ].
Qed.

Lemma rejection_invariant_witness :
  exists rows, parse_invoice_table two_lines = Ok rows /\
    Forall (fun row => (2 < String.length (Product row))%nat /\
                       Product row = product_of (Raw_Text row)) rows.
Proof.
  eexists. split; [ vm_compute; reflexivity | ].
  apply (rejection_invariant two_lines). vm_compute. reflexivity.
Defined.

(** C5, as stated, fails: a line without "HSO CHINA" in it, in any case of
    letters, still yields a row when more than one whitespace character
    separates the two words. *)
Lemma wide_marker_emitted :
  contains "HSO CHINA" (upper wide_marker_line) = false /\
  exists row, parse_invoice_table wide_marker_line = Ok [row].
Proof.
  split; [ vm_compute; reflexivity | ].
  eexists. vm_compute. reflexivity.
Qed.

(** C5 (amended): a line is skipped outright when it does not contain
    "CHINA" in any case of letters; a row is emitted only for a line in
    which, after at least one character, "HSO", one or more whitespace
    characters and "CHINA" follow one another in any case of letters; and a
    text none of whose lines contains "CHINA" yields no row. *)
Theorem origin_marker_filter :
  (forall k raw,
     contains "CHINA" (upper (strip raw)) = false ->
     parse_line k raw = Ok None) /\
  (forall text rows,
     parse_invoice_table text = Ok rows ->
     Forall (fun row => has_origin_marker (Raw_Text row) /\
                        contains "CHINA" (upper (Raw_Text row)) = true) rows) /\
  (forall text,
     (forall line, In line (split LF (strip text)) ->
        contains "CHINA" (upper (strip line)) = false) ->
     parse_invoice_table text = Ok []).
Proof.
  split; [ exact skipped_without_china | ]. split.
  - intros text rows H. apply Forall_forall. intros row Hin.
    destruct (emitted_inv _ _ _ H Hin) as (k & line & _ & E).
    now apply emits_marker in E.
  - intros text H. unfold parse_invoice_table. apply scan_skips.
    intros line Hin k. apply skipped_without_china. now apply H.
Qed.

Lemma origin_marker_filter_witness :
  parse_line 2 "TOTAL 5 10.00 50.00" = Ok None /\
  (exists rows, parse_invoice_table two_lines = Ok rows /\
     Forall (fun row => has_origin_marker (Raw_Text row) /\
                        contains "CHINA" (upper (Raw_Text row)) = true) rows) /\
  parse_invoice_table no_marker_text = Ok [].
Proof.
  destruct origin_marker_filter as (A & B & C).
  split; [ apply A; vm_compute; reflexivity | ]. split.
  - eexists. split; [ vm_compute; reflexivity | ].
    apply (B two_lines). vm_compute. reflexivity.
  - apply C. intros line H. vm_compute in H.
    destruct H as [ <- | [ <- | [] ] ]; vm_compute; reflexivity.
Defined.

(** C6, as stated, fails: no emitted row has a quantity without prices. *)
Lemma fields_not_independent : ~ fields_independent.
Proof.
  intros I. destruct (I F_Quantity F_Unit_Price) as (row & E & Q & U).
  - discriminate.
  - apply emitted_fields in E. destruct E as (_ & E).
    simpl in Q, U. rewrite (E Q) in U. discriminate U.
Qed.

(** C6 (amended): the quantity may be blank while both prices are filled,
    but not the other way round: a filled quantity comes with both prices,
    and each price comes with the other. *)
Theorem quantity_alone_optional :
  (exists row, emitted row /\ filled F_Quantity row = false /\
               filled F_Unit_Price row = true /\
               filled F_Total_Price row = true) /\
  (forall row, emitted row ->
     (filled F_Quantity row = true ->
      filled F_Unit_Price row = true /\ filled F_Total_Price row = true) /\
     filled F_Unit_Price row = filled F_Total_Price row).
Proof.
  split.
  - exists iphone13_row. split; [ exact iphone13_row_emitted | now repeat split ].
  - intros row E. apply emitted_fields in E. destruct E as (UT & QU). simpl.
    split; [ | exact UT ].
    intros Q. split; [ now apply QU | rewrite <- UT; now apply QU ].
Qed.

Lemma quantity_alone_optional_witness :
  filled F_Unit_Price iphone12_row = true /\
  filled F_Total_Price iphone12_row = true.
Proof.
  apply (proj2 quantity_alone_optional iphone12_row iphone12_row_emitted).
  reflexivity.
Defined.

(** C7, as stated for every row sequence, fails: the report of the empty
    sequence has the status only, and neither [total_value] nor
    [total_quantity]. *)
Lemma empty_table_has_no_totals :
  analyze_table [] = Ok NoTable /\
  ~ exists a, analyze_table [] = Ok (Table a).
Proof.
  split; [ reflexivity | ]. intros (a & H). discriminate H.
Qed.

(** C7 (amended): on every non-empty table the report is produced,
    [total_value] is the sum of the total prices of exactly the rows where
    the total price is filled, and [total_quantity] is the sum of the
    quantities of exactly the rows where the quantity is filled, which is
    the sum over all rows with every blank quantity counted as zero. *)
Theorem sum_correctness row rows :
  let table_data := row :: rows in
  exists a,
    analyze_table table_data = Ok (Table a) /\
    total_value a =
      PyNum.sum (map PyNum.Float (filled_values Total_Price_USD table_data)) /\
    total_quantity a = PyNum.Int (total (filled_values Quantity table_data)) /\
    total (filled_values Quantity table_data) =
      total (zero_filled Quantity table_data).
Proof.
  intros table_data.
  destruct (analyze_table_report row rows)
    as (share & _ & _ & a & A & Q & V & _).
  exists a. split; [ exact A | ].
  rewrite V, Q, !numbers_filled_values, sum_ints.
  repeat split. apply total_zero_filled.
Qed.

(** C8: on every non-empty table the completion rate is the count of
    filled slots divided by three times the row count, times 100, printed
    with one decimal: the numeral of a whole number of tenths that lies
    within half a tenth (and one part in a million, the reach of the two
    binary64 roundings) of the exact 1000 * slots / (3 * rows), and between
    0 and 1000, that is, a percentage in [0, 100]. *)
Theorem completion_rate_spec row rows :
  let table_data := row :: rows in
  let slots := filled_slots table_data in
  let cells := (3 * Z.of_nat (List.length table_data))%Z in
  exists a share,
    analyze_table table_data = Ok (Table a) /\
    PyNum.truediv slots cells = Ok share /\
    completion_rate a =
      (PyNum.format_f 1 (PyNum.fmul share (PyNum.of_Z 100)) ++ "%")%string /\
    let tenths := tenths_of (PyNum.fmul share (PyNum.of_Z 100)) in
    completion_rate a = (PyNum.fixed_point 1 tenths ++ "%")%string /\
    (0 <= tenths <= 1000)%Z /\
    (1000000 * (2 * Z.abs (tenths * cells - 1000 * slots) - cells)
     <= cells)%Z.
Proof.
  intros table_data slots cells.
  destruct (analyze_table_report row rows)
    as (share & T & _ & a & A & _ & _ & C).
  fold table_data in T, A. fold slots in T.
  replace (Z.of_nat (List.length table_data) * 3)%Z with cells in T
    by (unfold cells; ring).
  assert (S : (0 <= slots <= cells)%Z).
  { unfold slots, cells. pose proof (filled_slots_bounds table_data). lia. }
  assert (P : (0 < cells)%Z).
  { unfold cells, table_data. simpl List.length. lia. }
  destruct (percent_tenths slots cells share S P T) as (F & R & N).
  exists a, share.
  split; [ exact A | ]. split; [ exact T | ]. split; [ exact C | ].
  cbv zeta. split; [ rewrite C, F; reflexivity | ].
  split; [ exact R | exact N ].
Qed.





(** C10: in every emitted row the unit price is filled if and only if the
    total price is. *)
Theorem prices_filled_together text rows :
  parse_invoice_table text = Ok rows ->
  Forall (fun row => Unit_Price_USD row <> None <->
                     Total_Price_USD row <> None) rows.
Proof.
  intros H. apply Forall_forall. intros row Hin.
  destruct (emitted_inv _ _ _ H Hin) as (k & line & _ & E).
  apply emits_fields in E. destruct E as (_ & _ & _ & _ & F & _).
  destruct (Unit_Price_USD row), (Total_Price_USD row);
    simpl in F; try discriminate F; split; congruence.
Qed.

Lemma prices_filled_together_witness :
  exists rows, parse_invoice_table two_lines = Ok rows /\
    Forall (fun row => Unit_Price_USD row <> None <->
                       Total_Price_USD row <> None) rows.
Proof.
  eexists. split; [ vm_compute; reflexivity | ].
  apply (prices_filled_together two_lines). vm_compute. reflexivity.
Defined.

(* ================================================================== *)
(** * Further properties of the modules *)

(** ** The scan *)

(** X1: the scan works line by line.  The call returns exactly when the
    body of the loop returns on every numbered line, and the rows are then
    the rows of the lines put one after the other in the order of the
    lines; it raises exactly when some line raises, with the exception of
    the first such line, whatever rows the lines before it had given. *)
Theorem parse_line_by_line text :
  (forall rows,
     parse_invoice_table text = Ok rows <->
     Forall returns (numbered_lines text) /\
     rows = flat_map rows_of (numbered_lines text)) /\
  (forall e,
     parse_invoice_table text = Raise e <->
     exists before numbered after,
       numbered_lines text = before ++ numbered :: after /\
       Forall returns before /\
       parse_line (fst numbered) (snd numbered) = Raise e).
Proof.
  unfold parse_invoice_table, numbered_lines. split.
  - intros rows. rewrite scan_flat. reflexivity.
  - intros e. apply scan_raises.
Qed.

(** X2: the rows come in the order of the lines.  [Source_Line] grows
    strictly along the table (so no two rows share a line), there are at
    most as many rows as lines, [Source_Line] is the 1-based index of the
    row's line in the stripped text, and [Raw_Text] is that line
    stripped. *)
Theorem source_lines_increase text rows :
  parse_invoice_table text = Ok rows ->
  StronglySorted lt (map Source_Line rows) /\
  List.length rows <= List.length (split LF (strip text)) /\
  Forall (fun row =>
            1 <= Source_Line row /\
            exists raw,
              nth_error (split LF (strip text)) (Source_Line row - 1)
                = Some raw /\
              Raw_Text row = strip raw) rows.
Proof.
  unfold parse_invoice_table. intros H.
  apply scan_flat in H. destruct H as [ _ -> ]. simpl.
  destruct (flat_rows_sorted (split LF (strip text)) 1) as (Srt & F & L).
  repeat split; [ exact Srt | exact L | ].
  apply Forall_forall. intros row I.
  apply in_flat_map in I. destruct I as ([ k raw ] & I & R).
  apply rows_of_inv in R. simpl in R.
  apply emits_fields in R. destruct R as (_ & T & K & _).
  apply enumerate_nth in I. destruct I as [ L1 N ].
  rewrite K. split; [ exact L1 | ]. exists raw. split; assumption.
Qed.

Lemma source_lines_increase_witness :
  exists rows,
    parse_invoice_table two_lines = Ok rows /\
    StronglySorted lt (map Source_Line rows) /\
    List.length rows <= List.length (split LF (strip two_lines)) /\
    Forall (fun row =>
              1 <= Source_Line row /\
              exists raw,
                nth_error (split LF (strip two_lines)) (Source_Line row - 1)
                  = Some raw /\
                Raw_Text row = strip raw) rows.
Proof.
  eexists. split; [ vm_compute; reflexivity | ].
  apply (source_lines_increase two_lines). vm_compute. reflexivity.
Defined.

(** ** Exceptions *)

(** X3: the extractor raises nothing but ValueError, and it raises it
    exactly when the text has a candidate line on which a conversion
    fails.  That is a line on which the pattern that matches first either
    captured, as the first or the second pattern, a quantity of more than
    4300 digits, which [int] refuses at line 61 or 69, or captured a total
    price without any digit (commas, possibly followed by a point), which
    [float] cannot read.  The unit price of a match always converts, and
    the second look for a quantity never raises: its [int] stands inside
    the [try] of lines 88-91. *)
Theorem parse_raises_on_failed_conversion text e :
  parse_invoice_table text = Raise e <->
  e = ValueError /\
  exists raw, In raw (split LF (strip text)) /\ unconvertible raw.
Proof.
  unfold parse_invoice_table. rewrite scan_raises. split.
  - intros (before & [ k raw ] & after & E & _ & R). simpl in R.
    apply parse_line_raises in R. destruct R as [ -> U ].
    split; [ reflexivity | ]. exists raw. split; [ | exact U ].
    assert (In (k, raw) (enumerate 1 (split LF (strip text)))) as I
      by (rewrite E; apply in_elt).
    apply enumerate_nth in I. destruct I as [ _ N ].
    eapply nth_error_In, N.
  - intros (-> & raw & I & U).
    destruct (enumerate_in _ 1 raw I) as (k & Ik).
    assert (parse_line k raw = Raise ValueError) as R
      by (apply parse_line_raises; now split).
    destruct (first_raise _ (k, raw) ValueError Ik R)
      as (before & x & after & e' & E & F & R').
    exists before, x, after. repeat split; [ exact E | exact F | ].
    pose proof R' as R''. apply parse_line_raises in R''.
    destruct R'' as [ -> _ ]. exact R'.
Qed.

(** Both kinds of line occur: a quantity of 4301 nines, and a total made
    of a comma. *)
Example long_quantity_raises :
  parse_invoice_table (long_line 4301) = Raise ValueError /\
  unconvertible (long_line 4301).
Proof.
  split; [ vm_compute; reflexivity | ].
  split; [ vm_compute; reflexivity | ].
  left. eexists. split; vm_compute; reflexivity.
Qed.

Example comma_total_raises :
  parse_invoice_table "Widget HSO CHINA 3 1 ," = Raise ValueError /\
  unconvertible "Widget HSO CHINA 3 1 ,".
Proof.
  split; [ vm_compute; reflexivity | ].
  split; [ vm_compute; reflexivity | ].
  right. eexists. split; vm_compute; reflexivity.
Qed.

(** ** Numbers *)

(** X4: no number of a returned table has a minus sign, and no price is
    [nan]: every quantity is at least 0, every price is a zero, a positive
    float or plus infinity.  In the CSV file the numeric cells of such a
    row are therefore blank, digits only, [inf], or digits, a point and
    two digits. *)
Theorem parsed_numbers_unsigned text rows :
  parse_invoice_table text = Ok rows ->
  Forall (fun row => unsigned_row row /\ unsigned_cells row) rows.
Proof.
  intros H. apply Forall_forall. intros row I.
  destruct (emitted_inv _ _ _ H I) as (k & raw & _ & E).
  apply emits_unsigned in E. split; [ exact E | ].
  now apply unsigned_row_cells.
Qed.

Lemma parsed_numbers_unsigned_witness :
  exists rows,
    parse_invoice_table two_lines = Ok rows /\
    Forall (fun row => unsigned_row row /\ unsigned_cells row) rows.
Proof.
  eexists. split; [ vm_compute; reflexivity | ].
  apply (parsed_numbers_unsigned two_lines). vm_compute. reflexivity.
Defined.

(** X5: a price read by [float] and written by [save_to_csv] comes out as
    it went in.  For a numeral of at most thirteen digits without a
    leading zero, alone or followed by a point and at most two digits,
    the cell is the numeral with its decimals filled up to two: binary
    floating point leaves no trace in the file. *)
Theorem price_round_trip ip fp s :
  canonical ip -> PyNum.all_digits ip = true -> PyNum.all_digits fp = true ->
  String.length ip <= 13 -> String.length fp <= 2 ->
  s = (ip ++ "." ++ fp)%string \/ (fp = "" /\ s = ip) ->
  exists x,
    PyNum.float_of_string s = Ok x /\
    csv_price (Some x)
    = (ip ++ "." ++ fp ++ PyNum.zeros (2 - String.length fp))%string.
Proof.
  intros C Di Df Li Lf Hs.
  assert (ip <> "") as Ni
    by (destruct C as [ -> | (c & t & -> & _) ]; discriminate).
  exists (PyNum.of_decimal (PyNum.digits_val 0 (ip ++ fp))
                           (- Z.of_nat (String.length fp))).
  split; [ | now apply price_read_written ].
  destruct Hs as [ -> | [ -> -> ] ].
  - change (ip ++ "." ++ fp)%string with (ip ++ String "." fp)%string.
    rewrite (float_of_pointed _ _ Di Df).
    destruct (String.eqb (ip ++ fp) "") eqn:E; [ | reflexivity ].
    apply String.eqb_eq in E. destruct ip; [ now elim Ni | discriminate E ].
  - rewrite append_nil_r. now apply float_of_digits.
Qed.

Lemma price_round_trip_witness :
  exists x,
    PyNum.float_of_string "5390.7" = Ok x /\
    csv_price (Some x) = "5390.70".
Proof.
  apply (price_round_trip "5390" "7" "5390.7").
  - right. exists "5"%char, "390". split; [ reflexivity | discriminate ].
  - reflexivity.
  - reflexivity.
  - simpl. lia.
  - simpl. lia.
  - now left.
Defined.

(** X6: a quantity read by [int] and written by [save_to_csv] comes out
    as it went in, when the digits captured have no leading zero and are
    at most 4300.  [int] converts them, the writer converts the number
    back without meeting the limit, and the cell is the text captured.
    Digits beyond 4300 are refused by [int] with ValueError. *)
Theorem quantity_round_trip s :
  canonical s -> PyNum.all_digits s = true ->
  if too_long s then int_checked s = Raise ValueError
  else exists q,
         int_checked s = Ok q /\ str_checked q = Ok s /\
         csv_quantity (Some q) = s.
Proof.
  intros C D.
  assert (digits_text s) as T.
  { split; [ | exact D ].
    destruct C as [ -> | (c & t & -> & _) ]; discriminate. }
  rewrite (int_checked_digits _ T).
  destruct (too_long s) eqn:L; [ reflexivity | ].
  assert (int_checked s = Ok (PyNum.digits_val 0 s)) as I
    by (rewrite (int_checked_digits _ T), L; reflexivity).
  pose proof (int_checked_range _ _ I) as R.
  assert (PyNum.str_int (PyNum.digits_val 0 s) = s) as S.
  { unfold PyNum.str_int.
    assert ((PyNum.digits_val 0 s <? 0)%Z = false) as ->
      by (apply Z.ltb_ge; apply R).
    now apply numeral_canonical. }
  exists (PyNum.digits_val 0 s). split; [ reflexivity | ].
  split; [ | exact S ].
  rewrite str_checked_printable; [ now rewrite S | ].
  unfold printable. rewrite Z.abs_eq; apply R.
Qed.

Lemma quantity_round_trip_witness :
  exists q,
    int_checked "14" = Ok q /\ str_checked q = Ok "14" /\
    csv_quantity (Some q) = "14".
Proof.
  apply (quantity_round_trip "14").
  - right. exists "1"%char, "4". split; [ reflexivity | discriminate ].
  - reflexivity.
Defined.

(** ** Texts *)

(** X7: the product name of every row is in normal form: it has no
    whitespace at either end, its only whitespace characters are spaces
    and no two of them are neighbours, and it has no run of eight digits
    (the two substitutions and the three strips of lines 46-51). *)
Theorem product_normal_form text rows :
  parse_invoice_table text = Ok rows ->
  Forall (fun row => normal_name (Product row)) rows.
Proof.
  intros H. apply Forall_forall. intros row I.
  destruct (emitted_inv _ _ _ H I) as (k & raw & _ & E).
  apply emits_fields in E. destruct E as (-> & _).
  apply product_of_normal.
Qed.

Lemma product_normal_form_witness :
  exists rows,
    parse_invoice_table two_lines = Ok rows /\
    Forall (fun row => normal_name (Product row)) rows.
Proof.
  eexists. split; [ vm_compute; reflexivity | ].
  apply (product_normal_form two_lines). vm_compute. reflexivity.
Defined.

(** X8: [save_to_csv] writes the texts of a returned table as they are.
    Its two [strip] calls change nothing on the rows of the extractor, so
    the record of a row has the row's own [Product] and [Raw_Text] as its
    first and last cells; and [Raw_Text] holds no line feed. *)
Theorem text_cells_verbatim text rows :
  parse_invoice_table text = Ok rows ->
  Forall (fun row =>
            csv_row row =
              [ Product row; csv_quantity (Quantity row);
                csv_price (Unit_Price_USD row);
                csv_price (Total_Price_USD row);
                PyNum.str_int (Z.of_nat (Source_Line row)); Raw_Text row ] /\
            all_of (fun c => negb (Ascii.eqb c LF)) (Raw_Text row) = true)
         rows.
Proof.
  intros H. apply Forall_forall. intros row I.
  destruct (emitted_inv _ _ _ H I) as (k & raw & L & E).
  apply emits_fields in E. destruct E as (P & R & _).
  split.
  - unfold csv_row. rewrite P, R.
    destruct (product_of_normal (strip raw)) as (-> & _).
    now rewrite strip_idem.
  - rewrite R. apply all_of_strip.
    pose proof (split_lines LF (strip text)) as F.
    rewrite Forall_forall in F. now apply F.
Qed.

Lemma text_cells_verbatim_witness :
  exists rows,
    parse_invoice_table two_lines = Ok rows /\
    Forall (fun row =>
              csv_row row =
                [ Product row; csv_quantity (Quantity row);
                  csv_price (Unit_Price_USD row);
                  csv_price (Total_Price_USD row);
                  PyNum.str_int (Z.of_nat (Source_Line row)); Raw_Text row ] /\
              all_of (fun c => negb (Ascii.eqb c LF)) (Raw_Text row) = true)
           rows.
Proof.
  eexists. split; [ vm_compute; reflexivity | ].
  apply (text_cells_verbatim two_lines). vm_compute. reflexivity.
Defined.

(** ** The analyzer on the rows of the extractor *)

(** X9: the report of a returned table.  On the rows of the extractor,
    when there is one at least, [analyze_table] returns a full report in
    which every product counts as filled, the unit prices and the total
    prices have the same count, and the quantities have at most that
    count. *)
Theorem analyze_parsed text rows :
  parse_invoice_table text = Ok rows -> rows <> [] ->
  exists a q u,
    analyze_table rows = Ok (Table a) /\
    let n := Z.of_nat (List.length rows) in
    total_rows a = n /\ products a = ratio n n /\
    quantities a = ratio q n /\ unit_prices a = ratio u n /\
    total_prices a = ratio u n /\ (0 <= q <= u)%Z /\ (u <= n)%Z.
Proof.
  intros H N. destruct rows as [ | row rows ]; [ now elim N | ].
  pose proof (parsed_rows_fields _ _ H) as F.
  destruct (analyze_table_counts row rows) as (a & A & T & P & Q & U & V).
  exists a, (count (fun r => is_filled (Quantity r)) (row :: rows)),
    (count (fun r => is_filled (Unit_Price_USD r)) (row :: rows)).
  split; [ exact A | ]. cbv zeta.
  split; [ exact T | ]. split.
  { rewrite P. f_equal. apply count_all.
    eapply Forall_impl; [ | exact F ]. now intros r (X & _). }
  split; [ exact Q | ]. split; [ exact U | ]. split.
  { rewrite V. f_equal. symmetry. apply count_same.
    eapply Forall_impl; [ | exact F ]. now intros r (_ & X & _). }
  split; [ split | ].
  - apply count_bounds.
  - apply count_le. eapply Forall_impl; [ | exact F ]. now intros r (_ & _ & X).
  - apply count_bounds.
Qed.

Lemma analyze_parsed_witness :
  exists rows a q u,
    parse_invoice_table two_lines = Ok rows /\
    analyze_table rows = Ok (Table a) /\
    let n := Z.of_nat (List.length rows) in
    total_rows a = n /\ products a = ratio n n /\
    quantities a = ratio q n /\ unit_prices a = ratio u n /\
    total_prices a = ratio u n /\ (0 <= q <= u)%Z /\ (u <= n)%Z.
Proof.
  exists [iphone12_row; iphone13_row].
  destruct (analyze_parsed two_lines [iphone12_row; iphone13_row])
    as (a & q & u & A).
  - vm_compute. reflexivity.
  - discriminate.
  - exists a, q, u. split; [ vm_compute; reflexivity | exact A ].
Defined.

(** X10: the two ends of the completion rate.  A table with every numeric
    cell filled reports exactly [100.0%], and one with every numeric cell
    blank exactly [0.0%]: the division and the product by 100 are exact
    there. *)
Theorem completion_rate_extremes rows a :
  analyze_table rows = Ok (Table a) ->
  (filled_slots rows = 0%Z -> completion_rate a = "0.0%") /\
  (filled_slots rows = (Z.of_nat (List.length rows) * 3)%Z ->
   completion_rate a = "100.0%").
Proof.
  intros A. destruct rows as [ | row rows ]; [ discriminate A | ].
  destruct (analyze_table_report row rows) as (share & T & _ & a' & A' & _ & _ & C).
  cbv zeta in A', T, C. rewrite A in A'. injection A' as <-. rewrite C.
  assert (0 < Z.of_nat (List.length (row :: rows)) * 3)%Z as B
    by (simpl List.length; lia).
  pose proof (filled_slots_bounds (row :: rows)) as S.
  destruct (percent_tenths _ _ share S B T) as (F & T0 & Acc).
  cbv zeta in F, T0, Acc. rewrite F.
  set (t := tenths_of (PyNum.fmul share (PyNum.of_Z 100))) in *. clearbody t.
  set (b := (Z.of_nat (List.length (row :: rows)) * 3)%Z) in *. clearbody b.
  split; intros E; rewrite E in Acc.
  - assert (t = 0%Z) as -> by nia. reflexivity.
  - assert (t = 1000%Z) as -> by nia. reflexivity.
Qed.

Lemma completion_rate_extremes_witness :
  exists a,
    analyze_table [iphone12_row] = Ok (Table a) /\
    completion_rate a = "100.0%".
Proof.
  eexists. split; [ vm_compute; reflexivity | ].
  refine (proj2 (completion_rate_extremes [iphone12_row] _ _) _);
    vm_compute; reflexivity.
Defined.

(** ** The callers in [pdf_text_extractor.py] *)

(** X11: [extract_tables_to_csv] on a text and a path.  What the
    extractor raises on the text comes out of the call.  When the
    extractor returns and no line of the text gave a row, no file is
    opened, whatever the path, and the warning is logged.  When lines gave
    rows the path is opened: if [open] refuses it, its exception comes out
    of the call, nothing is logged and no file is written; if not, the
    file holds the header and then the records of the rows of the lines,
    in the order of the lines, and the info record names its path.  So
    the info record is never logged for a file that was not written. *)
Theorem extract_tables_to_csv_outcome fs text csv_path :
  let r := extract_tables_to_csv fs text csv_path in
  let rows := flat_map rows_of (numbered_lines text) in
  (forall e, parse_invoice_table text = Raise e -> r = Failed (Exn e)) /\
  ((exists returned, parse_invoice_table text = Ok returned) ->
   match rows, fs csv_path with
   | [], _ => r = Done (None, LogWarning "No table data found in PDF")
   | _ :: _, Some f => r = Failed f
   | _ :: _, None =>
       r = Done
             (Some (csv_header ++
                    String.concat ""
                      (map (fun row => Csv.writerow (csv_row row)) rows))%string,
              LogInfo ("Table data saved to CSV: " ++ csv_path))
   end).
Proof.
  intros r rows. subst r rows.
  unfold extract_tables_to_csv, parse_apple_invoice_table.
  destruct (parse_invoice_table text) as [ rows | e0 ] eqn:P.
  - split; [ intros e H; discriminate H | ]. intros _.
    apply rows_line_by_line in P. rewrite <- P.
    destruct rows as [ | row rows ]; [ reflexivity | ].
    cbn [save_to_csv_in]. destruct (fs csv_path); reflexivity.
  - split; [ intros e H; injection H as ->; reflexivity | ].
    intros (returned & H). discriminate H.
Qed.

(** X12: [analyze_table_structure] raises exactly what the extractor
    raises on the text: the analysis itself never fails, neither by a
    division by zero nor by an overflow.  It reports that no table was
    found exactly when the text gave no row, and otherwise a full report
    whose [total_rows] is the number of rows. *)
Theorem analyze_table_structure_outcome text :
  (forall e,
     analyze_table_structure text = Raise e <->
     parse_invoice_table text = Raise e) /\
  (forall rows,
     parse_invoice_table text = Ok rows ->
     exists r,
       analyze_table_structure text = Ok r /\
       (r = NoTable <-> rows = []) /\
       (forall a, r = Table a ->
                  total_rows a = Z.of_nat (List.length rows))).
Proof.
  unfold analyze_table_structure, parse_apple_invoice_table.
  destruct (parse_invoice_table text) as [ [ | row rows ] | e0 ];
    cbn [bind].
  - split; [ intros e; split; discriminate | ].
    intros rows H. injection H as <-. exists NoTable.
    split; [ reflexivity | ]. split; [ now split | discriminate ].
  - destruct (analyze_table_counts row rows) as (a & A & T & _).
    cbv zeta in A, T. rewrite A.
    split; [ intros e; split; discriminate | ].
    intros rows' H. injection H as <-. exists (Table a).
    split; [ reflexivity | ]. split; [ split; discriminate | ].
    intros a' E. injection E as <-. exact T.
  - split; [ intros e; split; intros H; injection H as ->; reflexivity | ]. intros rows H. discriminate H.
Qed.

(** ** The scripts and the command line *)

(** X13: [test_final.py] stops on a missing key when the text gives no
    row.  The report of an empty table has the key [status] only, and the
    script reads [total_rows] from it: the run ends on KeyError exactly
    when the extractor returns no row, after the status line, and no file
    is written.  With one row at least the run reaches its end and the
    file holds what [save_to_csv] writes for the rows; a blank cell never
    stops it. *)
Theorem test_final_missing_key text :
  let r := test_final text in
  (forall key, run_end r = UncaughtKeyError key <->
               key = "total_rows" /\ parse_invoice_table text = Ok []) /\
  (forall e, run_end r = Uncaught e <-> parse_invoice_table text = Raise e) /\
  (run_end r = Finished <->
   exists row rows, parse_invoice_table text = Ok (row :: rows)) /\
  (forall rows, parse_invoice_table text = Ok rows ->
                csv_file r = save_to_csv rows).
Proof.
  unfold test_final.
  destruct (parse_invoice_table text) as [ [ | row rows ] | e0 ] eqn:P.
  - cbn [analyze_table run_end csv_file].
    split; [ intros key; split; [ intros H | intros [ -> H ] ] | ].
    { injection H as <-. now split. }
    { reflexivity. }
    split; [ intros e; split; intros H; discriminate H | ].
    split; [ split; [ intros H | intros (row & rows & H) ]; discriminate H | ].
    intros rows H. injection H as <-. reflexivity.
  - destruct (analyze_table_counts row rows) as (a & A & _).
    cbv zeta in A. rewrite A. cbn [run_end csv_file].
    split; [ intros key; split; [ intros H | intros [ _ H ] ];
             discriminate H | ].
    split; [ intros e; split; intros H; discriminate H | ].
    split; [ split; [ intros _; now exists row, rows | reflexivity ] | ].
    intros rows' H. injection H as <-. reflexivity.
  - cbn [run_end csv_file].
    split; [ intros key; split; [ intros H | intros [ _ H ] ];
             discriminate H | ].
    split; [ intros e; split; intros H; injection H as ->; reflexivity | ].
    split; [ split; [ intros H | intros (row & rows & H) ]; discriminate H | ].
    intros rows H. discriminate H.
Qed.

(** X14: [test_parser.py] needs every quantity, and a total it can
    print.  On a text the extractor returns rows for, the run reaches its
    end exactly when no row has a blank quantity and the sum of the
    quantities has at most 4300 digits.  Otherwise it ends on ValueError
    and the CSV file is never written: either the totals of the analysis
    cannot be converted when their line is printed, or the format code
    [d] meets a string on the first row with a blank quantity.  At its end
    the file holds what [save_to_csv] writes for the rows. *)
Theorem test_parser_needs_quantities text rows :
  parse_invoice_table text = Ok rows ->
  let r := test_parser text in
  (run_end r = Finished <->
   Forall (fun row => Quantity row <> None) rows /\
   (total (filled_values Quantity rows) < 10 ^ max_str_digits)%Z) /\
  (run_end r = Finished -> csv_file r = save_to_csv rows) /\
  (run_end r <> Finished ->
   run_end r = Uncaught ValueError /\ csv_file r = None).
Proof.
  intros P. unfold test_parser. rewrite P.
  pose proof (parsed_quantities_in_range _ _ P) as R.
  pose proof (total_nonneg _ R) as N.
  assert (exists analysis,
            analyze_table rows = Ok analysis /\
            forall out,
              snd (print_items out analysis) =
              if (total (filled_values Quantity rows) <? 10 ^ max_str_digits)%Z
              then None else Some ValueError) as (analysis & -> & I).
  { destruct rows as [ | row rows' ].
    - exists NoTable. split; [ reflexivity | ]. intros out.
      cbn [print_items snd filled_values flat_map total fold_right].
      pose proof limit_positive as L. apply Z.ltb_lt in L. now rewrite L.
    - destruct (analyze_table_report row rows')
        as (share & _ & _ & a & A & Q & V & _).
      cbv zeta in A, Q, V. exists (Table a). split; [ exact A | ].
      intros out.
      rewrite numbers_filled_values, sum_ints in Q.
      rewrite numbers_filled_values in V.
      rewrite (print_items_end out a _ _ Q V), Z.abs_eq by exact N.
      reflexivity. }
  specialize (I (print "" "Analysis:")).
  destruct (print_items (print "" "Analysis:") analysis) as [ out1 end1 ].
  cbn [snd] in I. subst end1.
  destruct (Z.ltb_spec (total (filled_values Quantity rows))
                       (10 ^ max_str_digits)) as [ L | L ].
  2:{ cbn [run_end csv_file].
      split; [ split; [ intros H; discriminate H | ] | ].
      { intros [ _ H ]. exfalso.
        remember (10 ^ max_str_digits)%Z as lim. lia. }
      split; [ intros H; discriminate H | ].
      intros _. now split. }
  set (out := print out1 _).
  pose proof (parser_lines_end rows R 1 out) as E.
  rewrite (parsed_rows_complete _ _ P) in E.
  rewrite <- forallb_filled.
  destruct (parser_lines 1 rows out) as [ out' [ e | ] ]; cbn [snd] in E;
    destruct (forallb _ rows); try discriminate E; cbn [run_end csv_file].
  - injection E as ->.
    split; [ split; [ intros H | intros [ H _ ] ]; discriminate H | ].
    split; [ intros H; discriminate H | ].
    intros _. now split.
  - split; [ split; [ intros _; now split | reflexivity ] | ].
    split; [ reflexivity | ].
    intros H. now elim H.
Qed.

Lemma test_parser_needs_quantities_witness :
  exists rows,
    parse_invoice_table two_lines = Ok rows /\
    let r := test_parser two_lines in
    (run_end r = Finished <->
     Forall (fun row => Quantity row <> None) rows /\
     (total (filled_values Quantity rows) < 10 ^ max_str_digits)%Z) /\
    (run_end r = Finished -> csv_file r = save_to_csv rows) /\
    (run_end r <> Finished ->
     run_end r = Uncaught ValueError /\ csv_file r = None).
Proof.
  eexists. split; [ vm_compute; reflexivity | ].
  apply (test_parser_needs_quantities two_lines). vm_compute. reflexivity.
Defined.

(** X15: [main --csv] announces the file when it was written or when
    there was nothing to write.  The exit status is 0 exactly when the
    extractor returns on the text and either the text gave no row or
    [open] takes the path; the only line printed is then the announcement
    of the path.  Otherwise the status is 1, the error line is all that is
    printed, nothing is logged and no file is written: with rows and a
    path that [open] refuses, the handler at the end of [main] prints the
    exception of [open].  The file is written exactly when the text gave a
    row and the path opens, so on a text without rows the command
    announces a file it has not written. *)
Theorem main_csv_outcome fs text csv_path :
  let r := main_csv fs text csv_path in
  (exit_status r = 0%Z <->
   exists rows, parse_invoice_table text = Ok rows /\
                (rows = [] \/ fs csv_path = None)) /\
  (exit_status r = 0%Z ->
   printed r = [ Line ("Table data extracted to CSV: " ++ csv_path) ]) /\
  (exit_status r <> 0%Z ->
   exit_status r = 1%Z /\ written r = None /\ logged r = [] /\
   exists f, printed r = [ ErrorLine f ]) /\
  (written r <> None <->
   fs csv_path = None /\
   exists row rows, parse_invoice_table text = Ok (row :: rows)) /\
  (parse_invoice_table text = Ok [] ->
   r = mkCommand [ LogWarning "No table data found in PDF" ]
         [ Line ("Table data extracted to CSV: " ++ csv_path) ] None 0) /\
  (forall row rows f,
     parse_invoice_table text = Ok (row :: rows) -> fs csv_path = Some f ->
     r = mkCommand [] [ ErrorLine f ] None 1).
Proof.
  unfold main_csv, extract_tables_to_csv, parse_apple_invoice_table.
  destruct (parse_invoice_table text) as [ [ | row rows ] | e0 ].
  - cbn [exit_status printed written logged].
    split; [ split; [ intros _; exists []; split; [ reflexivity | now left ]
                    | reflexivity ] | ].
    split; [ reflexivity | ].
    split; [ intros H; now elim H | ].
    split; [ split; [ intros H; now elim H
                    | intros (_ & row & rows & H); discriminate H ] | ].
    split; [ reflexivity | ].
    intros row rows f H. discriminate H.
  - cbn [save_to_csv_in]. destruct (fs csv_path) as [ f | ];
      cbn [exit_status printed written logged save_to_csv].
    + split; [ split; [ intros H; discriminate H | ] | ].
      { intros (rows' & H & [ -> | N ]); discriminate. }
      split; [ intros H; discriminate H | ].
      split; [ intros _; repeat split; now exists f | ].
      split; [ split; [ intros H; now elim H
                      | intros (N & _); discriminate N ] | ].
      split; [ intros H; discriminate H | ].
      intros row' rows' f' _ F. injection F as <-. reflexivity.
    + split; [ split; [ intros _; exists (row :: rows);
                        split; [ reflexivity | now right ]
                      | reflexivity ] | ].
      split; [ reflexivity | ].
      split; [ intros H; now elim H | ].
      split; [ split; [ intros _; split; [ reflexivity | now exists row, rows ]
                      | discriminate ] | ].
      split; [ intros H; discriminate H | ].
      intros row' rows' f _ F. discriminate F.
  - cbn [exit_status printed written logged].
    split; [ split; [ intros H; discriminate H
                    | intros (rows & H & _); discriminate H ] | ].
    split; [ intros H; discriminate H | ].
    split; [ intros _; repeat split; now exists (Exn e0) | ].
    split; [ split; [ intros H; now elim H
                    | intros (_ & row & rows & H); discriminate H ] | ].
    split; [ intros H; discriminate H | ].
    intros row rows f H. discriminate H.
Qed.

(** X16: [main --analyze] is cut short only by the total quantity.  Its
    exit status is 1 with the error line alone when the extractor raises.
    On a text without rows it prints the two lines of an empty report.
    On a text with rows it prints the ten lines up to the heading of the
    totals, and then, when the sum of the quantities has at most 4300
    digits, the two lines of the totals, with status 0: the keys it reads
    are guarded, and the total value always formats.  When the sum has
    more digits, the format code [,] cannot convert it: the error line of
    ValueError follows the ten lines, and the status is 1. *)
Theorem main_analyze_outcome text :
  let r := main_analyze text in
  (forall e, parse_invoice_table text = Raise e ->
             printed r = [ ErrorLine (Exn e) ] /\ exit_status r = 1%Z) /\
  (parse_invoice_table text = Ok [] ->
   printed r = [ Line "Table Analysis:"; Line "Status: No table data found" ]
   /\ exit_status r = 0%Z) /\
  (forall row rows,
     parse_invoice_table text = Ok (row :: rows) ->
     let q := total (filled_values Quantity (row :: rows)) in
     nth_error (printed r) 2
       = Some (Line ("Total rows: "
                     ++ PyNum.str_int (Z.of_nat (List.length (row :: rows)))))
     /\
     Forall (fun l => exists s, l = Line s) (firstn 10 (printed r)) /\
     ((q < 10 ^ max_str_digits)%Z ->
      List.length (printed r) = 12 /\ exit_status r = 0%Z /\
      nth_error (printed r) 10
        = Some (Line ("  Total quantity: "
                      ++ PyFormat.grouped (PyNum.str_int q))) /\
      exists value,
        nth_error (printed r) 11 = Some (Line ("  Total value: $" ++ value)))
     /\
     ((10 ^ max_str_digits <= q)%Z ->
      List.length (printed r) = 11 /\ exit_status r = 1%Z /\
      nth_error (printed r) 10 = Some (ErrorLine (Exn ValueError)))).
Proof.
  unfold main_analyze, analyze_table_structure, parse_apple_invoice_table.
  destruct (parse_invoice_table text) as [ [ | row rows ] | e0 ] eqn:P;
    cbn [bind].
  - cbn [printed exit_status].
    split; [ intros e H; discriminate H | ].
    split; [ intros _; now split | ].
    intros row rows H. discriminate H.
  - split; [ intros e H; discriminate H | ].
    split; [ intros H; discriminate H | ].
    intros row' rows' H. injection H as <- <-.
    pose proof (total_nonneg _ (parsed_quantities_in_range _ _ P)) as N.
    destruct (analyze_table_report row rows)
      as (share & _ & _ & a & A & Q & V & _).
    destruct (analyze_table_counts row rows) as (a' & A' & T & _).
    cbv zeta in A, A', T, Q, V. rewrite A in A'. injection A' as <-.
    rewrite A. destruct (total_value_prints (row :: rows)) as (s & S).
    rewrite <- V in S.
    rewrite numbers_filled_values, sum_ints in Q.
    rewrite Q, fmt_c_int, Z.abs_eq, T by exact N.
    cbv zeta.
    destruct (Z.ltb_spec (total (filled_values Quantity (row :: rows)))
                         (10 ^ max_str_digits)) as [ L | L ].
    + rewrite S. cbn [printed exit_status app firstn nth_error List.length].
      split; [ reflexivity | ].
      split; [ repeat constructor; eexists; reflexivity | ].
      split.
      * intros _. split; [ reflexivity | ]. split; [ reflexivity | ].
        split; [ reflexivity | ]. now exists s.
      * intros H. exfalso. remember (10 ^ max_str_digits)%Z as lim. lia.
    + cbn [printed exit_status app firstn nth_error List.length].
      split; [ reflexivity | ].
      split; [ repeat constructor; eexists; reflexivity | ].
      split.
      * intros H. exfalso. remember (10 ^ max_str_digits)%Z as lim. lia.
      * intros _. now repeat split.
  - cbn [printed exit_status].
    split; [ intros e H; injection H as ->; now split | ].
    split; [ intros H; discriminate H | ].
    intros row rows H. discriminate H.
Qed.

(** A path that [open] refuses stops [main --csv] when there are rows to
    write, and is not even tried when there are none. *)
Example refused_path_with_rows :
  main_csv read_only two_lines "out.csv"
  = mkCommand [] [ ErrorLine OSError ] None 1.
Proof. vm_compute. reflexivity. Qed.

Example refused_path_without_rows :
  main_csv read_only "no product here" "out.csv"
  = mkCommand [ LogWarning "No table data found in PDF" ]
      [ Line "Table data extracted to CSV: out.csv" ] None 0.
Proof. vm_compute. reflexivity. Qed.

(** ** Whitespace *)

(** X17: whitespace around the text is ignored.  Blank lines and other
    whitespace before and after the text change neither the rows nor
    their [Source_Line]: lines are counted in the stripped text, from its
    first line that is not blank. *)
Theorem surrounding_whitespace_ignored ws ws' text :
  all_of is_space ws = true -> all_of is_space ws' = true ->
  parse_invoice_table (ws ++ text ++ ws') = parse_invoice_table text.
Proof.
  intros A A'. unfold parse_invoice_table.
  now rewrite (strip_spaces_left _ _ A), (strip_spaces_right _ _ A').
Qed.

Lemma surrounding_whitespace_ignored_witness :
  parse_invoice_table (eol ++ iphone12_line ++ "  ")
  = parse_invoice_table iphone12_line.
Proof.
  apply (surrounding_whitespace_ignored eol "  " iphone12_line); reflexivity.
Defined.

(** X18: line ends.  A text whose lines end in carriage return and line
    feed gives the same table as the text with line feeds alone: the
    carriage return left at the end of a line by the split is stripped
    with the line. *)
Theorem crlf_line_ends text :
  parse_invoice_table (replace LF crlf text) = parse_invoice_table text.
Proof.
  unfold parse_invoice_table. rewrite strip_crlf.
  apply scan_same_lines, split_crlf_strip.
Qed.
